(** * NextClient: request encoding and response normalisation

    A shallow embedding of the fluent HTTP client of this repository:
    - [ToPath.jsonToFormData] / [Parser.jsonToFormData]  (to.ts, index.ts)
    - [Parser.setSearchParams] (index.ts) and [NextClient.setSearchParams]
      (request.js)
    - [FormRequest.send] (form.ts), [JsonRequest.send] (json.ts),
      [Executer.fetcher] (index.ts)
    - the builder steps [form], [json], [set], [delete], [headers], [append],
      over an explicit store of JavaScript objects.

    The platform (fetch, URL, JSON.parse) is a parameter of the development;
    FormData and URLSearchParams are modelled by their entry lists. *)

From Stdlib Require Import ZArith String Ascii List Lia DecimalString.
From stdpp Require Import strings list.
Import ListNotations.

Local Open Scope string_scope.
Local Open Scope list_scope.

Set Warnings "-register-all".

(** ** JavaScript values *)

(** A [File]: a name, a media type and its content. *)
Record File := mkFile {
  file_name : string;
  file_type : string;
  file_bits : string
}.

(** The values a payload or a query mapping is made of.  Numbers are the
    integer-valued ones; arrays are dense; an object is the list of its own
    enumerable properties in iteration order. *)
Inductive JsValue : Type :=
| JUndefined
| JNull
| JBool (b : bool)
| JNum (z : Z)
| JStr (s : string)
| JFile (f : File)
| JArr (items : list JsValue)
| JObj (props : list (string * JsValue)).

Definition Props := list (string * JsValue).

(** Induction over values that reaches inside arrays and objects. *)
Section JsValue_nested_ind.
Variable P : JsValue -> Prop.
Hypothesis Hundef : P JUndefined.
Hypothesis Hnull : P JNull.
Hypothesis Hbool : forall b, P (JBool b).
Hypothesis Hnum : forall z, P (JNum z).
Hypothesis Hstr : forall s, P (JStr s).
Hypothesis Hfile : forall f, P (JFile f).
Hypothesis Harr : forall items, Forall P items -> P (JArr items).
Hypothesis Hobj : forall props, Forall (fun kv => P (snd kv)) props -> P (JObj props).

Fixpoint JsValue_nested_ind (v : JsValue) : P v :=
  match v with
  | JUndefined => Hundef
  | JNull => Hnull
  | JBool b => Hbool b
  | JNum z => Hnum z
  | JStr s => Hstr s
  | JFile f => Hfile f
  | JArr items =>
      Harr items
        ((fix all (l : list JsValue) : Forall P l :=
            match l with
            | [] => List.Forall_nil P
            | x :: l' => @List.Forall_cons _ P x l' (JsValue_nested_ind x) (all l')
            end) items)
  | JObj props =>
      Hobj props
        ((fix all (l : Props) : Forall (fun kv => P (snd kv)) l :=
            match l with
            | [] => List.Forall_nil _
            | kv :: l' =>
                @List.Forall_cons _ (fun kv => P (snd kv)) kv l'
                  (JsValue_nested_ind (snd kv)) (all l')
            end) props)
  end.
End JsValue_nested_ind.

(** Number.prototype.toString on an integer-valued number. *)
Definition num_toString (z : Z) : string :=
  NilZero.string_of_int (Z.to_int z).

(** Array.prototype.join. *)
Fixpoint join (sep : string) (parts : list string) : string :=
  match parts with
  | [] => ""
  | [p] => p
  | p :: rest => p +:+ sep +:+ join sep rest
  end.

(** [value.toString()].  [None] is the TypeError raised when the receiver is
    null or undefined.  An array joins its elements with a comma, null and
    undefined elements giving the empty string. *)
Fixpoint toString (v : JsValue) : option string :=
  match v with
  | JUndefined | JNull => None
  | JBool b => Some (if b then "true" else "false")
  | JNum z => Some (num_toString z)
  | JStr s => Some s
  | JFile _ => Some "[object File]"
  | JArr items =>
      Some (join "," (map (fun item =>
                             match toString item with
                             | Some s => s
                             | None => ""
                             end) items))
  | JObj _ => Some "[object Object]"
  end.

(** Truthiness of a string: only the empty string is falsy. *)
Definition truthy_string (s : string) : bool :=
  match s with
  | EmptyString => false
  | String _ _ => true
  end.

(** [value?.toString() || ""]. *)
Definition toString_or_empty (v : JsValue) : string :=
  match toString v with
  | Some s => if truthy_string s then s else ""
  | None => ""
  end.

(** [typeof value === "object"]. *)
Definition typeof_object (v : JsValue) : bool :=
  match v with
  | JNull | JFile _ | JArr _ | JObj _ => true
  | _ => false
  end.

(** [Array.isArray(value)]. *)
Definition isArray (v : JsValue) : bool :=
  match v with
  | JArr _ => true
  | _ => false
  end.

(** [String.prototype.includes]. *)
Fixpoint includes (s sub : string) : bool :=
  String.prefix sub s
  || match s with
     | EmptyString => false
     | String _ s' => includes s' sub
     end.

(** ** FormData *)

Inductive FormDataEntryValue : Type :=
| FVString (s : string)
| FVFile (f : File).

(** A FormData object is the list of its entries, in insertion order. *)
Definition FormData := list (string * FormDataEntryValue).

Module FormDataOps.
(** [formData.append(name, value)]: always adds an entry at the end. *)
Definition append (fd : FormData) (name : string) (v : FormDataEntryValue)
  : FormData :=
  fd ++ [(name, v)].

(** [formData.getAll(name)]. *)
Definition getAll (fd : FormData) (name : string) : list FormDataEntryValue :=
  map snd (List.filter (fun e => String.eqb (fst e) name) fd).
End FormDataOps.

(** ** The form encoder (to.ts [ToPath.jsonToFormData], index.ts
    [Parser.jsonToFormData]: the two bodies are the same text) *)

(** [`${parentKey}[${key}]`]. *)
Definition bracket (parentKey key : string) : string :=
  parentKey +:+ "[" +:+ key +:+ "]".

(** [parentKey ? `${parentKey}[${key}]` : key]. *)
Definition formKey_of (parentKey key : string) : string :=
  if truthy_string parentKey then bracket parentKey key else key.

(** [parentKey || key]. *)
Definition formKeyFile_of (parentKey key : string) : string :=
  if truthy_string parentKey then parentKey else key.

(** [value.forEach((item, index) => ...)] of the array branch. *)
Fixpoint appendItems (formKey : string) (items : list JsValue) (index : nat)
  (formData : FormData) : FormData :=
  match items with
  | [] => formData
  | item :: rest =>
      let arrayKey := bracket formKey (num_toString (Z.of_nat index)) in
      appendItems formKey rest (S index)
        (match item with
         | JFile f => FormDataOps.append formData formKey (FVFile f)
         | _ => FormDataOps.append formData arrayKey
                  (FVString (toString_or_empty item))
         end)
  end.

(** The body of the [for (const key in jsonObject)] loop, for one key. *)
Fixpoint jsonToFormData_entry (parentKey key : string) (value : JsValue)
  (formData : FormData) {struct value} : FormData :=
  let formKey := formKey_of parentKey key in
  match value with
  | JFile f =>
      FormDataOps.append formData (formKeyFile_of parentKey key) (FVFile f)
  | JArr [] => FormDataOps.append formData formKey (FVString "")
  | JArr items => appendItems formKey items 0 formData
  | JObj props =>
      (fix loop (ps : Props) (fd : FormData) : FormData :=
         match ps with
         | [] => fd
         | (k, v) :: ps' => loop ps' (jsonToFormData_entry formKey k v fd)
         end) props formData
  | _ => FormDataOps.append formData formKey (FVString (toString_or_empty value))
  end.

(** [jsonToFormData(jsonObject, formData, parentKey)]. *)
Fixpoint jsonToFormData (jsonObject : Props) (formData : FormData)
  (parentKey : string) : FormData :=
  match jsonObject with
  | [] => formData
  | (key, value) :: rest =>
      jsonToFormData rest (jsonToFormData_entry parentKey key value formData)
        parentKey
  end.

(** ** Errors *)

(** Errors raised by the platform itself. *)
Inductive PlatformError : Type :=
| TypeError (message : string)
| SyntaxError (message : string)
| AbortError (message : string).

(** What a function of the client can throw: an [HttpError] (a status code
    and the response body, text or parsed JSON), a plain
    [new Error(message)], or a platform error passing through.  The sources
    hold two classes named [HttpError], of the same members: the one of the
    module ./errror, which form.ts and form.js throw and the index of the
    package imports, and the one of the module ./error, which json.ts
    throws (json.js, compiled from an older json.ts, still requires
    ./errror).  An instance of one is not an instance of the other. *)
Inductive Thrown : Type :=
| EHttpError (statusCode : Z) (response : JsValue)
| EHttpError_error (statusCode : Z) (response : JsValue)
| EError (message : string)
| EPlatform (e : PlatformError).

(** [error instanceof HttpError] in the index of the package
    ([isNextClientError]), its [HttpError] being the class of ./errror. *)
Definition isNextClientError (e : Thrown) : bool :=
  match e with
  | EHttpError _ _ => true
  | _ => false
  end.

(** The status code an error carries, if it is of a kind that has one. *)
Definition statusCode_of (e : Thrown) : option Z :=
  match e with
  | EHttpError statusCode _ => Some statusCode
  | EHttpError_error statusCode _ => Some statusCode
  | _ => None
  end.

Inductive Result (A : Type) : Type :=
| Ok (a : A)
| Throw (e : Thrown).
Arguments Ok {A} a.
Arguments Throw {A} e.

Definition bind {A B : Type} (r : Result A) (k : A -> Result B) : Result B :=
  match r with
  | Ok a => k a
  | Throw e => Throw e
  end.

Notation "'let*' x ':=' r 'in' k" := (bind r (fun x => k))
  (at level 10, x name, r at level 100, k at level 200).

(** ** URLSearchParams *)

(** A URLSearchParams object is the list of its name/value pairs. *)
Definition URLSearchParams := list (string * string).

Module URLSearchParamsOps.
(** [searchParams.set(name, value)]: the first pair named [name] takes the
    value and every other pair of that name is removed; with no such pair,
    the pair is added at the end. *)
Fixpoint set (sp : URLSearchParams) (name value : string) : URLSearchParams :=
  match sp with
  | [] => [(name, value)]
  | (n, v) :: rest =>
      if String.eqb n name
      then (name, value)
             :: List.filter (fun e => negb (String.eqb (fst e) name)) rest
      else (n, v) :: set rest name value
  end.

(** [searchParams.get(name)]. *)
Fixpoint get (sp : URLSearchParams) (name : string) : option string :=
  match sp with
  | [] => None
  | (n, v) :: rest => if String.eqb n name then Some v else get rest name
  end.

(** [searchParams.getAll(name)]. *)
Definition getAll (sp : URLSearchParams) (name : string) : list string :=
  map snd (List.filter (fun e => String.eqb (fst e) name) sp).
End URLSearchParamsOps.

Definition nullish_TypeError : Thrown :=
  EPlatform (TypeError "Cannot convert undefined or null to object").

Definition toString_TypeError : Thrown :=
  EPlatform (TypeError "Cannot read properties of undefined (reading 'toString')").

(** ** The query encoder of index.ts *)

Module Parser.
(** [addParam(key, value)], the closure of [setSearchParams]; the
    URLSearchParams it writes to is threaded through.

    [typeof value === "object" && !Array.isArray(value)] holds of a plain
    object, of a File and of null: [Object.entries] gives the properties of
    the first, nothing for a File (it has no own enumerable property) and
    throws on null.  Every other value, arrays included, takes the [else]
    branch. *)
Fixpoint addParam (prefix key : string) (value : JsValue)
  (searchParams : URLSearchParams) {struct value} : Result URLSearchParams :=
  match value with
  | JObj props =>
      (fix forEach (ps : Props) (sp : URLSearchParams)
         : Result URLSearchParams :=
         match ps with
         | [] => Ok sp
         | (nestedKey, nestedValue) :: ps' =>
             let* sp' := addParam prefix (prefix +:+ bracket key nestedKey)
                           nestedValue sp in
             forEach ps' sp'
         end) props searchParams
  | JFile _ => Ok searchParams
  | JNull => Throw nullish_TypeError
  | _ =>
      match toString value with
      | Some s =>
          Ok (URLSearchParamsOps.set searchParams
                (if truthy_string prefix then prefix +:+ key else key) s)
      | None => Throw toString_TypeError
      end
  end.

(** [Object.entries(params).forEach(([key, value]) => addParam(key, value))]. *)
Fixpoint addParams (prefix : string) (params : Props)
  (searchParams : URLSearchParams) : Result URLSearchParams :=
  match params with
  | [] => Ok searchParams
  | (key, value) :: rest =>
      let* sp' := addParam prefix key value searchParams in
      addParams prefix rest sp'
  end.

(** [setSearchParams(params, prefix = "")]. *)
Definition setSearchParams (params : Props) (prefix : string)
  : Result URLSearchParams :=
  addParams prefix params [].
End Parser.

(** ** The query encoder of request.js *)

Module NextClient.
(** [Object.entries(params).forEach(([key, value]) =>
      searchParams.set(key, value.toString()))]. *)
Fixpoint setEach (params : Props) (searchParams : URLSearchParams)
  : Result URLSearchParams :=
  match params with
  | [] => Ok searchParams
  | (key, value) :: rest =>
      match toString value with
      | Some s => setEach rest (URLSearchParamsOps.set searchParams key s)
      | None => Throw toString_TypeError
      end
  end.

Definition setSearchParams (params : Props) : Result URLSearchParams :=
  setEach params [].
End NextClient.

(** ** JSON.stringify *)

Definition dquote : string := String (ascii_of_nat 34) EmptyString.
Definition backslash : string := String (ascii_of_nat 92) EmptyString.

Definition hex_digit (n : nat) : ascii :=
  if (n <? 10)%nat then ascii_of_nat (48 + n) else ascii_of_nat (87 + n).

(** The JSON escape of one character of a string. *)
Definition json_escape_char (c : ascii) : string :=
  let n := nat_of_ascii c in
  if (n =? 34)%nat then backslash +:+ dquote
  else if (n =? 92)%nat then backslash +:+ backslash
  else if (n =? 8)%nat then backslash +:+ "b"
  else if (n =? 9)%nat then backslash +:+ "t"
  else if (n =? 10)%nat then backslash +:+ "n"
  else if (n =? 12)%nat then backslash +:+ "f"
  else if (n =? 13)%nat then backslash +:+ "r"
  else if (n <? 32)%nat
       then backslash +:+ "u00"
              +:+ String (hex_digit (n / 16)%nat) (String (hex_digit (n mod 16)%nat) "")
  else String c "".

Fixpoint json_escape (s : string) : string :=
  match s with
  | EmptyString => ""
  | String c s' => json_escape_char c +:+ json_escape s'
  end.

Definition json_quote (s : string) : string :=
  dquote +:+ json_escape s +:+ dquote.

(** [JSON.stringify(value)]: [None] is the result [undefined].  An undefined
    property is left out of an object, an undefined array element is written
    [null], and a File has no own enumerable property. *)
Fixpoint JSON_stringify (v : JsValue) : option string :=
  match v with
  | JUndefined => None
  | JNull => Some "null"
  | JBool b => Some (if b then "true" else "false")
  | JNum z => Some (num_toString z)
  | JStr s => Some (json_quote s)
  | JFile _ => Some "{}"
  | JArr items =>
      Some ("[" +:+ join "," (map (fun item =>
                                    match JSON_stringify item with
                                    | Some s => s
                                    | None => "null"
                                    end) items) +:+ "]")
  | JObj props =>
      Some ("{" +:+ join "," (flat_map (fun kv =>
                                         match JSON_stringify (snd kv) with
                                         | Some s => [json_quote (fst kv) +:+ ":" +:+ s]
                                         | None => []
                                         end) props) +:+ "}")
  end.

(** Truthiness of a value. *)
Definition truthy (v : JsValue) : bool :=
  match v with
  | JUndefined | JNull => false
  | JBool b => b
  | JNum z => negb (z =? 0)%Z
  | JStr s => truthy_string s
  | JFile _ | JArr _ | JObj _ => true
  end.

(** ** Plain objects used as records: property assignment, delete, spread *)

(** An object is the list of its own properties in the order in which they
    are enumerated ([Object.entries], [for...in], spread, [JSON.stringify]):
    the keys that are array indices first, in ascending numeric order, then
    the other keys in the order in which they were created. *)

Definition digit_of (c : ascii) : option N :=
  let n := N_of_ascii c in
  if ((48 <=? n) && (n <=? 57))%N then Some (n - 48)%N else None.

Fixpoint digits_value (s : string) (acc : N) : option N :=
  match s with
  | EmptyString => Some acc
  | String c rest =>
      match digit_of c with
      | Some d => digits_value rest (10 * acc + d)%N
      | None => None
      end
  end.

(** The array index a property key stands for, when it is one: the key is
    the canonical decimal text (no sign, no leading zero) of an integer
    below 2^32 - 1. *)
Definition array_index (key : string) : option N :=
  match key with
  | EmptyString => None
  | String c rest =>
      if Ascii.eqb c "0"%char && negb (String.eqb rest "") then None
      else
        match digits_value key 0 with
        | Some n => if (n <? 4294967295)%N then Some n else None
        | None => None
        end
  end.

Section Object_ops.
Context {V : Type}.

(** [key in obj], for own properties. *)
Definition obj_has (o : list (string * V)) (key : string) : bool :=
  existsb (fun kv => String.eqb (fst kv) key) o.

(** The assignment to a property the object has: it keeps its place. *)
Fixpoint obj_replace (o : list (string * V)) (key : string) (value : V)
  : list (string * V) :=
  match o with
  | [] => []
  | (k, v) :: rest =>
      if String.eqb k key then (key, value) :: rest
      else (k, v) :: obj_replace rest key value
  end.

(** The creation of a property whose key is the array index [n]: it is
    enumerated after the array indices below [n] and before every other
    key. *)
Fixpoint obj_insert_index (o : list (string * V)) (n : N) (key : string)
  (value : V) : list (string * V) :=
  match o with
  | [] => [(key, value)]
  | (k, v) :: rest =>
      match array_index k with
      | Some m =>
          if (m <? n)%N then (k, v) :: obj_insert_index rest n key value
          else (key, value) :: (k, v) :: rest
      | None => (key, value) :: (k, v) :: rest
      end
  end.

(** [obj[key] = value], and the definition of a property by an object
    literal: an existing property keeps its place; a new one whose key is an
    array index goes among the array indices, at its rank; any other new one
    goes last. *)
Definition obj_set (o : list (string * V)) (key : string) (value : V)
  : list (string * V) :=
  if obj_has o key then obj_replace o key value
  else
    match array_index key with
    | Some n => obj_insert_index o n key value
    | None => o ++ [(key, value)]
    end.

(** [obj[key]]. *)
Fixpoint obj_get (o : list (string * V)) (key : string) : option V :=
  match o with
  | [] => None
  | (k, v) :: rest => if String.eqb k key then Some v else obj_get rest key
  end.

(** [delete obj[key]]. *)
Definition obj_delete (o : list (string * V)) (key : string)
  : list (string * V) :=
  List.filter (fun kv => negb (String.eqb (fst kv) key)) o.

(** [{...a, ...b}]. *)
Definition obj_spread (a b : list (string * V)) : list (string * V) :=
  fold_left (fun acc kv => obj_set acc (fst kv) (snd kv)) b a.
End Object_ops.

(** ** Requests and responses *)

Inductive TMethads : Type := GET | HEAD | OPTIONS | POST | PUT | DELETE | PATCH.

Definition TMethads_eqb (a b : TMethads) : bool :=
  match a, b with
  | GET, GET | HEAD, HEAD | OPTIONS, OPTIONS | POST, POST
  | PUT, PUT | DELETE, DELETE | PATCH, PATCH => true
  | _, _ => false
  end.

(** [Record<string, string>], the form of the headers the client is given
    in every use the sources show. *)
Definition Headers := list (string * string).

Inductive BodyInit : Type :=
| BodyFormData (formData : FormData)
| BodyString (text : string).

Record AbortSignal := { aborted : bool }.

(** [RequestInit]: every member is optional.  In [init_body], [None] stands
    for a body that is null or undefined: the request carries no body. *)
Record RequestInit := {
  init_method : option TMethads;
  init_headers : option Headers;
  init_body : option BodyInit;
  init_cache : option string;
  init_credentials : option string;
  init_mode : option string;
  init_referrerPolicy : option string;
  init_signal : option AbortSignal
}.

Definition empty_init : RequestInit :=
  {| init_method := None; init_headers := None; init_body := None;
     init_cache := None; init_credentials := None; init_mode := None;
     init_referrerPolicy := None; init_signal := None |}.

(** A member of [{...a, ...b}]: the one of [b] when it is present. *)
Definition or_else {A : Type} (b a : option A) : option A :=
  match b with
  | Some x => Some x
  | None => a
  end.

(** [{...a, ...b}] on RequestInit dictionaries. *)
Definition spread_init (a b : RequestInit) : RequestInit :=
  {| init_method := or_else (init_method b) (init_method a);
     init_headers := or_else (init_headers b) (init_headers a);
     init_body := or_else (init_body b) (init_body a);
     init_cache := or_else (init_cache b) (init_cache a);
     init_credentials := or_else (init_credentials b) (init_credentials a);
     init_mode := or_else (init_mode b) (init_mode a);
     init_referrerPolicy := or_else (init_referrerPolicy b) (init_referrerPolicy a);
     init_signal := or_else (init_signal b) (init_signal a) |}.

(** A URL object: what [new URL(path, host)] was built from and the pairs
    its [search] was set from. *)
Record URL := {
  url_path : string;
  url_host : string;
  url_search : URLSearchParams
}.

(** The arguments of one call of [fetch]. *)
Record FetchCall := {
  call_url : URL;
  call_init : RequestInit
}.

(** A completed response: status, the Content-Type header ([None] when the
    header is absent) and the body as text. *)
Record Response := {
  status : Z;
  contentType_header : option string;
  body_text : string
}.

(** [response.ok]. *)
Definition ok (response : Response) : bool :=
  ((200 <=? status response) && (status response <=? 299))%Z.

(** The platform the client runs on. *)
Class Platform := {
  (** [fetch(url, init)]: rejects, or resolves with a completed response. *)
  fetch : FetchCall -> PlatformError + Response;
  (** [JSON.parse] of a body; [None] when it is not JSON. *)
  JSON_parse : string -> option JsValue;
  (** whether [new URL(path, host)] succeeds. *)
  URL_valid : string -> string -> bool
}.

Section Platform_calls.
Context {platform : Platform}.

(** [new URL(path, host)] followed by [url.search = searchParams.toString()]. *)
Definition make_url (path host : string) (searchParams : URLSearchParams)
  : Result URL :=
  if URL_valid path host
  then Ok {| url_path := path; url_host := host; url_search := searchParams |}
  else Throw (EPlatform (TypeError "Invalid URL")).

(** [await fetch(url, init)]. *)
Definition await_fetch (call : FetchCall) : Result Response :=
  match fetch call with
  | inl e => Throw (EPlatform e)
  | inr response => Ok response
  end.

(** [await response.json()]. *)
Definition Response_json (response : Response) : Result JsValue :=
  match JSON_parse (body_text response) with
  | Some v => Ok v
  | None => Throw (EPlatform (SyntaxError "Unexpected token in JSON"))
  end.

(** [await response.text()]. *)
Definition Response_text (response : Response) : Result string :=
  Ok (body_text response).
End Platform_calls.

(** Modelled from the spec: the declaration of [NextClientConfig] that to.ts,
    form.ts and json.ts import (dist/types/config) is not among the sources;
    the spec's [debug] flag is the one member these files read
    ([this.config?.debug]). *)
Record NextClientConfig := { debug : option bool }.

(** [this.config?.debug] used as a condition. *)
Definition debug_on (config : option NextClientConfig) : bool :=
  match config with
  | Some c => match debug c with Some b => b | None => false end
  | None => false
  end.

(** What [send] resolves with. *)
Record Normalized := { statusCode : Z; data : JsValue }.

(** What the debug branch writes to the console. *)
Inductive ConsoleEvent : Type :=
| LogBanner
| LogEndpoint (url : URL)
| LogMethod (method : TMethads)
| LogPayloadForm (formData : FormData)
| LogPayloadJson (payload : JsValue)
| LogSeparator
| LogStatusCode (statusCode : Z)
| DebugResponse (response : JsValue)
| ErrorRequestFailed (error : Thrown).

(** One execution of [send]: the call made to the transport (if it was
    reached), the console output and the settlement of the promise. *)
Record Sent := {
  transport_call : option FetchCall;
  console : list ConsoleEvent;
  outcome : Result Normalized
}.

(** ** The store of objects the builders share *)

Abbreviation loc := nat.

(** to.ts [ToPath]. *)
Record ToPathObj := {
  tp_path : string;
  tp_host : string;
  tp_init : RequestInit;
  tp_method : TMethads;
  tp_searchParams : URLSearchParams;
  tp_config : option NextClientConfig
}.

(** form.ts [FormRequest]: [formData] is a reference to a FormData object. *)
Record FormRequestObj := {
  fr_formData : loc;
  fr_path : string;
  fr_host : string;
  fr_init : RequestInit;
  fr_method : TMethads;
  fr_searchParams : URLSearchParams;
  fr_config : option NextClientConfig
}.

(** json.ts [JsonRequest]: the payload is read once, by [send]. *)
Record JsonRequestObj := {
  jr_formData : JsValue;
  jr_path : string;
  jr_host : string;
  jr_init : RequestInit;
  jr_method : TMethads;
  jr_searchParams : URLSearchParams;
  jr_config : option NextClientConfig
}.

(** index.ts [NextClientBodyConfig]; [headers] is a reference to a headers
    object, copied as a reference by every spread of the config. *)
Record NextClientBodyConfig := {
  c_debug : option bool;
  c_baseUrl : string;
  c_headers : option loc;
  c_prefix : option string;
  c_method : TMethads;
  c_path : string;
  c_query : option Props
}.

(** index.ts [NextBodyAppendConfig]; [data] is a reference to the payload
    object.  The config object itself is created by the spread in
    [NextClientBody.form] / [json] and held only by its [NextBodyAppend]. *)
Record NextBodyAppendConfig := {
  a_config : NextClientBodyConfig;
  a_data : loc;
  a_isForm : bool
}.

Inductive Cell : Type :=
| CObject (props : Props)
| CHeaders (headers : Headers)
| CFormData (formData : FormData)
| CToPath (o : ToPathObj)
| CFormRequest (o : FormRequestObj)
| CJsonRequest (o : JsonRequestObj)
| CNextClientBody (config : NextClientBodyConfig)
| CNextBodyAppend (config : NextBodyAppendConfig).

(** Objects are only ever created: the store grows at its end and a
    reference is an index into it. *)
Abbreviation Store := (list Cell).

Definition alloc (h : Store) (c : Cell) : Store * loc :=
  (h ++ [c], length h).

(** ** Response decoding (form.ts 80-110) *)

(** json.ts 67-97 has the same statements, with [HttpError] bound to the
    class of ./error where form.ts has the one of ./errror: see
    [JsonRequest.decode]. *)

Section Decoding.
Context {platform : Platform}.

(** [try { errorText = await clonedResponse.json() }
     catch { errorText = await response.text() }]. *)
Definition error_body (response : Response) : JsValue :=
  match Response_json response with
  | Ok parsed => parsed
  | Throw _ => JStr (body_text response)
  end.

Definition decode_response (response : Response) : Result Normalized :=
  let statusCode := status response in
  if negb (ok response) then
    Throw (EHttpError (status response) (error_body response))
  else
    let contentType :=
      match contentType_header response with
      | Some ct => if truthy_string ct then ct else ""
      | None => ""
      end in
    if includes contentType "application/json" then
      (let* responseData := Response_json response in
       Ok {| statusCode := statusCode; data := responseData |})
    else if includes contentType "text/" || String.eqb contentType "" then
      Ok {| statusCode := statusCode; data := JStr (body_text response) |}
    else
      Throw (EError ("Unsupported content type: " +:+ contentType)).
End Decoding.

(** The members [send] writes after the spreads: [headers], [method], [body]. *)
Definition with_headers_method_body (i : RequestInit) (headers : Headers)
  (method : TMethads) (body : option BodyInit) : RequestInit :=
  {| init_method := Some method;
     init_headers := Some headers;
     init_body := body;
     init_cache := init_cache i;
     init_credentials := init_credentials i;
     init_mode := init_mode i;
     init_referrerPolicy := init_referrerPolicy i;
     init_signal := init_signal i |}.

Definition headers_or_empty (h : option Headers) : Headers :=
  match h with
  | Some hs => hs
  | None => []
  end.

(** ** form.ts *)

Module FormRequest.
Section Send.
Context {platform : Platform}.

(** The second argument of [fetch] in [send]. *)
Definition fetch_init (this : FormRequestObj) (formData : FormData)
  (headers : option Headers) (init : option RequestInit) : RequestInit :=
  with_headers_method_body
    (spread_init (fr_init this)
       (match init with Some i => i | None => empty_init end))
    (obj_spread (headers_or_empty (init_headers (fr_init this)))
       (headers_or_empty headers))
    (fr_method this)
    (if TMethads_eqb (fr_method this) GET then None
     else Some (BodyFormData formData)).

(** The [catch] block: logs under [this.config?.debug], then rethrows. *)
Definition on_error (this : FormRequestObj) (formData : FormData)
  (error : Thrown) : list ConsoleEvent * Result Normalized :=
  if debug_on (fr_config this) then
    match error with
    | EHttpError code response =>
        match make_url (fr_path this) (fr_host this) (fr_searchParams this) with
        | Ok url =>
            ([LogBanner; LogEndpoint url; LogMethod (fr_method this);
              LogPayloadForm formData; LogSeparator; LogStatusCode code;
              DebugResponse response; LogSeparator],
             Throw error)
        | Throw e => ([], Throw e)
        end
    | _ => ([LogBanner; ErrorRequestFailed error; LogSeparator], Throw error)
    end
  else ([], Throw error).

Definition settle (this : FormRequestObj) (formData : FormData)
  (call : option FetchCall) (r : Result Normalized) : Sent :=
  {| transport_call := call;
     console := match r with
                | Ok _ => []
                | Throw error => fst (on_error this formData error)
                end;
     outcome := match r with
                | Ok result => Ok result
                | Throw error => snd (on_error this formData error)
                end |}.

(** [send(headers, init)]; [formData] is the content of [this.formData]. *)
Definition send (this : FormRequestObj) (formData : FormData)
  (headers : option Headers) (init : option RequestInit) : Sent :=
  match make_url (fr_path this) (fr_host this) (fr_searchParams this) with
  | Throw e => settle this formData None (Throw e)
  | Ok url =>
      let call := {| call_url := url;
                     call_init := fetch_init this formData headers init |} in
      settle this formData (Some call)
        (let* response := await_fetch call in decode_response response)
  end.

(** [send] on the instance at a reference. *)
Definition send_at (h : Store) (this : loc) (headers : option Headers)
  (init : option RequestInit) : option Sent :=
  match h !! this with
  | Some (CFormRequest o) =>
      match h !! fr_formData o with
      | Some (CFormData formData) => Some (send o formData headers init)
      | _ => None
      end
  | _ => None
  end.
End Send.

(** [append(key, file)]: appends to the FormData [this] refers to and
    returns a new instance built from the same fields, without [config]. *)
Definition append (h : Store) (this : loc) (key : string)
  (file : FormDataEntryValue) : option (Store * loc) :=
  match h !! this with
  | Some (CFormRequest o) =>
      match h !! fr_formData o with
      | Some (CFormData formData) =>
          let h1 := <[fr_formData o :=
                        CFormData (FormDataOps.append formData key file)]> h in
          Some (alloc h1
                  (CFormRequest
                     {| fr_formData := fr_formData o;
                        fr_path := fr_path o;
                        fr_host := fr_host o;
                        fr_init := fr_init o;
                        fr_method := fr_method o;
                        fr_searchParams := fr_searchParams o;
                        fr_config := None |}))
      | _ => None
      end
  | _ => None
  end.
End FormRequest.

(** ** json.ts *)

Module JsonRequest.
Section Send.
Context {platform : Platform}.

Definition fetch_init (this : JsonRequestObj) (headers : option Headers)
  : RequestInit :=
  with_headers_method_body
    (jr_init this)
    (obj_spread
       (obj_spread [("Content-Type", "application/json")]
          (headers_or_empty (init_headers (jr_init this))))
       (headers_or_empty headers))
    (jr_method this)
    (match JSON_stringify (jr_formData this) with
     | Some text => Some (BodyString text)
     | None => None
     end).

(** The statements of json.ts 67-97 are the ones of form.ts 80-110, with
    [HttpError] bound to the class of ./error: the error thrown for a status
    that is not ok is of that class. *)
Definition decode (response : Response) : Result Normalized :=
  match decode_response response with
  | Throw (EHttpError code body) => Throw (EHttpError_error code body)
  | settled => settled
  end.

(** The [catch] block; its [error instanceof HttpError] tests the class of
    ./error. *)
Definition on_error (this : JsonRequestObj) (error : Thrown)
  : list ConsoleEvent * Result Normalized :=
  if debug_on (jr_config this) then
    match error with
    | EHttpError_error code response =>
        match make_url (jr_path this) (jr_host this) (jr_searchParams this) with
        | Ok url =>
            ([LogBanner; LogEndpoint url; LogMethod (jr_method this);
              LogPayloadJson (jr_formData this); LogSeparator;
              LogStatusCode code; DebugResponse response; LogSeparator],
             Throw error)
        | Throw e => ([], Throw e)
        end
    | _ => ([LogBanner; ErrorRequestFailed error; LogSeparator], Throw error)
    end
  else ([], Throw error).

Definition settle (this : JsonRequestObj) (call : option FetchCall)
  (r : Result Normalized) : Sent :=
  {| transport_call := call;
     console := match r with
                | Ok _ => []
                | Throw error => fst (on_error this error)
                end;
     outcome := match r with
                | Ok result => Ok result
                | Throw error => snd (on_error this error)
                end |}.

(** [send(headers)]. *)
Definition send (this : JsonRequestObj) (headers : option Headers) : Sent :=
  match make_url (jr_path this) (jr_host this) (jr_searchParams this) with
  | Throw e => settle this None (Throw e)
  | Ok url =>
      let call := {| call_url := url; call_init := fetch_init this headers |} in
      settle this (Some call)
        (let* response := await_fetch call in decode response)
  end.
End Send.
End JsonRequest.

(** ** to.ts *)

Module ToPath.
(** [form(data)]: a fresh FormData, encoded from [data] when it is given,
    and a new FormRequest over it. *)
Definition form (h : Store) (this : loc) (data : option Props)
  : option (Store * loc) :=
  match h !! this with
  | Some (CToPath o) =>
      let formData :=
        match data with
        | Some jsonObject => jsonToFormData jsonObject [] ""
        | None => []
        end in
      let (h1, fd) := alloc h (CFormData formData) in
      Some (alloc h1
              (CFormRequest
                 {| fr_formData := fd;
                    fr_path := tp_path o;
                    fr_host := tp_host o;
                    fr_init := tp_init o;
                    fr_method := tp_method o;
                    fr_searchParams := tp_searchParams o;
                    fr_config := tp_config o |}))
  | _ => None
  end.

(** [json(data)]. *)
Definition json (h : Store) (this : loc) (data : JsValue)
  : option (Store * loc) :=
  match h !! this with
  | Some (CToPath o) =>
      Some (alloc h
              (CJsonRequest
                 {| jr_formData := data;
                    jr_path := tp_path o;
                    jr_host := tp_host o;
                    jr_init := tp_init o;
                    jr_method := tp_method o;
                    jr_searchParams := tp_searchParams o;
                    jr_config := tp_config o |}))
  | _ => None
  end.

(** [send(headers, init)]: a new FormRequest over a new, empty FormData is
    created and sent. *)
Definition send {platform : Platform} (h : Store) (this : loc)
  (headers : option Headers) (init : option RequestInit)
  : option (Store * Sent) :=
  match h !! this with
  | Some (CToPath o) =>
      let (h1, fd) := alloc h (CFormData []) in
      let (h2, request) :=
        alloc h1
          (CFormRequest
             {| fr_formData := fd;
                fr_path := tp_path o;
                fr_host := tp_host o;
                fr_init := tp_init o;
                fr_method := tp_method o;
                fr_searchParams := tp_searchParams o;
                fr_config := tp_config o |}) in
      match FormRequest.send_at h2 request headers init with
      | Some sent => Some (h2, sent)
      | None => None
      end
  | _ => None
  end.
End ToPath.

(** ** index.ts *)

Module NextClientBody.
(** [form(data)]: [new NextBodyAppend({...this.config, data, isForm: true})]. *)
Definition form (h : Store) (this : loc) (data : loc) : option (Store * loc) :=
  match h !! this with
  | Some (CNextClientBody config) =>
      Some (alloc h
              (CNextBodyAppend
                 {| a_config := config; a_data := data; a_isForm := true |}))
  | _ => None
  end.

(** [json(data)]: [new NextBodyAppend({...this.config, data, isForm: false})]. *)
Definition json (h : Store) (this : loc) (data : loc) : option (Store * loc) :=
  match h !! this with
  | Some (CNextClientBody config) =>
      Some (alloc h
              (CNextBodyAppend
                 {| a_config := config; a_data := data; a_isForm := false |}))
  | _ => None
  end.
End NextClientBody.

Definition with_headers (c : NextClientBodyConfig) (headers : option loc)
  : NextClientBodyConfig :=
  {| c_debug := c_debug c;
     c_baseUrl := c_baseUrl c;
     c_headers := headers;
     c_prefix := c_prefix c;
     c_method := c_method c;
     c_path := c_path c;
     c_query := c_query c |}.

Module NextBodyAppend.
(** [set(key, value)]:
    [this.config.data = {...this.config.data, [key]: value}; return this]. *)
Definition set (h : Store) (this : loc) (key : string) (value : JsValue)
  : option (Store * loc) :=
  match h !! this with
  | Some (CNextBodyAppend config) =>
      match h !! a_data config with
      | Some (CObject props) =>
          let (h1, copy) := alloc h (CObject (obj_set props key value)) in
          Some (<[this := CNextBodyAppend
                            {| a_config := a_config config;
                               a_data := copy;
                               a_isForm := a_isForm config |}]> h1,
                this)
      | _ => None
      end
  | _ => None
  end.

(** [delete(key)]:
    [let currentData = this.config.data; delete currentData[key];
     this.config.data = currentData; return this]. *)
Definition delete (h : Store) (this : loc) (key : string)
  : option (Store * loc) :=
  match h !! this with
  | Some (CNextBodyAppend config) =>
      match h !! a_data config with
      | Some (CObject props) =>
          Some (<[a_data config := CObject (obj_delete props key)]> h, this)
      | _ => None
      end
  | _ => None
  end.

(** [headers(headers)]:
    [this.config.headers = {...this.config.headers, ...headers}; return this]. *)
Definition headers (h : Store) (this : loc) (headers : Headers)
  : option (Store * loc) :=
  match h !! this with
  | Some (CNextBodyAppend config) =>
      let current :=
        match c_headers (a_config config) with
        | Some l => match h !! l with
                    | Some (CHeaders hs) => hs
                    | _ => []
                    end
        | None => []
        end in
      let (h1, merged) := alloc h (CHeaders (obj_spread current headers)) in
      Some (<[this := CNextBodyAppend
                        {| a_config := with_headers (a_config config) (Some merged);
                           a_data := a_data config;
                           a_isForm := a_isForm config |}]> h1,
            this)
  | _ => None
  end.
End NextBodyAppend.

(** [ParamsSend]. *)
Record ParamsSend := {
  p_signal : option AbortSignal;
  p_credentials : option string;
  p_mode : option string;
  p_referrerPolicy : option string
}.

(** [NextClientExecuterConfig], as read by [fetcher]. *)
Record NextClientExecuterConfig := {
  e_url : URL;
  e_method : TMethads;
  e_data : JsValue;
  e_headers : option Headers;
  e_isForm : bool;
  e_formData : option FormData
}.

Module Executer.
(** [x || fallback] on an optional string. *)
Definition or_default (x : option string) (fallback : string) : string :=
  match x with
  | Some s => if truthy_string s then s else fallback
  | None => fallback
  end.

(** [body] and [finalHeaders] as [fetcher] computes them. *)
Definition body_and_headers (config : NextClientExecuterConfig)
  : option BodyInit * Headers :=
  let finalHeaders := headers_or_empty (e_headers config) in
  if negb (TMethads_eqb (e_method config) GET) then
    match e_isForm config, e_formData config with
    | true, Some formData =>
        (Some (BodyFormData formData), obj_delete finalHeaders "Content-Type")
    | _, _ =>
        if truthy (e_data config) then
          (match JSON_stringify (e_data config) with
           | Some text => Some (BodyString text)
           | None => None
           end,
           obj_set finalHeaders "Content-Type"
             (or_default (obj_get finalHeaders "Content-Type") "application/json"))
        else (None, finalHeaders)
    end
  else (None, finalHeaders).

(** The arguments [fetcher(params)] passes to [fetch]. *)
Definition fetcher_call (config : NextClientExecuterConfig)
  (params : option ParamsSend) : FetchCall :=
  let (body, finalHeaders) := body_and_headers config in
  {| call_url := e_url config;
     call_init :=
       {| init_method := Some (e_method config);
          init_headers := Some finalHeaders;
          init_body := body;
          init_cache := Some "no-store";
          init_credentials :=
            Some (or_default (params ≫= p_credentials) "same-origin");
          init_mode := Some (or_default (params ≫= p_mode) "cors");
          init_referrerPolicy :=
            Some (or_default (params ≫= p_referrerPolicy) "no-referrer");
          init_signal := params ≫= p_signal |} |}.

Definition fetcher {platform : Platform} (config : NextClientExecuterConfig)
  (params : option ParamsSend) : PlatformError + Response :=
  fetch (fetcher_call config params).
End Executer.

(** ** index.ts: from [send] to the settled promise *)

(** The own enumerable properties [for (const key in value)] visits once
    [hasOwnProperty] has filtered them: the properties of an object, the
    indices of an array or of a string, and nothing for the other values. *)
Fixpoint index_entries (items : list JsValue) (index : nat) : Props :=
  match items with
  | [] => []
  | item :: rest =>
      (num_toString (Z.of_nat index), item) :: index_entries rest (S index)
  end.

Fixpoint string_chars (s : string) : list JsValue :=
  match s with
  | EmptyString => []
  | String c s' => JStr (String c EmptyString) :: string_chars s'
  end.

Definition for_in_entries (v : JsValue) : Props :=
  match v with
  | JObj props => props
  | JArr items => index_entries items 0
  | JStr s => index_entries (string_chars s) 0
  | _ => []
  end.

(** A response as [Executer.exec] reads it: besides status, headers and
    body, its status text and whether it has a body at all (a 204 or 304
    response, or the response to a HEAD request, has none). *)
Record FetchedResponse := {
  fetched : Response;
  statusText : string;
  has_body : bool
}.

(** Reading the body of a response, [used] telling whether its stream was
    read before.  A stream is read once: a second read is rejected with a
    TypeError.  A response without a body reads as the empty text, any
    number of times. *)
Definition consume (response : FetchedResponse) (used : bool)
  : Result string * bool :=
  if has_body response then
    if used
    then (Throw (EPlatform (TypeError "body stream already read")), true)
    else (Ok (body_text (fetched response)), true)
  else (Ok "", used).

(** [await response.text()]. *)
Definition read_text (response : FetchedResponse) (used : bool)
  : Result string * bool :=
  consume response used.

(** [await response.json()]. *)
Definition read_json {platform : Platform} (response : FetchedResponse)
  (used : bool) : Result JsValue * bool :=
  let (text, used') := consume response used in
  (let* t := text in
   match JSON_parse t with
   | Some v => Ok v
   | None => Throw (EPlatform (SyntaxError "Unexpected token in JSON"))
   end,
   used').

(** [NextApiError]: its [response] member holds the same status, status
    text, url and message, and [data]. *)
Record NextApiError := {
  nae_message : string;
  nae_status : Z;
  nae_statusText : string;
  nae_url : URL;
  nae_data : JsValue
}.

(** What the promise of [exec] is rejected with. *)
Inductive ExecThrown : Type :=
| ENextApiError (e : NextApiError)
| EOther (e : Thrown).

(** What the promise of [exec] is resolved with. *)
Record ExecResult := {
  r_data : JsValue;
  r_status : Z;
  r_statusText : string;
  r_url : URL
}.

Inductive Settled : Type :=
| Resolved (r : ExecResult)
| Rejected (e : ExecThrown).

(** What [exec] writes to the console. *)
Inductive ExecConsole : Type :=
| LogFetching (method : TMethads) (url : URL)
| LogParams (params : ParamsSend).

(** One execution of [Executer.exec]. *)
Record Executed := {
  x_call : FetchCall;
  x_console : list ExecConsole;
  x_settled : Settled
}.

(** [config.debug] used as a condition. *)
Definition debug_flag (debug : option bool) : bool :=
  match debug with
  | Some b => b
  | None => false
  end.

Section Executer_exec.
Context {platform : Platform}.

(** The transport of index.ts: [fetch] with the response as [exec] reads it. *)
Variable fetch_response : FetchCall -> PlatformError + FetchedResponse.

(** The part of [exec] that follows [await this.fetcher(this.params)]. *)
Definition Executer_settle (config : NextClientExecuterConfig)
  (response : FetchedResponse) : Settled :=
  if negb (ok (fetched response)) then
    let errorResponse :=
      match read_json response false with
      | (Ok parsed, _) => parsed
      | (Throw _, used) =>
          match read_text response used with
          | (Ok text, _) => JStr text
          | (Throw _, _) => JUndefined
          end
      end in
    Rejected
      (ENextApiError
         {| nae_message :=
              "HTTP Error: " +:+ num_toString (status (fetched response))
                +:+ " " +:+ statusText response;
            nae_status := status (fetched response);
            nae_statusText := statusText response;
            nae_url := e_url config;
            nae_data := errorResponse |})
  else
    match read_json response false with
    | (Ok parsed, _) =>
        Resolved {| r_data := parsed;
                    r_status := status (fetched response);
                    r_statusText := statusText response;
                    r_url := e_url config |}
    | (Throw _, used) =>
        match read_text response used with
        | (Ok text, _) =>
            Resolved {| r_data := JStr text;
                        r_status := status (fetched response);
                        r_statusText := statusText response;
                        r_url := e_url config |}
        | (Throw e, _) => Rejected (EOther e)
        end
    end.

(** [exec()] of an Executer built from [config] and [params]; [debug] is the
    member of the config [fetcher] does not read. *)
Definition Executer_exec (debug : option bool)
  (config : NextClientExecuterConfig) (params : option ParamsSend) : Executed :=
  let call := Executer.fetcher_call config params in
  {| x_call := call;
     x_console :=
       if debug_flag debug
       then LogFetching (e_method config) (e_url config)
              :: match params with
                 | Some p => [LogParams p]
                 | None => []
                 end
       else [];
     x_settled :=
       match fetch_response call with
       | inl e => Rejected (EOther (EPlatform e))
       | inr response => Executer_settle config response
       end |}.

(** [NextBodyAppendConfig] with the payload and the headers read from the
    store. *)
Record ParserConfig := {
  pc_debug : option bool;
  pc_baseUrl : string;
  pc_headers : option Headers;
  pc_prefix : option string;
  pc_method : TMethads;
  pc_path : string;
  pc_query : option Props;
  pc_data : JsValue;
  pc_isForm : bool
}.

(** [generateUrl()]. *)
Definition Parser_generateUrl (config : ParserConfig) : Result URL :=
  let target :=
    match pc_prefix config with
    | Some prefix =>
        if truthy_string prefix then prefix +:+ "/" +:+ pc_path config
        else pc_path config
    | None => pc_path config
    end in
  if URL_valid target (pc_baseUrl config) then
    match pc_query config with
    | Some query =>
        let* searchParams := Parser.setSearchParams query "" in
        Ok {| url_path := target; url_host := pc_baseUrl config;
              url_search := searchParams |}
    | None =>
        Ok {| url_path := target; url_host := pc_baseUrl config;
              url_search := [] |}
    end
  else Throw (EPlatform (TypeError "Invalid URL")).

(** A [Parser] once constructed. *)
Record ParserObj := {
  p_config : ParserConfig;
  p_url : URL;
  p_formData : option FormData;
  p_params : option ParamsSend
}.

(** [new Parser(config, params)]. *)
Definition Parser_new (config : ParserConfig) (params : option ParamsSend)
  : Result ParserObj :=
  let* url := Parser_generateUrl config in
  Ok {| p_config := config;
        p_url := url;
        p_formData :=
          if pc_isForm config
          then Some (jsonToFormData (for_in_entries (pc_data config)) [] "")
          else None;
        p_params := params |}.

(** [parser.exec()]:
    [new Executer({...this.config, url: this.url, formData: this.formData})],
    then its [exec()]. *)
Definition Parser_exec (parser : ParserObj) : Executed :=
  Executer_exec (pc_debug (p_config parser))
    {| e_url := p_url parser;
       e_method := pc_method (p_config parser);
       e_data := pc_data (p_config parser);
       e_headers := pc_headers (p_config parser);
       e_isForm := pc_isForm (p_config parser);
       e_formData := p_formData parser |}
    None.

(** [send(params)] of [NextBodyAppend]:
    [const parser = new Parser(this.config, params); return parser.exec()].
    [Throw] is an exception of the call itself, [Ok] the promise returned. *)
Definition NextBodyAppend_send (config : ParserConfig)
  (params : option ParamsSend) : Result Executed :=
  let* parser := Parser_new config params in
  Ok (Parser_exec parser).

(** The headers object a config refers to; [None] when the reference is not
    one to a headers object. *)
Definition read_headers (h : Store) (headers : option loc)
  : option (option Headers) :=
  match headers with
  | Some l =>
      match h !! l with
      | Some (CHeaders hs) => Some (Some hs)
      | _ => None
      end
  | None => Some None
  end.

(** [send(params)] on the [NextBodyAppend] at a reference. *)
Definition NextBodyAppend_send_at (h : Store) (this : loc)
  (params : option ParamsSend) : option (Result Executed) :=
  match h !! this with
  | Some (CNextBodyAppend config) =>
      match h !! a_data config, read_headers h (c_headers (a_config config)) with
      | Some (CObject props), Some headers =>
          Some (NextBodyAppend_send
                  {| pc_debug := c_debug (a_config config);
                     pc_baseUrl := c_baseUrl (a_config config);
                     pc_headers := headers;
                     pc_prefix := c_prefix (a_config config);
                     pc_method := c_method (a_config config);
                     pc_path := c_path (a_config config);
                     pc_query := c_query (a_config config);
                     pc_data := JObj props;
                     pc_isForm := a_isForm config |}
                  params)
      | _, _ => None
      end
  | _ => None
  end.

(** [send(params)] of [NextClientBody]: a Parser over
    [{isForm: true, query: this.config.query, data: undefined, ...this.config}]. *)
Definition NextClientBody_send_at (h : Store) (this : loc)
  (params : option ParamsSend) : option (Result Executed) :=
  match h !! this with
  | Some (CNextClientBody config) =>
      match read_headers h (c_headers config) with
      | Some headers =>
          Some (NextBodyAppend_send
                  {| pc_debug := c_debug config;
                     pc_baseUrl := c_baseUrl config;
                     pc_headers := headers;
                     pc_prefix := c_prefix config;
                     pc_method := c_method config;
                     pc_path := c_path config;
                     pc_query := c_query config;
                     pc_data := JUndefined;
                     pc_isForm := true |}
                  params)
      | None => None
      end
  | _ => None
  end.
End Executer_exec.

(** [NextClientConfig] of index.ts; [headers] is a reference to the headers
    object the client was given. *)
Record IndexClientConfig := {
  ic_debug : option bool;
  ic_baseUrl : string;
  ic_headers : option loc;
  ic_prefix : option string
}.

(** [createRequest(method, path, query)] of the client of index.ts, which
    [get], [post], [put], [patch] and [delete] call with their method:
    [new NextClientBody({...this.config, method, path, query})]. *)
Definition createRequest (h : Store) (config : IndexClientConfig)
  (method : TMethads) (path : string) (query : option Props) : Store * loc :=
  alloc h
    (CNextClientBody
       {| c_debug := ic_debug config;
          c_baseUrl := ic_baseUrl config;
          c_headers := ic_headers config;
          c_prefix := ic_prefix config;
          c_method := method;
          c_path := path;
          c_query := query |}).

(** What [handleNextError] calls. *)
Inductive Handling : Type :=
| CallbackCalled (data : JsValue) (statusText : string) (url : URL)
    (message : string)
| PassCalled
| NothingCalled.

(** [handleNextError(error, callback, pass)]; [pass] is optional. *)
Definition handleNextError (error : ExecThrown) (pass : bool) : Handling :=
  match error with
  | ENextApiError e =>
      CallbackCalled (if truthy (nae_data e) then nae_data e else JObj [])
        (nae_statusText e) (nae_url e) (nae_message e)
  | EOther _ => if pass then PassCalled else NothingCalled
  end.

(** ** request.js: the client *)

(** The client of request.js: its base URL and its [init]. *)
Record ClientObj := {
  cl_baseUrl : string;
  cl_init : RequestInit
}.

(** [new NextClient(baseUrl, init)]:
    [this.init = init || { method: "GET", cache: "no-store" }]. *)
Definition NextClient_new (baseUrl : string) (init : option RequestInit)
  : ClientObj :=
  {| cl_baseUrl := baseUrl;
     cl_init :=
       match init with
       | Some i => i
       | None =>
           {| init_method := Some GET; init_headers := None; init_body := None;
              init_cache := Some "no-store"; init_credentials := None;
              init_mode := None; init_referrerPolicy := None;
              init_signal := None |}
       end |}.


(** ** form.js: the earlier encoder and [send] *)

(** [String(value)], the conversion [formData.append(name, value)] applies
    to a value that is not a File. *)
Definition js_String (v : JsValue) : string :=
  match v with
  | JUndefined => "undefined"
  | JNull => "null"
  | _ => match toString v with
         | Some s => s
         | None => ""
         end
  end.

(** [formData.append(name, value)] for any value. *)
Definition append_value (fd : FormData) (name : string) (value : JsValue)
  : FormData :=
  FormDataOps.append fd name
    (match value with
     | JFile f => FVFile f
     | _ => FVString (js_String value)
     end).

(** [jsonToFormData(jsonObject)] of form.js:
    [for (const key in jsonObject) formData.append(key, jsonObject[key])]. *)
Definition legacy_jsonToFormData (jsonObject : Props) : FormData :=
  fold_left (fun fd kv => append_value fd (fst kv) (snd kv)) jsonObject [].

Section Legacy_send.
Context {platform : Platform}.
Variable fetch_response : FetchCall -> PlatformError + FetchedResponse.

(** [send(headers, init)] of form.js, after [fetch] has resolved.  The error
    body is [await response.json().catch((_) => response.text())], both
    reads being of the one response. *)
Definition legacy_settle (response : FetchedResponse) : Result JsValue :=
  if negb (ok (fetched response)) then
    let* errorText :=
      match read_json response false with
      | (Ok parsed, _) => Ok parsed
      | (Throw _, used) =>
          let* text := fst (read_text response used) in Ok (JStr text)
      end in
    Throw (EHttpError (status (fetched response)) errorText)
  else
    let contentType :=
      match contentType_header (fetched response) with
      | Some ct => if truthy_string ct then ct else ""
      | None => ""
      end in
    if includes contentType "application/json" then
      fst (read_json response false)
    else if includes contentType "text/" || String.eqb contentType "" then
      let* text := fst (read_text response false) in Ok (JStr text)
    else
      Throw (EError ("Unsupported content type: " +:+ contentType)).

(** [send(headers, init)] of form.js; its FormRequest has the members of the
    one of form.ts but for [config], which is not read here. *)
Definition legacy_send (this : FormRequestObj) (formData : FormData)
  (headers : option Headers) (init : option RequestInit) : Result JsValue :=
  let* url := make_url (fr_path this) (fr_host this) (fr_searchParams this) in
  match fetch_response
          {| call_url := url;
             call_init := FormRequest.fetch_init this formData headers init |}
  with
  | inl e => Throw (EPlatform e)
  | inr response => legacy_settle response
  end.
End Legacy_send.

(** ** form.ts, json.ts: decoding with the body streams written out *)

(** The response [decode_response] is given, for a response whose body is
    read as a stream: a response without a body reads as the empty text. *)
Definition as_read (response : FetchedResponse) : Response :=
  {| status := status (fetched response);
     contentType_header := contentType_header (fetched response);
     body_text :=
       if has_body response then body_text (fetched response) else "" |}.

(** The statements of form.ts 80-110 (and, up to the class of the
    [HttpError], of json.ts 67-97) with each read of a body made on its
    stream: [response.clone()] gives a second stream, read
    by [clonedResponse.json()], and the stream of [response] itself is read
    by [response.text()] or [response.json()].  [original] tells whether the
    stream of [response] was read before. *)
Definition decode_response_streams {platform : Platform}
  (response : FetchedResponse) (original : bool) : Result Normalized :=
  let statusCode := status (fetched response) in
  if negb (ok (fetched response)) then
    if has_body response && original then
      Throw (EPlatform (TypeError "Response body is already used"))
    else
      let cloned := false in
      let* errorText :=
        match read_json response cloned with
        | (Ok parsed, _) => Ok parsed
        | (Throw _, _) =>
            let* text := fst (read_text response original) in Ok (JStr text)
        end in
      Throw (EHttpError (status (fetched response)) errorText)
  else
    let contentType :=
      match contentType_header (fetched response) with
      | Some ct => if truthy_string ct then ct else ""
      | None => ""
      end in
    if includes contentType "application/json" then
      (let* responseData := fst (read_json response original) in
       Ok {| statusCode := statusCode; data := responseData |})
    else if includes contentType "text/" || String.eqb contentType "" then
      (let* text := fst (read_text response original) in
       Ok {| statusCode := statusCode; data := JStr text |})
    else
      Throw (EError ("Unsupported content type: " +:+ contentType)).

(** * Definitions used to state the properties *)

(** The text an array is written as: its elements joined by commas. *)
Definition array_text (items : list JsValue) : string :=
  join "," (map (fun item =>
                   match toString item with
                   | Some s => s
                   | None => ""
                   end) items).

(** The [Object.entries(value).forEach] of [Parser.addParam], by itself. *)
Fixpoint forEach_nested (prefix key : string) (props : Props)
  (sp : URLSearchParams) : Result URLSearchParams :=
  match props with
  | [] => Ok sp
  | (nestedKey, nestedValue) :: ps' =>
      let* sp' := Parser.addParam prefix (prefix +:+ bracket key nestedKey)
                    nestedValue sp in
      forEach_nested prefix key ps' sp'
  end.

(** The final key name a leaf reached as [key] is written under. *)
Definition final_name (prefix key : string) : string :=
  if truthy_string prefix then prefix +:+ key else key.

(** The entries a value flattens to: final key name and text, in the order
    in which the encoder of index.ts reaches them. *)
Fixpoint writes_of (prefix key : string) (value : JsValue) {struct value}
  : list (string * string) :=
  match value with
  | JObj props =>
      flat_map (fun kv =>
                  writes_of prefix (prefix +:+ bracket key (fst kv)) (snd kv))
        props
  | JFile _ | JNull => []
  | _ =>
      match toString value with
      | Some s => [(final_name prefix key, s)]
      | None => []
      end
  end.

Definition writes (prefix : string) (params : Props) : list (string * string) :=
  flat_map (fun kv => writes_of prefix (fst kv) (snd kv)) params.

(** The entries a mapping flattens to under the encoder of request.js. *)
Definition flat_writes (params : Props) : list (string * string) :=
  flat_map (fun kv =>
              match toString (snd kv) with
              | Some s => [(fst kv, s)]
              | None => []
              end) params.

(** Writing a sequence of entries with [set], one after the other. *)
Definition set_all (ws : list (string * string)) (sp : URLSearchParams)
  : URLSearchParams :=
  fold_left (fun acc w => URLSearchParamsOps.set acc (fst w) (snd w)) ws sp.

(** The value of the last entry of a given name, if there is one. *)
Fixpoint last_write (ws : list (string * string)) (name : string)
  : option string :=
  match ws with
  | [] => None
  | (n, v) :: rest =>
      match last_write rest name with
      | Some v' => Some v'
      | None => if String.eqb n name then Some v else None
      end
  end.

Definition throws_TypeError {A : Type} (r : Result A) : Prop :=
  exists message : string, r = Throw (EPlatform (TypeError message)).

Definition succeeds {A : Type} (r : Result A) : Prop :=
  exists a : A, r = Ok a.

Definition is_nullish (v : JsValue) : bool :=
  match v with
  | JUndefined | JNull => true
  | _ => false
  end.

(** A null or undefined leaf, reached through nested objects. *)
Fixpoint nullish_leaf (v : JsValue) : bool :=
  match v with
  | JUndefined | JNull => true
  | JObj props => existsb (fun kv => nullish_leaf (snd kv)) props
  | _ => false
  end.

Definition sample_file : File := mkFile "sourav.pdf" "application/pdf" "sadsa".
Definition sample_file2 : File := mkFile "sourav3.pdf" "application/pdf" "sadsasdsaa".

(** A platform to run the examples on: every request is answered by the
    given response, the only JSON text recognised is [null], and every URL is
    valid. *)
Definition answering (response : Response) : Platform :=
  {| fetch := fun _ => inr response;
     JSON_parse := fun text => if String.eqb text "null" then Some JNull else None;
     URL_valid := fun _ _ => true |}.

Definition sample_init : RequestInit :=
  {| init_method := Some GET; init_headers := None; init_body := None;
     init_cache := Some "no-store"; init_credentials := None; init_mode := None;
     init_referrerPolicy := None; init_signal := None |}.

(** [client.get("/users").json({a: 1})]. *)
Definition get_json_request : JsonRequestObj :=
  {| jr_formData := JObj [("a", JNum 1)];
     jr_path := "/users";
     jr_host := "https://api.example.com";
     jr_init := sample_init;
     jr_method := GET;
     jr_searchParams := [];
     jr_config := None |}.

(** [client.post("/upload").form(...)], its FormData being object 0. *)
Definition post_form_request : FormRequestObj :=
  {| fr_formData := 0;
     fr_path := "/upload";
     fr_host := "https://api.example.com";
     fr_init := sample_init;
     fr_method := POST;
     fr_searchParams := [];
     fr_config := Some {| debug := Some true |} |}.

Definition post_json_request : JsonRequestObj :=
  {| jr_formData := JObj [("a", JNum 1)];
     jr_path := "/users";
     jr_host := "https://api.example.com";
     jr_init := sample_init;
     jr_method := POST;
     jr_searchParams := [];
     jr_config := Some {| debug := Some true |} |}.

(** Every object of [h] is found again, unchanged, in [h']. *)
Definition unchanged (h h' : Store) : Prop :=
  forall (l : loc) (c : Cell), h !! l = Some c -> h' !! l = Some c.

(** The payload a [NextBodyAppend] captures: the properties of the object
    its [config.data] refers to. *)
Definition payload_of (h : Store) (this : loc) : option Props :=
  match h !! this with
  | Some (CNextBodyAppend config) =>
      match h !! a_data config with
      | Some (CObject props) => Some props
      | _ => None
      end
  | _ => None
  end.

(** The headers a [NextBodyAppend] captures. *)
Definition headers_of (h : Store) (this : loc) : option Headers :=
  match h !! this with
  | Some (CNextBodyAppend config) =>
      match c_headers (a_config config) with
      | Some l => match h !! l with
                  | Some (CHeaders hs) => Some hs
                  | _ => None
                  end
      | None => Some []
      end
  | _ => None
  end.

(** The form fields a [FormRequest] captures: the entries of the FormData
    its [formData] refers to. *)
Definition fields_of (h : Store) (this : loc) : option FormData :=
  match h !! this with
  | Some (CFormRequest o) =>
      match h !! fr_formData o with
      | Some (CFormData formData) => Some formData
      | _ => None
      end
  | _ => None
  end.

(** A chain step that returns a request value other than its receiver. *)
Definition returns_new (step : Store -> loc -> option (Store * loc)) : Prop :=
  forall (h : Store) (this : loc) (h' : Store) (r : loc),
    step h this = Some (h', r) -> r <> this.

(** A chain step that leaves what its receiver captures, seen through
    [view], as it was. *)
Definition keeps_receiver {V : Type} (view : Store -> loc -> option V)
  (step : Store -> loc -> option (Store * loc)) : Prop :=
  forall (h : Store) (this : loc) (h' : Store) (r : loc),
    step h this = Some (h', r) -> view h' this = view h this.

(** A chain step that creates its result and changes no existing object. *)
Definition creates (step : Store -> loc -> option (Store * loc)) : Prop :=
  forall (h : Store) (this : loc) (h' : Store) (r : loc),
    step h this = Some (h', r) ->
    unchanged h h' /\ h !! r = None /\ is_Some (h' !! r).

Definition sample_config : NextClientBodyConfig :=
  {| c_debug := Some true; c_baseUrl := "https://api.example.com";
     c_headers := Some 1; c_prefix := None; c_method := POST;
     c_path := "/upload"; c_query := None |}.

(** The store after [client.post("/upload").json({a: 1})]: the payload is
    object 0, the client's headers object 1 and the builder object 2. *)
Definition builder_store : Store :=
  [CObject [("a", JNum 1)];
   CHeaders [("Content-Type", "application/json")];
   CNextBodyAppend {| a_config := sample_config; a_data := 0; a_isForm := false |}].

(** The store after [client.post("/upload").form({})]: an empty FormData,
    object 0, and the FormRequest over it, object 1. *)
Definition form_store : Store :=
  [CFormData []; CFormRequest post_form_request].

Definition not_found_text : Response :=
  {| status := 404; contentType_header := Some "text/html";
     body_text := "Not Found" |}.

Definition server_error_null : Response :=
  {| status := 500; contentType_header := Some "application/json";
     body_text := "null" |}.

Definition ok_xml : Response :=
  {| status := 200; contentType_header := Some "application/xml";
     body_text := "<x/>" |}.

(** [name] is [q] followed by something. *)
Definition extends (q name : string) : Prop :=
  exists suffix : string, name = q +:+ suffix.

(** The field an array element gives, at its index. *)
Definition item_field (formKey : string) (index : nat) (item : JsValue)
  : string * FormDataEntryValue :=
  match item with
  | JFile f => (formKey, FVFile f)
  | _ => (bracket formKey (num_toString (Z.of_nat index)),
          FVString (toString_or_empty item))
  end.

(** A value made of objects only, such as [{}] or [{a: {b: {}}}]. *)
Fixpoint hollow (v : JsValue) : bool :=
  match v with
  | JObj props => forallb (fun kv => hollow (snd kv)) props
  | _ => false
  end.

(** A value made of booleans, numbers, strings and objects of such. *)
Fixpoint scalar_tree (v : JsValue) : bool :=
  match v with
  | JBool _ | JNum _ | JStr _ => true
  | JObj props => forallb (fun kv => scalar_tree (snd kv)) props
  | _ => false
  end.

(** A query pair as a form field. *)
Definition as_field (w : string * string) : string * FormDataEntryValue :=
  (fst w, FVString (snd w)).

(** A value the two query encoders write alike: anything but an object, a
    File or null. *)
Definition flat_value (v : JsValue) : bool :=
  match v with
  | JNull | JFile _ | JObj _ => false
  | _ => true
  end.

(** A value the two form encoders write alike at top level. *)
Definition plain_value (v : JsValue) : bool :=
  match v with
  | JBool _ | JNum _ | JStr _ | JFile _ => true
  | _ => false
  end.

(** The text [value.toString()] gives, for a value that has one. *)
Definition value_text (v : JsValue) : string :=
  match toString v with
  | Some s => s
  | None => ""
  end.

(** [send] of form.ts reached the transport, which completed with
    [response]. *)
Definition form_completed {platform : Platform} (this : FormRequestObj)
  (formData : FormData) (headers : option Headers) (init : option RequestInit)
  (response : Response) : Prop :=
  URL_valid (fr_path this) (fr_host this) = true
  /\ fetch {| call_url := {| url_path := fr_path this;
                            url_host := fr_host this;
                            url_search := fr_searchParams this |};
             call_init := FormRequest.fetch_init this formData headers init |}
     = inr response.

(** [send] of json.ts reached the transport, which completed with
    [response]. *)
Definition json_completed {platform : Platform} (this : JsonRequestObj)
  (headers : option Headers) (response : Response) : Prop :=
  URL_valid (jr_path this) (jr_host this) = true
  /\ fetch {| call_url := {| url_path := jr_path this;
                            url_host := jr_host this;
                            url_search := jr_searchParams this |};
             call_init := JsonRequest.fetch_init this headers |}
     = inr response.

(** A FormRequest with another config. *)
Definition with_config (this : FormRequestObj) (config : option NextClientConfig)
  : FormRequestObj :=
  {| fr_formData := fr_formData this;
     fr_path := fr_path this;
     fr_host := fr_host this;
     fr_init := fr_init this;
     fr_method := fr_method this;
     fr_searchParams := fr_searchParams this;
     fr_config := config |}.

(** A JsonRequest with another config. *)
Definition with_json_config (this : JsonRequestObj)
  (config : option NextClientConfig) : JsonRequestObj :=
  {| jr_formData := jr_formData this;
     jr_path := jr_path this;
     jr_host := jr_host this;
     jr_init := jr_init this;
     jr_method := jr_method this;
     jr_searchParams := jr_searchParams this;
     jr_config := config |}.

Definition ok_json_broken : Response :=
  {| status := 200; contentType_header := Some "application/json";
     body_text := "{oops" |}.

Definition ok_no_header : Response :=
  {| status := 201; contentType_header := None; body_text := "created" |}.

(** A transport for the examples of index.ts: every request is answered by
    the given response. *)
Definition replying (response : FetchedResponse)
  : FetchCall -> PlatformError + FetchedResponse :=
  fun _ => inr response.

Definition sample_url : URL :=
  {| url_path := "/products/1"; url_host := "https://fakestoreapi.com";
     url_search := [] |}.

Definition post_json_config : NextClientExecuterConfig :=
  {| e_url := sample_url; e_method := POST;
     e_data := JObj [("title", JStr "New Product")];
     e_headers := Some [("Authorization", "Bearer t")];
     e_isForm := false; e_formData := None |}.

Definition post_form_config : NextClientExecuterConfig :=
  {| e_url := sample_url; e_method := POST;
     e_data := JObj [("title", JStr "New Product")];
     e_headers := Some [("Content-Type", "application/json")];
     e_isForm := true;
     e_formData := Some [("title", FVString "New Product")] |}.

Definition html_error : FetchedResponse :=
  {| fetched := {| status := 502; contentType_header := Some "text/html";
                   body_text := "<h1>Bad Gateway</h1>" |};
     statusText := "Bad Gateway"; has_body := true |}.

Definition text_ok : FetchedResponse :=
  {| fetched := {| status := 200; contentType_header := Some "text/plain";
                   body_text := "pong" |};
     statusText := "OK"; has_body := true |}.

Definition sample_parser_config : ParserConfig :=
  {| pc_debug := Some true; pc_baseUrl := "https://fakestoreapi.com";
     pc_headers := Some [("Content-Type", "application/json")];
     pc_prefix := None; pc_method := POST; pc_path := "/products";
     pc_query := None; pc_data := JObj [("title", JStr "New Product")];
     pc_isForm := false |}.

Definition sample_params : ParamsSend :=
  {| p_signal := Some {| aborted := false |};
     p_credentials := Some "include";
     p_mode := Some "no-cors";
     p_referrerPolicy := Some "origin" |}.

Definition sample_parser : ParserObj :=
  {| p_config := sample_parser_config;
     p_url := {| url_path := "/products";
                 url_host := "https://fakestoreapi.com"; url_search := [] |};
     p_formData := None;
     p_params := Some sample_params |}.

Definition index_client : IndexClientConfig :=
  {| ic_debug := Some true; ic_baseUrl := "https://fakestoreapi.com";
     ic_headers := Some 0; ic_prefix := None |}.

(** The store of a client of index.ts built with a [Content-Type] header. *)
Definition client_store : Store :=
  [CHeaders [("Content-Type", "application/json")]].

(** The Parser of [client.delete("/products/1").send()]. *)
Definition delete_parser : ParserObj :=
  {| p_config :=
       {| pc_debug := Some true; pc_baseUrl := "https://fakestoreapi.com";
          pc_headers := Some [("Content-Type", "application/json")];
          pc_prefix := None; pc_method := DELETE; pc_path := "/products/1";
          pc_query := None; pc_data := JUndefined; pc_isForm := true |};
     p_url := sample_url;
     p_formData := Some [];
     p_params := None |}.

(** The store after [client.post("/upload")] of index.ts, for a payload
    object the caller holds: the payload is object 0, the client's headers
    object 1 and the NextClientBody object 2. *)
Definition body_store : Store :=
  [CObject [("a", JNum 1)];
   CHeaders [("Content-Type", "application/json")];
   CNextClientBody sample_config].

(** The Parser of [client.post("/upload").json({a: 1}).set("k", "v").send()]. *)
Definition chain_parser : ParserObj :=
  {| p_config :=
       {| pc_debug := Some true; pc_baseUrl := "https://api.example.com";
          pc_headers := Some [("Content-Type", "application/json")];
          pc_prefix := None; pc_method := POST; pc_path := "/upload";
          pc_query := None;
          pc_data := JObj [("a", JNum 1); ("k", JStr "v")];
          pc_isForm := false |};
     p_url := {| url_path := "/upload"; url_host := "https://api.example.com";
                 url_search := [] |};
     p_formData := None;
     p_params := None |}.

(** The field the encoder of form.js gives for an entry. *)
Definition legacy_field (kv : string * JsValue) : string * FormDataEntryValue :=
  (fst kv,
   match snd kv with
   | JFile f => FVFile f
   | v => FVString (js_String v)
   end).

Definition query_of (query : option Props) : Props :=
  match query with
  | Some q => q
  | None => []
  end.

Definition sample_client : ClientObj :=
  NextClient_new "https://api.example.com" None.

(** [client.post("/upload")] of request.js: the ToPath is object 0. *)
Definition upload_store : Store :=
  [CToPath
     {| tp_path := "/upload"; tp_host := "https://api.example.com";
        tp_init := cl_init sample_client; tp_method := POST;
        tp_searchParams := []; tp_config := Some {| debug := Some true |} |}].

Definition null_query_config : ParserConfig :=
  {| pc_debug := None; pc_baseUrl := "https://fakestoreapi.com";
     pc_headers := None; pc_prefix := None; pc_method := GET;
     pc_path := "/products";
     pc_query := Some [("limit", JNum 5); ("sort", JNull)];
     pc_data := JUndefined; pc_isForm := true |}.

(** The body of a call, when one was made. *)
Definition body_sent (sent : Sent) : option (option BodyInit) :=
  option_map (fun call => init_body (call_init call)) (transport_call sent).

(** A null or undefined anywhere in a value: reached through objects and
    through arrays. *)
Fixpoint contains_nullish (v : JsValue) : bool :=
  match v with
  | JUndefined | JNull => true
  | JArr items => existsb contains_nullish items
  | JObj props => existsb (fun kv => contains_nullish (snd kv)) props
  | _ => false
  end.

(** The Parser of [client.post("/upload").json({a: 1}).set("0", "v").send()]. *)
Definition index_chain_parser : ParserObj :=
  {| p_config :=
       {| pc_debug := Some true; pc_baseUrl := "https://api.example.com";
          pc_headers := Some [("Content-Type", "application/json")];
          pc_prefix := None; pc_method := POST; pc_path := "/upload";
          pc_query := None;
          pc_data := JObj [("0", JStr "v"); ("a", JNum 1)];
          pc_isForm := false |};
     p_url := {| url_path := "/upload"; url_host := "https://api.example.com";
                 url_search := [] |};
     p_formData := None;
     p_params := None |}.

(** [e instanceof HttpError] for the class of ./error, the one json.ts
    throws: the test [isNextClientError] makes for the class of ./errror. *)
Definition instanceof_HttpError_error (e : Thrown) : bool :=
  match e with
  | EHttpError_error _ _ => true
  | _ => false
  end.

(** * Properties *)

(** ** The form encoder *)

Lemma truthy_string_true (s : string) : s <> "" -> truthy_string s = true.
Proof. destruct s; [congruence | reflexivity]. Qed.

Lemma formKeyFile_of_prefix (p k : string) : p <> "" -> formKeyFile_of p k = p.
Proof. intros Hp. unfold formKeyFile_of. now rewrite truthy_string_true. Qed.

Lemma formKey_of_prefix (p k : string) : p <> "" -> formKey_of p k = bracket p k.
Proof. intros Hp. unfold formKey_of. now rewrite truthy_string_true. Qed.

(** The recursive call on a nested object is [jsonToFormData] itself. *)
Lemma jsonToFormData_entry_object (p k : string) (props : Props) (fd : FormData) :
  jsonToFormData_entry p k (JObj props) fd
  = jsonToFormData props fd (formKey_of p k).
Proof.
  simpl. revert fd.
  induction props as [|[k' v'] props IH]; intros fd; [reflexivity|].
  simpl. apply IH.
Qed.

Lemma appendItems_acc (formKey : string) (items : list JsValue) :
  forall (index : nat) (fd : FormData),
    appendItems formKey items index fd = fd ++ appendItems formKey items index [].
Proof.
  induction items as [|item rest IH]; intros index fd; simpl.
  - now rewrite app_nil_r.
  - destruct item;
      rewrite (IH (S index) (FormDataOps.append fd _ _)),
              (IH (S index) (FormDataOps.append [] _ _));
      unfold FormDataOps.append; simpl; now rewrite <- List.app_assoc.
Qed.

Lemma jsonToFormData_entry_acc (v : JsValue) :
  forall (p k : string) (fd : FormData),
    jsonToFormData_entry p k v fd = fd ++ jsonToFormData_entry p k v [].
Proof.
  induction v as [| | b | z | s | f | items _ | props IH]
    using JsValue_nested_ind; intros p k fd;
    try reflexivity.
  - destruct items as [|item rest]; [reflexivity|].
    change (jsonToFormData_entry p k (JArr (item :: rest)) fd)
      with (appendItems (formKey_of p k) (item :: rest) 0 fd).
    change (jsonToFormData_entry p k (JArr (item :: rest)) [])
      with (appendItems (formKey_of p k) (item :: rest) 0 []).
    apply appendItems_acc.
  - rewrite !jsonToFormData_entry_object.
    generalize (formKey_of p k). intros q. revert fd.
    induction IH as [|[k' v'] props Hv _ IHprops]; intros fd; simpl.
    + now rewrite app_nil_r.
    + simpl in Hv.
      rewrite (IHprops (jsonToFormData_entry q k' v' fd)),
              (IHprops (jsonToFormData_entry q k' v' [])).
      rewrite (Hv q k' fd). now rewrite <- List.app_assoc.
Qed.

Lemma jsonToFormData_acc (obj : Props) :
  forall (fd : FormData) (p : string),
    jsonToFormData obj fd p = fd ++ jsonToFormData obj [] p.
Proof.
  induction obj as [|[k v] obj IH]; intros fd p; simpl.
  - now rewrite app_nil_r.
  - rewrite (IH (jsonToFormData_entry p k v fd)),
            (IH (jsonToFormData_entry p k v [])).
    rewrite (jsonToFormData_entry_acc v p k fd). now rewrite <- List.app_assoc.
Qed.

Lemma jsonToFormData_app (a b : Props) (fd : FormData) (p : string) :
  jsonToFormData (a ++ b) fd p = jsonToFormData b (jsonToFormData a fd p) p.
Proof.
  revert fd. induction a as [|[k v] a IH]; intros fd; simpl; [reflexivity|].
  apply IH.
Qed.

Lemma length_append (s t : string) :
  String.length (s +:+ t) = String.length s + String.length t.
Proof. induction s as [|c s IH]; simpl; [reflexivity | now rewrite IH]. Qed.

Lemma bracket_longer (p k : string) : p <> bracket p k.
Proof.
  intros H. apply (f_equal String.length) in H.
  unfold bracket in H. rewrite !length_append in H. simpl in H. lia.
Qed.

(** C3.  A file under key [k] of a mapping encoded with a non-empty prefix
    [p] is appended under [p] itself, which is not the bracketed [p[k]]; this
    is so in particular for the mapping nested under a key [q] of a parent,
    whose prefix is the qualified name of [q].  With the empty prefix (top
    level) the file is appended under [k]. *)
Theorem file_appended_under_parent_prefix :
  forall (pre post : Props) (k : string) (f : File) (fd : FormData),
    (forall p : string,
        p <> "" ->
        jsonToFormData (pre ++ (k, JFile f) :: post) fd p
        = jsonToFormData post (jsonToFormData pre fd p ++ [(p, FVFile f)]) p
        /\ p <> bracket p k)
    /\ (forall parent q : string,
          formKey_of parent q <> "" ->
          jsonToFormData_entry parent q (JObj (pre ++ (k, JFile f) :: post)) fd
          = jsonToFormData post
              (jsonToFormData pre fd (formKey_of parent q)
                 ++ [(formKey_of parent q, FVFile f)])
              (formKey_of parent q))
    /\ jsonToFormData (pre ++ (k, JFile f) :: post) fd ""
       = jsonToFormData post (jsonToFormData pre fd "" ++ [(k, FVFile f)]) "".
Proof.
  intros pre post k f fd.
  assert (Hp : forall p : string,
             p <> "" ->
             jsonToFormData (pre ++ (k, JFile f) :: post) fd p
             = jsonToFormData post
                 (jsonToFormData pre fd p ++ [(p, FVFile f)]) p).
  { intros p Hne. rewrite jsonToFormData_app. simpl.
    unfold FormDataOps.append. now rewrite formKeyFile_of_prefix. }
  split; [|split].
  - intros p Hne. split; [now apply Hp | apply bracket_longer].
  - intros parent q Hne. rewrite jsonToFormData_entry_object.
    rewrite jsonToFormData_app. simpl. unfold FormDataOps.append.
    now rewrite formKeyFile_of_prefix.
  - rewrite jsonToFormData_app. reflexivity.
Qed.

Lemma file_appended_under_parent_prefix_witness :
  jsonToFormData ([("name", JStr "x")] ++ [("doc", JFile sample_file)]) [] "user"
  = [("user[name]", FVString "x"); ("user", FVFile sample_file)]
  /\ jsonToFormData_entry "" "user"
       (JObj ([("name", JStr "x")] ++ [("doc", JFile sample_file)])) []
     = [("user[name]", FVString "x"); ("user", FVFile sample_file)].
Proof.
  destruct (file_appended_under_parent_prefix
              [("name", JStr "x")] [] "doc" sample_file [])
    as (Hprefix & Hnested & _).
  split.
  - destruct (Hprefix "user") as [Heq _]; [discriminate|].
    rewrite Heq. reflexivity.
  - rewrite (Hnested "" "user"); [reflexivity | discriminate].
Defined.

Lemma getAll_app (fd1 fd2 : FormData) (name : string) :
  FormDataOps.getAll (fd1 ++ fd2) name
  = FormDataOps.getAll fd1 name ++ FormDataOps.getAll fd2 name.
Proof.
  unfold FormDataOps.getAll. now rewrite List.filter_app, List.map_app.
Qed.

Lemma getAll_single (name : string) (v : FormDataEntryValue) :
  FormDataOps.getAll [(name, v)] name = [v].
Proof.
  unfold FormDataOps.getAll. simpl. now rewrite String.eqb_refl.
Qed.

(** C7, as stated, fails when another key of the payload encodes to the
    same field name: the payload with [b] mapped to the array of the string
    [x], and [b[0]] mapped to the empty array, encodes to two fields named
    [b[0]], the first holding [x] and the second the empty string. *)
Lemma empty_array_name_collision :
  ~ (forall (payload : Props) (a : string),
        In (a, JArr []) payload ->
        FormDataOps.getAll (jsonToFormData payload [] "") a = [FVString ""]).
Proof.
  intros H.
  specialize (H [("b", JArr [JStr "x"]); ("b[0]", JArr [])] "b[0]"
                (or_intror (or_introl eq_refl))).
  discriminate H.
Qed.

(** C7, amended.  The payload [{a: []}] encodes to exactly one field [a]
    whose value is the empty string.  In any payload, a top-level key [a]
    mapped to an empty array contributes that one field at its place (it is
    never left out), and it is the only field named [a] when the other keys
    of the payload give none of that name. *)
Theorem empty_array_one_empty_field :
  forall a : string,
    jsonToFormData [(a, JArr [])] [] "" = [(a, FVString "")]
    /\ (forall pre post : Props,
          jsonToFormData (pre ++ (a, JArr []) :: post) [] ""
          = jsonToFormData pre [] "" ++ [(a, FVString "")]
              ++ jsonToFormData post [] "")
    /\ (forall pre post : Props,
          FormDataOps.getAll (jsonToFormData pre [] "") a = [] ->
          FormDataOps.getAll (jsonToFormData post [] "") a = [] ->
          FormDataOps.getAll
            (jsonToFormData (pre ++ (a, JArr []) :: post) [] "") a
          = [FVString ""]).
Proof.
  intros a.
  assert (Hshape : forall pre post : Props,
             jsonToFormData (pre ++ (a, JArr []) :: post) [] ""
             = jsonToFormData pre [] "" ++ [(a, FVString "")]
                 ++ jsonToFormData post [] "").
  { intros pre post. rewrite jsonToFormData_app. simpl.
    rewrite jsonToFormData_acc. unfold FormDataOps.append, formKey_of. simpl.
    now rewrite <- List.app_assoc. }
  split; [reflexivity | split; [exact Hshape|]].
  intros pre post Hpre Hpost.
  rewrite Hshape, !getAll_app, Hpre, Hpost, getAll_single. reflexivity.
Qed.

Lemma empty_array_one_empty_field_witness :
  FormDataOps.getAll
    (jsonToFormData
       ([("name", JStr "n")] ++ ("a", JArr []) :: [("tags", JArr [JStr "t"])])
       [] "") "a"
  = [FVString ""].
Proof.
  destruct (empty_array_one_empty_field "a") as (_ & _ & Honly).
  apply (Honly [("name", JStr "n")] [("tags", JArr [JStr "t"])]);
    reflexivity.
Defined.

(** The payload of the repository's own upload example: the file under
    [image] and the two files under [file] keep their key, without index. *)
Example upload_example :
  jsonToFormData
    [("test", JStr "[]"); ("name", JStr "sourav0");
     ("image", JFile sample_file);
     ("file", JArr [JFile sample_file; JFile sample_file2])] [] ""
  = [("test", FVString "[]"); ("name", FVString "sourav0");
     ("image", FVFile sample_file);
     ("file", FVFile sample_file); ("file", FVFile sample_file2)].
Proof. reflexivity. Qed.

Example nested_example :
  jsonToFormData
    [("status", JBool true); ("age", JNum 5);
     ("map", JObj [("sourav", JStr "sourav")]);
     ("tags", JArr [JStr "a"; JNull; JNum 7])] [] ""
  = [("status", FVString "true"); ("age", FVString "5");
     ("map[sourav]", FVString "sourav");
     ("tags[0]", FVString "a"); ("tags[1]", FVString "");
     ("tags[2]", FVString "7")].
Proof. reflexivity. Qed.

(** ** The query encoders *)

Lemma toString_array (items : list JsValue) :
  toString (JArr items) = Some (array_text items).
Proof. reflexivity. Qed.

Lemma addParam_object (prefix key : string) (props : Props) (sp : URLSearchParams) :
  Parser.addParam prefix key (JObj props) sp = forEach_nested prefix key props sp.
Proof.
  simpl. revert sp.
  induction props as [|[nk nv] props IH]; intros sp; simpl; [reflexivity|].
  destruct (Parser.addParam prefix (prefix +:+ bracket key nk) nv sp);
    simpl; [apply IH | reflexivity].
Qed.

(** C1, as stated, fails: for [{k: [1, 2]}] the encoder of index.ts returns
    the single pair [k=1,2], so the pair [k[0]=1] is not in its result. *)
Lemma array_query_no_index_keys :
  ~ (forall (params : Props) (k : string) (items : list JsValue)
            (sp : URLSearchParams),
        In (k, JArr items) params ->
        Parser.setSearchParams params "" = Ok sp ->
        forall (i : nat) (v : JsValue) (s : string),
          nth_error items i = Some v ->
          toString v = Some s ->
          In (bracket k (num_toString (Z.of_nat i)), s) sp).
Proof.
  intros H.
  specialize (H [("k", JArr [JNum 1; JNum 2])] "k" [JNum 1; JNum 2]
                [("k", "1,2")] (or_introl eq_refl) eq_refl
                0%nat (JNum 1) "1" eq_refl eq_refl).
  simpl in H. destruct H as [H | []]. discriminate H.
Qed.

(** C1, amended.  The guard [!Array.isArray(value)] keeps an array out of the
    nested-object branch: [addParam] writes it as one pair, under its key and
    with the array's [toString()] (the elements joined by commas) as value.
    So [{k: [v0, v1, ...]}] encodes to the single pair [k = v0,v1,...], whose
    name is not a bracketed [k[i]]; the encoder of request.js gives the same
    pair. *)
Theorem array_query_value_joined :
  forall (k : string) (items : list JsValue),
    (forall (prefix : string) (sp : URLSearchParams),
        Parser.addParam prefix k (JArr items) sp
        = Ok (URLSearchParamsOps.set sp (final_name prefix k) (array_text items)))
    /\ Parser.setSearchParams [(k, JArr items)] "" = Ok [(k, array_text items)]
    /\ NextClient.setSearchParams [(k, JArr items)] = Ok [(k, array_text items)]
    /\ (forall i : string, k <> bracket k i).
Proof.
  intros k items. repeat split.
  apply bracket_longer.
Qed.

(** *** [set] keeps one pair per name, holding the last value written *)

Lemma get_filter_other (sp : URLSearchParams) (n name : string) :
  n <> name ->
  URLSearchParamsOps.get
    (List.filter (fun e => negb (String.eqb (fst e) n)) sp) name
  = URLSearchParamsOps.get sp name.
Proof.
  intros Hne. induction sp as [|[n2 v2] rest IH]; simpl; [reflexivity|].
  destruct (String.eqb_spec n2 n) as [->|Hn2]; simpl.
  - apply String.eqb_neq in Hne. now rewrite Hne.
  - now rewrite IH.
Qed.

Lemma get_set (sp : URLSearchParams) (n v name : string) :
  URLSearchParamsOps.get (URLSearchParamsOps.set sp n v) name
  = if String.eqb n name then Some v else URLSearchParamsOps.get sp name.
Proof.
  induction sp as [|[n' v'] rest IH]; simpl.
  - reflexivity.
  - destruct (String.eqb_spec n' n) as [->|Hne]; simpl.
    + destruct (String.eqb_spec n name) as [->|Hne']; [reflexivity|].
      now apply get_filter_other.
    + rewrite IH. destruct (String.eqb_spec n' name) as [->|Hn']; [|reflexivity].
      apply String.eqb_neq in Hne. rewrite String.eqb_sym in Hne.
      now rewrite Hne.
Qed.

Lemma names_set (sp : URLSearchParams) (n v x : string) :
  In x (map fst (URLSearchParamsOps.set sp n v)) ->
  x = n \/ In x (map fst sp).
Proof.
  induction sp as [|[n' v'] rest IH]; simpl.
  - intros [H | []]. now left.
  - destruct (String.eqb_spec n' n) as [->|Hne]; simpl.
    + intros [H | H]; [now left | right; right].
      apply List.in_map_iff in H. destruct H as (e & <- & He).
      apply List.filter_In in He. apply List.in_map. tauto.
    + intros [H | H]; [now right; left|].
      destruct (IH H); [now left | now right; right].
Qed.

Lemma NoDup_names_set (sp : URLSearchParams) (n v : string) :
  List.NoDup (map fst sp) -> List.NoDup (map fst (URLSearchParamsOps.set sp n v)).
Proof.
  induction sp as [|[n' v'] rest IH]; simpl; intros Hnd.
  - constructor; [intros [] | constructor].
  - apply List.NoDup_cons_iff in Hnd. destruct Hnd as [Hnotin Hnd].
    destruct (String.eqb_spec n' n) as [->|Hne]; simpl.
    + apply List.NoDup_cons.
      * intros H. apply List.in_map_iff in H. destruct H as (e & Hfst & He).
        apply List.filter_In in He. destruct He as [_ He].
        rewrite Hfst, String.eqb_refl in He. discriminate.
      * clear IH Hnotin. induction rest as [|[n2 v2] rest IHrest]; simpl.
        -- constructor.
        -- simpl in Hnd. apply List.NoDup_cons_iff in Hnd.
           destruct Hnd as [Hn2 Hnd].
           destruct (String.eqb n2 n); simpl; [now apply IHrest|].
           apply List.NoDup_cons; [|now apply IHrest].
           intros H. apply Hn2. apply List.in_map_iff in H.
           destruct H as (e & <- & He). apply List.filter_In in He.
           apply List.in_map. tauto.
    + apply List.NoDup_cons; [|now apply IH].
      intros H. apply names_set in H. destruct H as [-> | H]; tauto.
Qed.

Lemma set_all_app (ws1 ws2 : list (string * string)) (sp : URLSearchParams) :
  set_all (ws1 ++ ws2) sp = set_all ws2 (set_all ws1 sp).
Proof. unfold set_all. apply List.fold_left_app. Qed.

Lemma NoDup_names_set_all (ws : list (string * string)) :
  forall sp : URLSearchParams,
    List.NoDup (map fst sp) -> List.NoDup (map fst (set_all ws sp)).
Proof.
  induction ws as [|[n v] ws IH]; intros sp Hnd; simpl; [exact Hnd|].
  apply IH. now apply NoDup_names_set.
Qed.

Lemma get_set_all (ws : list (string * string)) (name : string) :
  forall sp : URLSearchParams,
    URLSearchParamsOps.get (set_all ws sp) name
    = match last_write ws name with
      | Some v => Some v
      | None => URLSearchParamsOps.get sp name
      end.
Proof.
  induction ws as [|[n v] ws IH]; intros sp; simpl; [reflexivity|].
  rewrite IH. destruct (last_write ws name); [reflexivity|].
  simpl. rewrite get_set. now destruct (String.eqb n name).
Qed.

(** A successful run of [addParam] writes the entries the value flattens
    to, in order, with [set]. *)
Lemma addParam_writes (value : JsValue) :
  forall (prefix key : string) (sp sp' : URLSearchParams),
    Parser.addParam prefix key value sp = Ok sp' ->
    sp' = set_all (writes_of prefix key value) sp.
Proof.
  induction value as [| | b | z | s | f | items _ | props IH]
    using JsValue_nested_ind; intros prefix key sp sp' Hrun;
    try (simpl in Hrun; injection Hrun as <-; reflexivity);
    try discriminate Hrun.
  rewrite addParam_object in Hrun. simpl.
  revert sp Hrun.
  induction IH as [|[nk nv] props Hv _ IHprops]; intros sp Hrun; simpl in *.
  - now injection Hrun as <-.
  - destruct (Parser.addParam prefix (prefix +:+ bracket key nk) nv sp)
      as [sp1|e] eqn:Hstep; simpl in Hrun; [|discriminate].
    rewrite set_all_app. rewrite <- (Hv _ _ _ _ Hstep). now apply IHprops.
Qed.

Lemma addParams_writes (params : Props) :
  forall (prefix : string) (sp sp' : URLSearchParams),
    Parser.addParams prefix params sp = Ok sp' ->
    sp' = set_all (writes prefix params) sp.
Proof.
  induction params as [|[k v] params IH]; intros prefix sp sp' Hrun;
    simpl in *.
  - now injection Hrun as <-.
  - destruct (Parser.addParam prefix k v sp) as [sp1|e] eqn:Hstep;
      simpl in Hrun; [|discriminate].
    unfold writes. simpl. rewrite set_all_app.
    rewrite <- (addParam_writes _ _ _ _ _ Hstep). now apply IH.
Qed.

Lemma setEach_writes (params : Props) :
  forall sp sp' : URLSearchParams,
    NextClient.setEach params sp = Ok sp' ->
    sp' = set_all (flat_writes params) sp.
Proof.
  induction params as [|[k v] params IH]; intros sp sp' Hrun; simpl in *.
  - now injection Hrun as <-.
  - unfold flat_writes. simpl.
    destruct (toString v) as [s|]; [|discriminate].
    rewrite set_all_app. now apply IH.
Qed.

Lemma appendItems_files (formKey : string) (files : list File) :
  forall (index : nat) (fd : FormData),
    appendItems formKey (map JFile files) index fd
    = fd ++ map (fun f => (formKey, FVFile f)) files.
Proof.
  induction files as [|f files IH]; intros index fd; simpl.
  - now rewrite app_nil_r.
  - rewrite IH. unfold FormDataOps.append. now rewrite <- List.app_assoc.
Qed.

(** *** Null and undefined leaves *)

Lemma addParam_nullish (value : JsValue) :
  forall (prefix key : string) (sp : URLSearchParams),
    if nullish_leaf value
    then throws_TypeError (Parser.addParam prefix key value sp)
    else succeeds (Parser.addParam prefix key value sp).
Proof.
  induction value as [| | b | z | s | f | items _ | props IH]
    using JsValue_nested_ind; intros prefix key sp;
    try (simpl; eexists; reflexivity).
  rewrite addParam_object. simpl. revert sp.
  induction IH as [|[nk nv] props Hv _ IHprops]; intros sp; simpl in *.
  - eexists; reflexivity.
  - specialize (Hv prefix (prefix +:+ bracket key nk) sp).
    destruct (nullish_leaf nv); simpl.
    + destruct Hv as [message ->]. eexists; reflexivity.
    + destruct Hv as [sp1 ->]. simpl. apply IHprops.
Qed.

Lemma addParams_nullish (params : Props) :
  forall (prefix : string) (sp : URLSearchParams),
    if existsb (fun kv => nullish_leaf (snd kv)) params
    then throws_TypeError (Parser.addParams prefix params sp)
    else succeeds (Parser.addParams prefix params sp).
Proof.
  induction params as [|[k v] params IH]; intros prefix sp; simpl.
  - eexists; reflexivity.
  - pose proof (addParam_nullish v prefix k sp) as Hv.
    destruct (nullish_leaf v); simpl.
    + destruct Hv as [message ->]. eexists; reflexivity.
    + destruct Hv as [sp1 ->]. simpl. apply IH.
Qed.

Lemma toString_nullish (v : JsValue) :
  if is_nullish v then toString v = None else exists s, toString v = Some s.
Proof. destruct v; simpl; eauto. Qed.

Lemma setEach_nullish (params : Props) :
  forall sp : URLSearchParams,
    if existsb (fun kv => is_nullish (snd kv)) params
    then throws_TypeError (NextClient.setEach params sp)
    else succeeds (NextClient.setEach params sp).
Proof.
  induction params as [|[k v] params IH]; intros sp; simpl.
  - eexists; reflexivity.
  - pose proof (toString_nullish v) as Hv.
    destruct (is_nullish v); simpl.
    + rewrite Hv. eexists; reflexivity.
    + destruct Hv as [s ->]. apply IH.
Qed.

(** C6.  The query encoder writes every entry with [set]: its result holds
    at most one pair per final key name, and the value under a name is the
    one of the last entry that flattened to that name, a later entry
    overwriting an earlier one.  This holds of every result of the encoder of
    index.ts and of the one of request.js, and each of them does return a
    result for every mapping it reads no null or undefined value of.  The form
    encoder, in contrast, keeps one field per file of an array of files, all
    under the same name. *)
Theorem query_last_write_wins :
  (forall (params : Props) (prefix : string) (sp : URLSearchParams),
      Parser.setSearchParams params prefix = Ok sp ->
      List.NoDup (map fst sp)
      /\ forall name : string,
           URLSearchParamsOps.get sp name = last_write (writes prefix params) name)
  /\ (forall (params : Props) (sp : URLSearchParams),
         NextClient.setSearchParams params = Ok sp ->
         List.NoDup (map fst sp)
         /\ forall name : string,
              URLSearchParamsOps.get sp name = last_write (flat_writes params) name)
  /\ (forall (params : Props) (prefix : string),
         existsb (fun kv => nullish_leaf (snd kv)) params = false ->
         exists sp : URLSearchParams,
           Parser.setSearchParams params prefix = Ok sp
           /\ List.NoDup (map fst sp)
           /\ forall name : string,
                URLSearchParamsOps.get sp name
                = last_write (writes prefix params) name)
  /\ (forall params : Props,
         existsb (fun kv => is_nullish (snd kv)) params = false ->
         exists sp : URLSearchParams,
           NextClient.setSearchParams params = Ok sp
           /\ List.NoDup (map fst sp)
           /\ forall name : string,
                URLSearchParamsOps.get sp name
                = last_write (flat_writes params) name)
  /\ (forall (k : string) (f : File) (files : list File),
         jsonToFormData [(k, JArr (map JFile (f :: files)))] [] ""
         = map (fun f' => (k, FVFile f')) (f :: files)).
Proof.
  assert (Hparser : forall (params : Props) (prefix : string)
                           (sp : URLSearchParams),
             Parser.setSearchParams params prefix = Ok sp ->
             List.NoDup (map fst sp)
             /\ forall name : string,
                  URLSearchParamsOps.get sp name
                  = last_write (writes prefix params) name).
  { intros params prefix sp Hrun.
    apply addParams_writes in Hrun. subst sp. split.
    - apply NoDup_names_set_all. constructor.
    - intros name. rewrite get_set_all. simpl.
      now destruct (last_write (writes prefix params) name). }
  assert (Hflat : forall (params : Props) (sp : URLSearchParams),
             NextClient.setSearchParams params = Ok sp ->
             List.NoDup (map fst sp)
             /\ forall name : string,
                  URLSearchParamsOps.get sp name
                  = last_write (flat_writes params) name).
  { intros params sp Hrun.
    apply setEach_writes in Hrun. subst sp. split.
    - apply NoDup_names_set_all. constructor.
    - intros name. rewrite get_set_all. simpl.
      now destruct (last_write (flat_writes params) name). }
  split; [exact Hparser|]. split; [exact Hflat|]. split; [|split].
  - intros params prefix Hleaf.
    pose proof (addParams_nullish params prefix []) as Hrun.
    rewrite Hleaf in Hrun. destruct Hrun as [sp Hrun].
    exists sp. split; [exact Hrun|]. now apply Hparser.
  - intros params Hleaf.
    pose proof (setEach_nullish params []) as Hrun.
    rewrite Hleaf in Hrun. destruct Hrun as [sp Hrun].
    exists sp. split; [exact Hrun|]. now apply Hflat.
  - intros k f files.
    change (jsonToFormData [(k, JArr (map JFile (f :: files)))] [] "")
      with (appendItems k (map JFile (f :: files)) 0 []).
    now rewrite appendItems_files.
Qed.

Lemma query_last_write_wins_witness :
  (URLSearchParamsOps.get
     [("a[b]", "later"); ("c", "3")] "a[b]" = Some "later"
   /\ List.NoDup (map fst [("a[b]", "later"); ("c", "3")]))
  /\ (NextClient.setSearchParams
        [("sort", JStr "asc"); ("page", JNum 1)]
      = Ok [("sort", "asc"); ("page", "1")]
      /\ URLSearchParamsOps.get [("sort", "asc"); ("page", "1")] "sort"
         = Some "asc"
      /\ List.NoDup (map fst [("sort", "asc"); ("page", "1")]))
  /\ (Parser.setSearchParams
        [("a", JObj [("b", JNum 1)]); ("c", JNum 3); ("a[b]", JStr "later")] ""
      = Ok [("a[b]", "later"); ("c", "3")]).
Proof.
  destruct query_last_write_wins as (Hparser & _ & Hparser_runs & Hflat_runs & _).
  split; [|split].
  - destruct (Hparser
                [("a", JObj [("b", JNum 1)]); ("c", JNum 3); ("a[b]", JStr "later")]
                "" [("a[b]", "later"); ("c", "3")] eq_refl)
      as [Hnodup Hget].
    split; [rewrite Hget; reflexivity | exact Hnodup].
  - destruct (Hflat_runs
                [("sort", JStr "asc"); ("page", JNum 1)]
                eq_refl)
      as (sp & Hrun & Hnodup & Hget).
    assert (Hsp : sp = [("sort", "asc"); ("page", "1")])
      by (vm_compute in Hrun; congruence).
    subst sp. split; [exact Hrun|]. split; [|exact Hnodup].
    rewrite Hget. reflexivity.
  - destruct (Hparser_runs
                [("a", JObj [("b", JNum 1)]); ("c", JNum 3); ("a[b]", JStr "later")]
                "" eq_refl)
      as (sp & Hrun & _).
    rewrite Hrun. vm_compute in Hrun. exact (eq_sym Hrun).
Defined.

(** C9, as stated, fails: a mapping that contains a null or an undefined
    value is encoded when the encoder does not call a method of that value.
    The encoder of request.js reads the top-level values only, so it writes
    the mapping of [a] to the object with [b] null as [a=[object Object]];
    both encoders write an array by its [toString], which gives the empty
    text for a null element. *)
Lemma query_nullish_inside_is_encoded :
  ~ (forall params : Props,
        existsb (fun kv => contains_nullish (snd kv)) params = true ->
        throws_TypeError (NextClient.setSearchParams params))
  /\ ~ (forall (params : Props) (prefix : string),
          existsb (fun kv => contains_nullish (snd kv)) params = true ->
          throws_TypeError (Parser.setSearchParams params prefix))
  /\ NextClient.setSearchParams [("a", JObj [("b", JNull)])]
     = Ok [("a", "[object Object]")]
  /\ NextClient.setSearchParams [("a", JArr [JNull])] = Ok [("a", "")]
  /\ Parser.setSearchParams [("a", JArr [JNull])] "" = Ok [("a", "")].
Proof.
  split; [|split; [|split; [|split]]]; try reflexivity.
  - intros H. destruct (H [("a", JObj [("b", JNull)])] eq_refl) as [message Hrun].
    discriminate Hrun.
  - intros H. destruct (H [("a", JArr [JNull])] "" eq_refl) as [message Hrun].
    discriminate Hrun.
Qed.

(** C9, amended.  The query encoder throws a TypeError exactly on the
    mappings in which it reaches a null or an undefined value as a leaf, and
    encodes every other mapping: [{a: null}] and [{a: undefined}] both throw.
    The encoder of index.ts reaches its leaves through nested objects (not
    through arrays); the one of request.js reads the top-level values only.
    The form encoder instead turns such a leaf into a field with the empty
    string. *)
Theorem query_nullish_leaf_throws :
  (forall (params : Props) (prefix : string),
      existsb (fun kv => nullish_leaf (snd kv)) params = true ->
      throws_TypeError (Parser.setSearchParams params prefix))
  /\ (forall (params : Props) (prefix : string),
         existsb (fun kv => nullish_leaf (snd kv)) params = false ->
         succeeds (Parser.setSearchParams params prefix))
  /\ (forall params : Props,
         existsb (fun kv => is_nullish (snd kv)) params = true ->
         throws_TypeError (NextClient.setSearchParams params))
  /\ (forall params : Props,
         existsb (fun kv => is_nullish (snd kv)) params = false ->
         succeeds (NextClient.setSearchParams params))
  /\ (forall (a : string) (leaf : JsValue),
         is_nullish leaf = true ->
         jsonToFormData [(a, leaf)] [] "" = [(a, FVString "")]).
Proof.
  repeat split.
  - intros params prefix H.
    pose proof (addParams_nullish params prefix []) as Hrun.
    now rewrite H in Hrun.
  - intros params prefix H.
    pose proof (addParams_nullish params prefix []) as Hrun.
    now rewrite H in Hrun.
  - intros params H.
    pose proof (setEach_nullish params []) as Hrun. now rewrite H in Hrun.
  - intros params H.
    pose proof (setEach_nullish params []) as Hrun. now rewrite H in Hrun.
  - intros a leaf H. destruct leaf; try discriminate H; reflexivity.
Qed.

Lemma query_nullish_leaf_throws_witness :
  throws_TypeError (Parser.setSearchParams [("a", JNull)] "")
  /\ throws_TypeError (Parser.setSearchParams [("a", JUndefined)] "")
  /\ throws_TypeError
       (Parser.setSearchParams [("f", JObj [("a", JNum 1); ("b", JNull)])] "")
  /\ succeeds (Parser.setSearchParams [("a", JNum 1)] "")
  /\ throws_TypeError (NextClient.setSearchParams [("a", JNull)])
  /\ throws_TypeError (NextClient.setSearchParams [("a", JUndefined)])
  /\ succeeds (NextClient.setSearchParams [("a", JNum 1)])
  /\ jsonToFormData [("a", JNull)] [] "" = [("a", FVString "")]
  /\ jsonToFormData [("a", JUndefined)] [] "" = [("a", FVString "")].
Proof.
  destruct query_nullish_leaf_throws as (Hthrow & Hok & Hflat & Hflat_ok & Hform).
  split; [|split; [|split; [|split; [|split; [|split; [|split; [|split]]]]]]].
  - apply Hthrow; reflexivity.
  - apply Hthrow; reflexivity.
  - apply Hthrow; reflexivity.
  - apply Hok; reflexivity.
  - apply Hflat; reflexivity.
  - apply Hflat; reflexivity.
  - apply Hflat_ok; reflexivity.
  - apply Hform; reflexivity.
  - apply Hform; reflexivity.
Defined.

(** ** Sending *)

(** [form.ts]: a GET request is sent without a body, whatever the FormData,
    the headers and the [init] given to [send]. *)
Lemma FormRequest_GET_no_body (this : FormRequestObj) (formData : FormData)
  (headers : option Headers) (init : option RequestInit) :
  fr_method this = GET ->
  init_body (FormRequest.fetch_init this formData headers init) = None.
Proof. intros Hget. unfold FormRequest.fetch_init. now rewrite Hget. Qed.

(** [index.ts]: [fetcher] sends a GET request without a body. *)
Lemma Executer_GET_no_body (config : NextClientExecuterConfig)
  (params : option ParamsSend) :
  e_method config = GET ->
  init_body (call_init (Executer.fetcher_call config params)) = None.
Proof.
  intros Hget. unfold Executer.fetcher_call, Executer.body_and_headers.
  now rewrite Hget.
Qed.

(** C2 fails on json.ts.  [JsonRequest.send] passes
    [JSON.stringify(this.formData)] as the body whatever the method: the
    request [get("/users").json({a: 1})] reaches the transport with the body
    [{"a":1}], where form.ts and index.ts send a GET request without one. *)
Theorem JsonRequest_GET_sends_body :
  (forall (this : JsonRequestObj) (headers : option Headers),
      init_body (JsonRequest.fetch_init this headers)
      = match JSON_stringify (jr_formData this) with
        | Some text => Some (BodyString text)
        | None => None
        end)
  /\ jr_method get_json_request = GET
  /\ init_body (JsonRequest.fetch_init get_json_request None)
     = Some (BodyString ("{" +:+ dquote +:+ "a" +:+ dquote +:+ ":1}"))
  /\ (forall response : Response,
         option_map (fun call => init_body (call_init call))
           (transport_call
              (@JsonRequest.send (answering response) get_json_request None))
         = Some (Some (BodyString ("{" +:+ dquote +:+ "a" +:+ dquote +:+ ":1}")))).
Proof.
  split; [intros this headers; reflexivity|].
  split; [reflexivity|].
  split; [reflexivity|].
  intros response. reflexivity.
Qed.

Lemma FormRequest_settle_outcome {platform : Platform} (this : FormRequestObj)
  (formData : FormData) (call : option FetchCall) (r : Result Normalized) :
  URL_valid (fr_path this) (fr_host this) = true ->
  outcome (FormRequest.settle this formData call r) = r.
Proof.
  intros Hurl. destruct r as [result|error]; [reflexivity|].
  unfold FormRequest.settle, FormRequest.on_error, make_url. simpl.
  rewrite Hurl.
  destruct (debug_on (fr_config this)); [|reflexivity].
  now destruct error.
Qed.

Lemma JsonRequest_settle_outcome {platform : Platform} (this : JsonRequestObj)
  (call : option FetchCall) (r : Result Normalized) :
  URL_valid (jr_path this) (jr_host this) = true ->
  outcome (JsonRequest.settle this call r) = r.
Proof.
  intros Hurl. destruct r as [result|error]; [reflexivity|].
  unfold JsonRequest.settle, JsonRequest.on_error, make_url. simpl.
  rewrite Hurl.
  destruct (debug_on (jr_config this)); [|reflexivity].
  now destruct error.
Qed.

(** The response [send] received, when the URL is valid and [fetch]
    resolves: its settlement is the decoding of that response. *)
Lemma FormRequest_send_completed {platform : Platform} (this : FormRequestObj)
  (formData : FormData) (headers : option Headers) (init : option RequestInit)
  (response : Response) :
  URL_valid (fr_path this) (fr_host this) = true ->
  fetch {| call_url := {| url_path := fr_path this; url_host := fr_host this;
                          url_search := fr_searchParams this |};
           call_init := FormRequest.fetch_init this formData headers init |}
  = inr response ->
  outcome (FormRequest.send this formData headers init)
  = decode_response response.
Proof.
  intros Hurl Hfetch. unfold FormRequest.send, make_url. rewrite Hurl.
  rewrite FormRequest_settle_outcome by exact Hurl.
  unfold await_fetch. now rewrite Hfetch.
Qed.

Lemma JsonRequest_send_completed {platform : Platform} (this : JsonRequestObj)
  (headers : option Headers) (response : Response) :
  URL_valid (jr_path this) (jr_host this) = true ->
  fetch {| call_url := {| url_path := jr_path this; url_host := jr_host this;
                          url_search := jr_searchParams this |};
           call_init := JsonRequest.fetch_init this headers |}
  = inr response ->
  outcome (JsonRequest.send this headers) = JsonRequest.decode response.
Proof.
  intros Hurl Hfetch. unfold JsonRequest.send, make_url. rewrite Hurl.
  rewrite JsonRequest_settle_outcome by exact Hurl.
  unfold await_fetch. now rewrite Hfetch.
Qed.

Lemma ok_false (response : Response) :
  (status response < 200 \/ 299 < status response)%Z -> ok response = false.
Proof. unfold ok. lia. Qed.

Lemma ok_true (response : Response) :
  (200 <= status response <= 299)%Z -> ok response = true.
Proof. unfold ok. lia. Qed.

Lemma decode_non_ok {platform : Platform} (response : Response) :
  (status response < 200 \/ 299 < status response)%Z ->
  decode_response response
  = Throw (EHttpError (status response)
             (match JSON_parse (body_text response) with
              | Some parsed => parsed
              | None => JStr (body_text response)
              end)).
Proof.
  intros Hstatus. unfold decode_response. rewrite (ok_false _ Hstatus). simpl.
  unfold error_body, Response_json.
  now destruct (JSON_parse (body_text response)).
Qed.

(** The decoding of json.ts on a status outside 200-299: the rejection of
    [decode_response], as an instance of the class of ./error. *)
Lemma JsonRequest_decode_non_ok {platform : Platform} (response : Response) :
  (status response < 200 \/ 299 < status response)%Z ->
  JsonRequest.decode response
  = Throw (EHttpError_error (status response)
             (match JSON_parse (body_text response) with
              | Some parsed => parsed
              | None => JStr (body_text response)
              end)).
Proof.
  intros Hstatus. unfold JsonRequest.decode.
  now rewrite (decode_non_ok _ Hstatus).
Qed.

(** C4.  When the transport completes with a status outside 200-299, [send]
    rejects with an [HttpError] that carries this status and, as body, the
    JSON parse of the response body or, only when that parse fails, its raw
    text; it never resolves with a result.  The [HttpError] of form.ts is an
    instance of the class of ./errror, which [isNextClientError] recognises;
    the one of json.ts is an instance of the class of ./error, which
    [isNextClientError] does not recognise.  Both carry the status code. *)
Theorem non_ok_response_raises_HttpError :
  forall (platform : Platform) (response : Response),
    (status response < 200 \/ 299 < status response)%Z ->
    let body_of :=
      match JSON_parse (body_text response) with
      | Some parsed => parsed
      | None => JStr (body_text response)
      end in
    (forall (this : FormRequestObj) (formData : FormData)
            (headers : option Headers) (init : option RequestInit),
        URL_valid (fr_path this) (fr_host this) = true ->
        fetch {| call_url := {| url_path := fr_path this;
                                url_host := fr_host this;
                                url_search := fr_searchParams this |};
                 call_init := FormRequest.fetch_init this formData headers init |}
        = inr response ->
        outcome (FormRequest.send this formData headers init)
        = Throw (EHttpError (status response) body_of))
    /\ (forall (this : JsonRequestObj) (headers : option Headers),
           URL_valid (jr_path this) (jr_host this) = true ->
           fetch {| call_url := {| url_path := jr_path this;
                                   url_host := jr_host this;
                                   url_search := jr_searchParams this |};
                    call_init := JsonRequest.fetch_init this headers |}
           = inr response ->
           outcome (JsonRequest.send this headers)
           = Throw (EHttpError_error (status response) body_of))
    /\ isNextClientError (EHttpError (status response) body_of) = true
    /\ isNextClientError (EHttpError_error (status response) body_of) = false
    /\ statusCode_of (EHttpError (status response) body_of)
       = Some (status response)
    /\ statusCode_of (EHttpError_error (status response) body_of)
       = Some (status response).
Proof.
  intros platform response Hstatus body_of.
  split; [|split; [|repeat split]].
  - intros this formData headers init Hurl Hfetch.
    rewrite (FormRequest_send_completed _ _ _ _ _ Hurl Hfetch).
    now apply decode_non_ok.
  - intros this headers Hurl Hfetch.
    rewrite (JsonRequest_send_completed _ _ _ Hurl Hfetch).
    now apply JsonRequest_decode_non_ok.
Qed.

Lemma non_ok_response_raises_HttpError_witness :
  outcome (@FormRequest.send (answering not_found_text) post_form_request
             [("name", FVString "x")] None None)
  = Throw (EHttpError 404 (JStr "Not Found"))
  /\ outcome (@JsonRequest.send (answering server_error_null)
                post_json_request None)
     = Throw (EHttpError_error 500 JNull).
Proof.
  split.
  - assert (Hstatus : (status not_found_text < 200
                       \/ 299 < status not_found_text)%Z)
      by (right; reflexivity).
    destruct (non_ok_response_raises_HttpError
                (answering not_found_text) not_found_text Hstatus)
      as (Hform & _).
    apply (Hform post_form_request [("name", FVString "x")] None None);
      reflexivity.
  - assert (Hstatus : (status server_error_null < 200
                       \/ 299 < status server_error_null)%Z)
      by (right; reflexivity).
    destruct (non_ok_response_raises_HttpError
                (answering server_error_null) server_error_null Hstatus)
      as (_ & Hjson & _).
    apply (Hjson post_json_request None); reflexivity.
Defined.

Lemma decode_unsupported {platform : Platform} (response : Response)
  (contentType : string) :
  (200 <= status response <= 299)%Z ->
  contentType_header response = Some contentType ->
  includes contentType "application/json" = false ->
  includes contentType "text/" = false ->
  contentType <> "" ->
  decode_response response
  = Throw (EError ("Unsupported content type: " +:+ contentType)).
Proof.
  intros Hstatus Hheader Hjson Htext Hne. unfold decode_response.
  rewrite (ok_true _ Hstatus), Hheader. simpl.
  rewrite (truthy_string_true _ Hne), Hjson, Htext. simpl.
  apply String.eqb_neq in Hne. now rewrite Hne.
Qed.

(** C5.  When the transport completes with a status in 200-299 and a
    Content-Type that does not contain [application/json], does not contain
    [text/] and is not empty, [send] (of form.ts and of json.ts) rejects with
    a plain [Error]: it is not an [HttpError] and carries no status code. *)
Theorem unsupported_content_type_raises_generic_error :
  forall (platform : Platform) (response : Response) (contentType : string),
    (200 <= status response <= 299)%Z ->
    contentType_header response = Some contentType ->
    includes contentType "application/json" = false ->
    includes contentType "text/" = false ->
    contentType <> "" ->
    let error_of := EError ("Unsupported content type: " +:+ contentType) in
    (forall (this : FormRequestObj) (formData : FormData)
            (headers : option Headers) (init : option RequestInit),
        URL_valid (fr_path this) (fr_host this) = true ->
        fetch {| call_url := {| url_path := fr_path this;
                                url_host := fr_host this;
                                url_search := fr_searchParams this |};
                 call_init := FormRequest.fetch_init this formData headers init |}
        = inr response ->
        outcome (FormRequest.send this formData headers init) = Throw error_of)
    /\ (forall (this : JsonRequestObj) (headers : option Headers),
           URL_valid (jr_path this) (jr_host this) = true ->
           fetch {| call_url := {| url_path := jr_path this;
                                   url_host := jr_host this;
                                   url_search := jr_searchParams this |};
                    call_init := JsonRequest.fetch_init this headers |}
           = inr response ->
           outcome (JsonRequest.send this headers) = Throw error_of)
    /\ isNextClientError error_of = false
    /\ statusCode_of error_of = None.
Proof.
  intros platform response contentType Hstatus Hheader Hjson Htext Hne error_of.
  split; [|split; [|split; reflexivity]].
  - intros this formData headers init Hurl Hfetch.
    rewrite (FormRequest_send_completed _ _ _ _ _ Hurl Hfetch).
    now apply decode_unsupported.
  - intros this headers Hurl Hfetch.
    rewrite (JsonRequest_send_completed _ _ _ Hurl Hfetch).
    unfold JsonRequest.decode.
    now rewrite (decode_unsupported _ _ Hstatus Hheader Hjson Htext Hne).
Qed.

Lemma unsupported_content_type_raises_generic_error_witness :
  outcome (@FormRequest.send (answering ok_xml) post_form_request
             [("name", FVString "x")] None None)
  = Throw (EError "Unsupported content type: application/xml")
  /\ outcome (@JsonRequest.send (answering ok_xml) post_json_request None)
     = Throw (EError "Unsupported content type: application/xml").
Proof.
  assert (Hstatus : (200 <= status ok_xml <= 299)%Z) by (simpl; lia).
  assert (Hne : "application/xml" <> "") by discriminate.
  destruct (unsupported_content_type_raises_generic_error
              (answering ok_xml) ok_xml "application/xml"
              Hstatus eq_refl eq_refl eq_refl Hne)
    as (Hform & Hjson & _).
  split.
  - apply (Hform post_form_request [("name", FVString "x")] None None);
      reflexivity.
  - apply (Hjson post_json_request None); reflexivity.
Defined.

(** ** The builder steps on the store *)

Lemma alloc_new (h : Store) (c : Cell) : (h ++ [c]) !! length h = Some c.
Proof. now apply list_lookup_middle. Qed.

Lemma alloc_unchanged (h : Store) (c : Cell) : unchanged h (h ++ [c]).
Proof. intros l x Hl. now apply lookup_app_l_Some. Qed.

Lemma unchanged_trans (h1 h2 h3 : Store) :
  unchanged h1 h2 -> unchanged h2 h3 -> unchanged h1 h3.
Proof. intros H12 H23 l c Hl. auto. Qed.

Lemma fresh_lookup (h : Store) : h !! length h = None.
Proof. now apply lookup_ge_None_2. Qed.

Lemma fresh_ne (h : Store) (l : loc) (c : Cell) :
  h !! l = Some c -> length h <> l.
Proof. intros Hl%lookup_lt_Some. lia. Qed.

(** What [FormRequest.append] does to the store. *)
Lemma FormRequest_append_spec (h h' : Store) (this r : loc) (key : string)
  (file : FormDataEntryValue) :
  FormRequest.append h this key file = Some (h', r) ->
  exists (o : FormRequestObj) (formData : FormData),
    h !! this = Some (CFormRequest o)
    /\ h !! fr_formData o = Some (CFormData formData)
    /\ r = length h
    /\ h' !! this = Some (CFormRequest o)
    /\ h' !! fr_formData o = Some (CFormData (formData ++ [(key, file)]))
    /\ h' !! r
       = Some (CFormRequest
                 {| fr_formData := fr_formData o;
                    fr_path := fr_path o;
                    fr_host := fr_host o;
                    fr_init := fr_init o;
                    fr_method := fr_method o;
                    fr_searchParams := fr_searchParams o;
                    fr_config := None |}).
Proof.
  unfold FormRequest.append, alloc. intros Hstep.
  destruct (h !! this) as [[| | | |o| | |]|] eqn:Hthis; try discriminate.
  destruct (h !! fr_formData o) as [[| |formData| | | | |]|] eqn:Hfd;
    try discriminate.
  injection Hstep as <- <-. exists o, formData.
  assert (Hne : fr_formData o <> this) by (intros E; congruence).
  pose proof (lookup_lt_Some _ _ _ Hthis) as Hlt_this.
  pose proof (lookup_lt_Some _ _ _ Hfd) as Hlt_fd.
  rewrite length_insert.
  repeat split; try assumption.
  - rewrite lookup_app_l by now rewrite length_insert.
    now rewrite list_lookup_insert_ne.
  - rewrite lookup_app_l by now rewrite length_insert.
    now rewrite list_lookup_insert_eq.
  - apply list_lookup_middle. now rewrite length_insert.
Qed.

Lemma FormRequest_send_quiet {platform : Platform} (this : FormRequestObj)
  (formData : FormData) (headers : option Headers) (init : option RequestInit) :
  debug_on (fr_config this) = false ->
  console (FormRequest.send this formData headers init) = [].
Proof.
  intros Hquiet. unfold FormRequest.send.
  destruct (make_url _ _ _) as [url|e]; simpl.
  - destruct (let* response := await_fetch _ in decode_response response);
      [reflexivity|].
    unfold FormRequest.on_error. now rewrite Hquiet.
  - unfold FormRequest.on_error. now rewrite Hquiet.
Qed.

(** C10.  [r.append(key, file)] returns a new FormRequest that has the
    fields of [r] but no [config], whatever the [config] of [r]: a request
    sent from it writes nothing to the console, on any platform and for any
    response or failure.  The entry is appended to the FormData [r] refers
    to, which is the very FormData the new instance refers to, so it is seen
    through [r] as well. *)
Theorem append_drops_config_and_shares_formData :
  forall (h h' : Store) (this r : loc) (key : string) (file : FormDataEntryValue),
    FormRequest.append h this key file = Some (h', r) ->
    exists (o o' : FormRequestObj) (formData : FormData),
      h !! this = Some (CFormRequest o)
      /\ fields_of h this = Some formData
      /\ r <> this
      /\ h' !! r = Some (CFormRequest o')
      /\ fr_config o' = None
      /\ fr_formData o' = fr_formData o
      /\ h' !! this = Some (CFormRequest o)
      /\ fields_of h' this = Some (formData ++ [(key, file)])
      /\ fields_of h' r = Some (formData ++ [(key, file)])
      /\ forall (platform : Platform) (headers : option Headers)
                (init : option RequestInit),
           exists sent : Sent,
             FormRequest.send_at h' r headers init = Some sent
             /\ console sent = [].
Proof.
  intros h h' this r key file Hstep.
  destruct (FormRequest_append_spec _ _ _ _ _ _ Hstep)
    as (o & formData & Hthis & Hfd & Hr & Hthis' & Hfd' & Hr').
  eexists o, _, formData.
  split; [exact Hthis|].
  split; [unfold fields_of; now rewrite Hthis, Hfd|].
  split; [subst r; now apply (fresh_ne _ _ _ Hthis)|].
  split; [exact Hr'|].
  split; [reflexivity|].
  split; [reflexivity|].
  split; [exact Hthis'|].
  split; [unfold fields_of; now rewrite Hthis', Hfd'|].
  split; [unfold fields_of; rewrite Hr'; simpl; now rewrite Hfd'|].
  intros platform headers init. eexists. split.
  - unfold FormRequest.send_at. rewrite Hr'. simpl. rewrite Hfd'. reflexivity.
  - now apply FormRequest_send_quiet.
Qed.

Lemma append_drops_config_and_shares_formData_witness :
  fields_of
    (<[0 := CFormData [("file", FVFile sample_file)]]> form_store
       ++ [CFormRequest
             {| fr_formData := 0; fr_path := "/upload";
                fr_host := "https://api.example.com"; fr_init := sample_init;
                fr_method := POST; fr_searchParams := []; fr_config := None |}])
    1
  = Some [("file", FVFile sample_file)]
  /\ debug_on (fr_config post_form_request) = true.
Proof.
  destruct (append_drops_config_and_shares_formData
              form_store _ 1 2 "file" (FVFile sample_file) eq_refl)
    as (o & o' & formData & Hthis & Hfields & _ & _ & _ & _ & _ & Hseen & _).
  injection Hfields as <-.
  split; [exact Hseen | reflexivity].
Defined.

Lemma ToPath_form_creates (data : option Props) :
  creates (fun h this => ToPath.form h this data).
Proof.
  intros h this h' r Hstep. unfold ToPath.form, alloc in Hstep.
  destruct (h !! this) as [[| | |o| | | |]|]; try discriminate.
  injection Hstep as <- <-. split; [|split].
  - eapply unchanged_trans; apply alloc_unchanged.
  - apply lookup_ge_None_2. rewrite length_app. simpl. lia.
  - rewrite alloc_new. eauto.
Qed.

Lemma ToPath_json_creates (data : JsValue) :
  creates (fun h this => ToPath.json h this data).
Proof.
  intros h this h' r Hstep. unfold ToPath.json, alloc in Hstep.
  destruct (h !! this) as [[| | |o| | | |]|]; try discriminate.
  injection Hstep as <- <-. split; [|split].
  - apply alloc_unchanged.
  - apply fresh_lookup.
  - rewrite alloc_new. eauto.
Qed.

Lemma NextClientBody_form_creates (data : loc) :
  creates (fun h this => NextClientBody.form h this data).
Proof.
  intros h this h' r Hstep. unfold NextClientBody.form, alloc in Hstep.
  destruct (h !! this) as [[| | | | | |config|]|]; try discriminate.
  injection Hstep as <- <-. split; [|split].
  - apply alloc_unchanged.
  - apply fresh_lookup.
  - rewrite alloc_new. eauto.
Qed.

Lemma NextClientBody_json_creates (data : loc) :
  creates (fun h this => NextClientBody.json h this data).
Proof.
  intros h this h' r Hstep. unfold NextClientBody.json, alloc in Hstep.
  destruct (h !! this) as [[| | | | | |config|]|]; try discriminate.
  injection Hstep as <- <-. split; [|split].
  - apply alloc_unchanged.
  - apply fresh_lookup.
  - rewrite alloc_new. eauto.
Qed.

(** [set] rebinds [config.data] of the receiver to a fresh copy that has the
    key, and returns the receiver. *)
Lemma NextBodyAppend_set_spec (h h' : Store) (this r : loc) (key : string)
  (value : JsValue) :
  NextBodyAppend.set h this key value = Some (h', r) ->
  r = this
  /\ exists (config : NextBodyAppendConfig) (props : Props),
       h !! this = Some (CNextBodyAppend config)
       /\ h !! a_data config = Some (CObject props)
       /\ h' !! this
          = Some (CNextBodyAppend
                    {| a_config := a_config config;
                       a_data := length h;
                       a_isForm := a_isForm config |})
       /\ h' !! length h = Some (CObject (obj_set props key value))
       /\ (forall (l : loc) (c : Cell),
              l <> this -> h !! l = Some c -> h' !! l = Some c).
Proof.
  unfold NextBodyAppend.set, alloc. intros Hstep.
  destruct (h !! this) as [[| | | | | | |config]|] eqn:Hthis; try discriminate.
  destruct (h !! a_data config) as [[props| | | | | | |]|] eqn:Hdata;
    try discriminate.
  injection Hstep as <- <-. split; [reflexivity|].
  exists config, props.
  pose proof (lookup_lt_Some _ _ _ Hthis) as Hlt.
  repeat split; try assumption.
  - apply list_lookup_insert_eq. rewrite length_app. simpl. lia.
  - rewrite list_lookup_insert_ne by lia. apply alloc_new.
  - intros l c Hne Hl. rewrite list_lookup_insert_ne by congruence.
    now apply lookup_app_l_Some.
Qed.

(** [delete] removes the key from the payload object itself and returns the
    receiver, whose [config] is as before. *)
Lemma NextBodyAppend_delete_spec (h h' : Store) (this r : loc) (key : string) :
  NextBodyAppend.delete h this key = Some (h', r) ->
  r = this
  /\ exists (config : NextBodyAppendConfig) (props : Props),
       h !! this = Some (CNextBodyAppend config)
       /\ h !! a_data config = Some (CObject props)
       /\ h' !! this = Some (CNextBodyAppend config)
       /\ h' !! a_data config = Some (CObject (obj_delete props key))
       /\ (forall (l : loc) (c : Cell),
              l <> a_data config -> h !! l = Some c -> h' !! l = Some c).
Proof.
  unfold NextBodyAppend.delete. intros Hstep.
  destruct (h !! this) as [[| | | | | | |config]|] eqn:Hthis; try discriminate.
  destruct (h !! a_data config) as [[props| | | | | | |]|] eqn:Hdata;
    try discriminate.
  injection Hstep as <- <-. split; [reflexivity|].
  exists config, props.
  assert (Hne : a_data config <> this) by (intros E; congruence).
  repeat split; try assumption.
  - now rewrite list_lookup_insert_ne.
  - apply list_lookup_insert_eq. now apply lookup_lt_Some in Hdata.
  - intros l c Hl Hc. now rewrite list_lookup_insert_ne.
Qed.

(** [headers] rebinds [config.headers] of the receiver to a fresh merged
    object and returns the receiver. *)
Lemma NextBodyAppend_headers_spec (h h' : Store) (this r : loc)
  (headers : Headers) :
  NextBodyAppend.headers h this headers = Some (h', r) ->
  r = this
  /\ exists config : NextBodyAppendConfig,
       h !! this = Some (CNextBodyAppend config)
       /\ h' !! this
          = Some (CNextBodyAppend
                    {| a_config := with_headers (a_config config) (Some (length h));
                       a_data := a_data config;
                       a_isForm := a_isForm config |})
       /\ (forall current : Headers,
              headers_of h this = Some current ->
              h' !! length h = Some (CHeaders (obj_spread current headers)))
       /\ (forall (l : loc) (c : Cell),
              l <> this -> h !! l = Some c -> h' !! l = Some c).
Proof.
  unfold NextBodyAppend.headers, alloc. intros Hstep.
  destruct (h !! this) as [[| | | | | | |config]|] eqn:Hthis; try discriminate.
  injection Hstep as <- <-. split; [reflexivity|].
  exists config.
  pose proof (lookup_lt_Some _ _ _ Hthis) as Hlt.
  repeat split; try assumption.
  - apply list_lookup_insert_eq. rewrite length_app. simpl. lia.
  - intros current Hcurrent. rewrite list_lookup_insert_ne by lia.
    unfold headers_of in Hcurrent. rewrite Hthis in Hcurrent.
    destruct (c_headers (a_config config)) as [l|].
    + destruct (h !! l) as [[|hs| | | | | |]|]; try discriminate.
      injection Hcurrent as ->. apply alloc_new.
    + injection Hcurrent as <-. apply alloc_new.
  - intros l c Hne Hl. rewrite list_lookup_insert_ne by congruence.
    now apply lookup_app_l_Some.
Qed.

(** C8, as stated, fails.  After [post("/upload").json({a: 1})], the steps
    [set], [delete] and [headers] return the builder they were called on and
    change the payload or the headers it captures; after
    [post("/upload").form({})], [append] changes the form fields its receiver
    captures. *)
Lemma chain_steps_mutate_receiver :
  ~ returns_new (fun h this => NextBodyAppend.set h this "k" (JStr "v"))
  /\ ~ keeps_receiver payload_of
         (fun h this => NextBodyAppend.set h this "k" (JStr "v"))
  /\ ~ keeps_receiver payload_of
         (fun h this => NextBodyAppend.delete h this "a")
  /\ ~ keeps_receiver headers_of
         (fun h this => NextBodyAppend.headers h this [("Authorization", "t")])
  /\ ~ keeps_receiver fields_of
         (fun h this => FormRequest.append h this "file" (FVFile sample_file)).
Proof.
  split; [|split; [|split; [|split]]].
  - intros H. now apply (H builder_store 2 _ 2 eq_refl).
  - intros H. specialize (H builder_store 2 _ 2 eq_refl). discriminate H.
  - intros H. specialize (H builder_store 2 _ 2 eq_refl). discriminate H.
  - intros H. specialize (H builder_store 2 _ 2 eq_refl). discriminate H.
  - intros H. specialize (H form_store 1 _ 2 eq_refl). discriminate H.
Qed.

(** C8, amended.  [form] and [json] (of to.ts and of index.ts) create the
    request value they return and change no existing object, their receiver
    included.  [set], [delete] and [headers] return their receiver: [set]
    makes it capture a fresh copy of the payload with the key set, [delete]
    removes the key from the payload object itself, [headers] makes it
    capture a fresh object merging the headers.  [append] returns a new
    FormRequest over the FormData of its receiver, to which the entry was
    appended: both capture the appended field. *)
Theorem chain_steps_effect :
  (forall data : option Props, creates (fun h this => ToPath.form h this data))
  /\ (forall data : JsValue, creates (fun h this => ToPath.json h this data))
  /\ (forall data : loc, creates (fun h this => NextClientBody.form h this data))
  /\ (forall data : loc, creates (fun h this => NextClientBody.json h this data))
  /\ (forall (h h' : Store) (this r : loc) (key : string) (value : JsValue),
         NextBodyAppend.set h this key value = Some (h', r) ->
         r = this
         /\ (exists props : Props,
                payload_of h this = Some props
                /\ payload_of h' this = Some (obj_set props key value))
         /\ (forall (l : loc) (c : Cell),
                l <> this -> h !! l = Some c -> h' !! l = Some c))
  /\ (forall (h h' : Store) (this r : loc) (key : string),
         NextBodyAppend.delete h this key = Some (h', r) ->
         r = this
         /\ exists (config : NextBodyAppendConfig) (props : Props),
              h !! this = Some (CNextBodyAppend config)
              /\ h' !! this = Some (CNextBodyAppend config)
              /\ h !! a_data config = Some (CObject props)
              /\ h' !! a_data config = Some (CObject (obj_delete props key)))
  /\ (forall (h h' : Store) (this r : loc) (headers : Headers),
         NextBodyAppend.headers h this headers = Some (h', r) ->
         r = this
         /\ (forall current : Headers,
                headers_of h this = Some current ->
                headers_of h' this = Some (obj_spread current headers))
         /\ (forall (l : loc) (c : Cell),
                l <> this -> h !! l = Some c -> h' !! l = Some c))
  /\ (forall (h h' : Store) (this r : loc) (key : string)
             (file : FormDataEntryValue),
         FormRequest.append h this key file = Some (h', r) ->
         r <> this
         /\ h !! r = None
         /\ exists formData : FormData,
              fields_of h this = Some formData
              /\ fields_of h' this = Some (formData ++ [(key, file)])
              /\ fields_of h' r = Some (formData ++ [(key, file)])).
Proof.
  split; [exact ToPath_form_creates|].
  split; [exact ToPath_json_creates|].
  split; [exact NextClientBody_form_creates|].
  split; [exact NextClientBody_json_creates|].
  split; [|split; [|split]].
  - intros h h' this r key value Hstep.
    destruct (NextBodyAppend_set_spec _ _ _ _ _ _ Hstep)
      as (Hr & config & props & Hthis & Hdata & Hthis' & Hcopy & Hothers).
    split; [exact Hr|]. split; [|exact Hothers].
    exists props. unfold payload_of. rewrite Hthis, Hdata, Hthis'.
    cbn [a_data]. now rewrite Hcopy.
  - intros h h' this r key Hstep.
    destruct (NextBodyAppend_delete_spec _ _ _ _ _ Hstep)
      as (Hr & config & props & Hthis & Hdata & Hthis' & Hdata' & _).
    split; [exact Hr|]. now exists config, props.
  - intros h h' this r headers Hstep.
    destruct (NextBodyAppend_headers_spec _ _ _ _ _ Hstep)
      as (Hr & config & Hthis & Hthis' & Hmerged & Hothers).
    split; [exact Hr|]. split; [|exact Hothers].
    intros current Hcurrent. unfold headers_of. rewrite Hthis'.
    cbn [a_config c_headers with_headers].
    now rewrite (Hmerged current Hcurrent).
  - intros h h' this r key file Hstep.
    destruct (FormRequest_append_spec _ _ _ _ _ _ Hstep)
      as (o & formData & Hthis & Hfd & Hr & Hthis' & Hfd' & Hr').
    split; [subst r; now apply (fresh_ne _ _ _ Hthis)|].
    split; [subst r; apply fresh_lookup|].
    exists formData. unfold fields_of.
    rewrite Hthis, Hfd, Hthis', Hfd', Hr'. cbn [fr_formData].
    now rewrite Hfd'.
Qed.

Lemma chain_steps_effect_witness :
  payload_of
    (<[2 := CNextBodyAppend
              {| a_config := sample_config; a_data := 3; a_isForm := false |}]>
       (builder_store ++ [CObject [("a", JNum 1); ("k", JStr "v")]]))
    2
  = Some [("a", JNum 1); ("k", JStr "v")]
  /\ payload_of builder_store 2 = Some [("a", JNum 1)].
Proof.
  destruct chain_steps_effect as (_ & _ & _ & _ & Hset & _).
  destruct (Hset builder_store _ 2 2 "k" (JStr "v") eq_refl)
    as (_ & (props & Hbefore & Hafter) & _).
  injection Hbefore as <-.
  split; [exact Hafter | reflexivity].
Defined.

(** * Further properties of the code *)

(** ** The form encoder *)

Lemma jsonToFormData_flat_map (obj : Props) (p : string) :
  jsonToFormData obj [] p
  = flat_map (fun kv => jsonToFormData_entry p (fst kv) (snd kv) []) obj.
Proof.
  induction obj as [|[k v] obj IH]; simpl; [reflexivity|].
  rewrite jsonToFormData_acc. now rewrite IH.
Qed.

(** X1.  Encoding into an existing FormData keeps its entries, in their
    order, before the new ones, and the encoding of a mapping is the
    encoding of its first keys followed by the encoding of the others. *)
Theorem form_encoding_appends_in_order :
  forall (a b : Props) (fd : FormData) (p : string),
    jsonToFormData (a ++ b) fd p
    = fd ++ jsonToFormData a [] p ++ jsonToFormData b [] p.
Proof.
  intros a b fd p. rewrite jsonToFormData_app.
  rewrite (jsonToFormData_acc b), (jsonToFormData_acc a).
  now rewrite <- List.app_assoc.
Qed.

Lemma append_empty_r (s : string) : s +:+ "" = s.
Proof.
  induction s as [|c s IH]; [reflexivity|].
  change (String c (s +:+ "") = String c s). now rewrite IH.
Qed.

Lemma append_assoc (s t u : string) : (s +:+ t) +:+ u = s +:+ (t +:+ u).
Proof.
  induction s as [|c s IH]; [reflexivity|].
  change (String c ((s +:+ t) +:+ u) = String c (s +:+ (t +:+ u))).
  now rewrite IH.
Qed.

Lemma extends_refl (q : string) : extends q q.
Proof. exists "". symmetry. apply append_empty_r. Qed.

Lemma extends_trans (a b c : string) : extends a b -> extends b c -> extends a c.
Proof.
  intros [s1 ->] [s2 ->]. exists (s1 +:+ s2). apply append_assoc.
Qed.

Lemma extends_bracket (q k : string) : extends q (bracket q k).
Proof. now exists ("[" +:+ k +:+ "]"). Qed.

Lemma bracket_not_empty (q k : string) : bracket q k <> "".
Proof.
  intros H. apply (f_equal String.length) in H.
  unfold bracket in H. rewrite !length_append in H. simpl in H. lia.
Qed.

Lemma appendItems_names (q formKey : string) (items : list JsValue) :
  extends q formKey ->
  forall (index : nat) (fd : FormData),
    List.Forall (fun e => extends q (fst e)) fd ->
    List.Forall (fun e => extends q (fst e)) (appendItems formKey items index fd).
Proof.
  intros Hq. induction items as [|item rest IH]; intros index fd Hfd; simpl.
  - exact Hfd.
  - apply IH.
    assert (Hb : extends q (bracket formKey (num_toString (Z.of_nat index))))
      by (eapply extends_trans; [exact Hq | apply extends_bracket]).
    destruct item; unfold FormDataOps.append;
      apply List.Forall_app; split; try exact Hfd;
      constructor; simpl; try exact Hb; try exact Hq; constructor.
Qed.

Lemma entry_names (v : JsValue) :
  forall p k q : string,
    formKey_of p k <> "" ->
    extends q (formKey_of p k) ->
    extends q (formKeyFile_of p k) ->
    List.Forall (fun e => extends q (fst e)) (jsonToFormData_entry p k v []).
Proof.
  induction v as [| | b | z | s | f | items _ | props IH]
    using JsValue_nested_ind; intros p k q Hne Hkey Hfile;
    try (simpl; constructor; [exact Hkey | constructor]).
  - simpl. constructor; [exact Hfile | constructor].
  - destruct items as [|item rest].
    + simpl. constructor; [exact Hkey | constructor].
    + change (jsonToFormData_entry p k (JArr (item :: rest)) [])
        with (appendItems (formKey_of p k) (item :: rest) 0 []).
      apply appendItems_names; [exact Hkey | constructor].
  - rewrite jsonToFormData_entry_object, jsonToFormData_flat_map.
    apply List.Forall_flat_map.
    induction IH as [|[nk nv] props Hv _ IHprops]; constructor; [|exact IHprops].
    simpl in *. apply Hv.
    + rewrite formKey_of_prefix by exact Hne. apply bracket_not_empty.
    + rewrite formKey_of_prefix by exact Hne.
      eapply extends_trans; [exact Hkey | apply extends_bracket].
    + rewrite formKeyFile_of_prefix by exact Hne. exact Hkey.
Qed.

(** X2.  Every field name the encoder produces for a key starts with that
    key: under a non-empty prefix [p] all names start with [p], and at top
    level the names of the fields of a non-empty key [k] start with [k]. *)
Theorem form_field_names_start_with_key :
  (forall (obj : Props) (p : string),
      p <> "" ->
      List.Forall (fun e => extends p (fst e)) (jsonToFormData obj [] p))
  /\ (forall (k : string) (v : JsValue),
         k <> "" ->
         List.Forall (fun e => extends k (fst e))
           (jsonToFormData_entry "" k v [])).
Proof.
  split.
  - intros obj p Hp. rewrite jsonToFormData_flat_map.
    apply List.Forall_flat_map. apply List.Forall_forall. intros [k v] _.
    simpl. apply entry_names.
    + rewrite formKey_of_prefix by exact Hp. apply bracket_not_empty.
    + rewrite formKey_of_prefix by exact Hp. apply extends_bracket.
    + rewrite formKeyFile_of_prefix by exact Hp. apply extends_refl.
  - intros k v Hk. apply entry_names.
    + exact Hk.
    + apply extends_refl.
    + apply extends_refl.
Qed.

Lemma form_field_names_start_with_key_witness :
  List.Forall (fun e => extends "user" (fst e))
    (jsonToFormData_entry "" "user"
       (JObj [("name", JStr "n"); ("doc", JFile sample_file);
              ("tags", JArr [JStr "a"; JFile sample_file2])]) []).
Proof.
  destruct form_field_names_start_with_key as [_ Htop].
  apply (Htop "user"). discriminate.
Defined.

Lemma appendItems_step (formKey : string) (index : nat) (item : JsValue)
  (fd : FormData) :
  match item with
  | JFile f => FormDataOps.append fd formKey (FVFile f)
  | _ => FormDataOps.append fd
           (bracket formKey (num_toString (Z.of_nat index)))
           (FVString (toString_or_empty item))
  end
  = fd ++ [item_field formKey index item].
Proof. now destruct item. Qed.

Lemma appendItems_length (formKey : string) (items : list JsValue) :
  forall (index : nat) (fd : FormData),
    length (appendItems formKey items index fd) = length fd + length items.
Proof.
  induction items as [|item rest IH]; intros index fd; simpl; [lia|].
  rewrite IH, appendItems_step, length_app. simpl. lia.
Qed.

Lemma appendItems_nth (formKey : string) (items : list JsValue) :
  forall (index : nat) (fd : FormData) (i : nat) (item : JsValue),
    nth_error items i = Some item ->
    nth_error (appendItems formKey items index fd) (length fd + i)
    = Some (item_field formKey (index + i) item).
Proof.
  induction items as [|item0 rest IH]; intros index fd i item Hi.
  - destruct i; discriminate Hi.
  - simpl. rewrite appendItems_step. destruct i as [|j]; simpl in Hi.
    + injection Hi as <-. rewrite appendItems_acc.
      rewrite List.nth_error_app1 by (rewrite length_app; simpl; lia).
      rewrite List.nth_error_app2 by lia.
      replace (length fd + 0 - length fd) with 0 by lia.
      replace (index + 0) with index by lia. reflexivity.
    + specialize (IH (S index) (fd ++ [item_field formKey index item0]) j item Hi).
      rewrite length_app in IH. simpl in IH.
      replace (length fd + S j) with (length fd + 1 + j) by lia.
      replace (index + S j) with (S index + j) by lia. exact IH.
Qed.

(** X3.  A non-empty array under a top-level key gives exactly one field
    per element, the i-th field coming from the i-th element: a file under
    the key itself, any other element under [key[i]] with its text.  The
    encoder does not descend into an element: an object element is written
    as the text [[object Object]]. *)
Theorem array_elements_one_field_each :
  forall (k : string) (items : list JsValue),
    items <> [] ->
    length (jsonToFormData [(k, JArr items)] [] "") = length items
    /\ (forall (i : nat) (item : JsValue),
           nth_error items i = Some item ->
           nth_error (jsonToFormData [(k, JArr items)] [] "") i
           = Some (item_field k i item))
    /\ (forall (i : nat) (props : Props),
           nth_error items i = Some (JObj props) ->
           nth_error (jsonToFormData [(k, JArr items)] [] "") i
           = Some (bracket k (num_toString (Z.of_nat i)),
                   FVString "[object Object]")).
Proof.
  intros k items Hne.
  assert (Hshape : jsonToFormData [(k, JArr items)] [] ""
                   = appendItems k items 0 []).
  { destruct items as [|item rest]; [congruence | reflexivity]. }
  rewrite Hshape. split; [|split].
  - now rewrite appendItems_length.
  - intros i item Hi. apply (appendItems_nth k items 0 [] i item Hi).
  - intros i props Hi. apply (appendItems_nth k items 0 [] i _ Hi).
Qed.

Lemma array_elements_one_field_each_witness :
  nth_error
    (jsonToFormData
       [("rows", JArr [JObj [("id", JNum 1)]; JFile sample_file; JNull])] [] "")
    0
  = Some ("rows[0]", FVString "[object Object]").
Proof.
  assert (Hne : [JObj [("id", JNum 1)]; JFile sample_file; JNull] <> [])
    by discriminate.
  destruct (array_elements_one_field_each "rows" _ Hne) as (_ & _ & Hobj).
  apply (Hobj 0 [("id", JNum 1)]). reflexivity.
Defined.

Lemma hollow_entry (v : JsValue) :
  hollow v = true ->
  forall (p k : string) (fd : FormData), jsonToFormData_entry p k v fd = fd.
Proof.
  induction v as [| | b | z | s | f | items _ | props IH]
    using JsValue_nested_ind; intros Hh p k fd; try discriminate Hh.
  rewrite jsonToFormData_entry_object. simpl in Hh.
  generalize (formKey_of p k). intros q. revert fd.
  induction IH as [|[nk nv] props Hv _ IHprops]; intros fd; simpl in *.
  - reflexivity.
  - apply andb_prop in Hh. destruct Hh as [Hnv Hrest].
    rewrite (Hv Hnv). now apply IHprops.
Qed.

(** X4.  A key whose value is made of objects only (an empty object, or
    objects nested down to empty objects) gives no field at all: the encoded
    form is the one of the payload without that key. *)
Theorem hollow_object_is_omitted :
  forall (pre post : Props) (k : string) (v : JsValue) (fd : FormData)
         (p : string),
    hollow v = true ->
    jsonToFormData (pre ++ (k, v) :: post) fd p
    = jsonToFormData (pre ++ post) fd p.
Proof.
  intros pre post k v fd p Hh.
  rewrite !jsonToFormData_app. simpl. now rewrite (hollow_entry v Hh).
Qed.

Lemma hollow_object_is_omitted_witness :
  jsonToFormData
    ([("name", JStr "n")] ++ ("meta", JObj [("inner", JObj [])])
       :: [("tags", JArr [])]) [] ""
  = [("name", FVString "n"); ("tags", FVString "")].
Proof.
  rewrite (hollow_object_is_omitted [("name", JStr "n")] [("tags", JArr [])]
             "meta" (JObj [("inner", JObj [])]) [] "" eq_refl).
  reflexivity.
Defined.

Lemma toString_or_empty_text (v : JsValue) (s : string) :
  toString v = Some s -> toString_or_empty v = s.
Proof.
  intros H. unfold toString_or_empty. rewrite H. now destruct s.
Qed.

Lemma entry_scalar_tree (v : JsValue) :
  scalar_tree v = true ->
  forall p k : string,
    formKey_of p k <> "" ->
    jsonToFormData_entry p k v []
    = map as_field (writes_of "" (formKey_of p k) v).
Proof.
  induction v as [| | b | z | s | f | items _ | props IH]
    using JsValue_nested_ind; intros Hs p k Hne; try discriminate Hs.
  - simpl. unfold FormDataOps.append, as_field. simpl.
    now rewrite (toString_or_empty_text (JBool b) _ eq_refl).
  - simpl. unfold FormDataOps.append, as_field. simpl.
    now rewrite (toString_or_empty_text (JNum z) _ eq_refl).
  - simpl. unfold FormDataOps.append, as_field. simpl.
    now rewrite (toString_or_empty_text (JStr s) s eq_refl).
  - rewrite jsonToFormData_entry_object, jsonToFormData_flat_map.
    simpl in Hs. simpl writes_of.
    induction IH as [|[nk nv] props Hv _ IHprops]; simpl in *; [reflexivity|].
    apply andb_prop in Hs. destruct Hs as [Hnv Hrest].
    rewrite List.map_app, (IHprops Hrest). f_equal.
    rewrite (Hv Hnv (formKey_of p k) nk).
    + now rewrite formKey_of_prefix by exact Hne.
    + rewrite formKey_of_prefix by exact Hne. apply bracket_not_empty.
Qed.

Lemma scalar_tree_not_nullish (v : JsValue) :
  scalar_tree v = true -> nullish_leaf v = false.
Proof.
  induction v as [| | b | z | s | f | items _ | props IH]
    using JsValue_nested_ind; intros Hs; try discriminate Hs; try reflexivity.
  simpl in *. induction IH as [|[nk nv] props Hv _ IHprops]; simpl in *.
  - reflexivity.
  - apply andb_prop in Hs. destruct Hs as [Hnv Hrest].
    now rewrite (Hv Hnv), (IHprops Hrest).
Qed.

(** X5.  On a mapping made of booleans, numbers, strings and nested objects
    of such, under non-empty top-level keys, the form encoder and the query
    encoder of index.ts flatten alike: the form holds, as fields and in
    order, exactly the pairs the query encoder writes with [set]. *)
Theorem form_and_query_flatten_alike :
  forall params : Props,
    forallb (fun kv => truthy_string (fst kv) && scalar_tree (snd kv)) params
    = true ->
    jsonToFormData params [] "" = map as_field (writes "" params)
    /\ Parser.setSearchParams params "" = Ok (set_all (writes "" params) []).
Proof.
  intros params Hall. split.
  - rewrite jsonToFormData_flat_map. unfold writes.
    induction params as [|[k v] params IH]; simpl in *; [reflexivity|].
    apply andb_prop in Hall. destruct Hall as [Hkv Hrest].
    apply andb_prop in Hkv. destruct Hkv as [Hk Hv].
    rewrite List.map_app, (IH Hrest). f_equal.
    assert (Hne : formKey_of "" k <> "") by (destruct k; [discriminate Hk | discriminate]).
    now rewrite (entry_scalar_tree v Hv "" k Hne).
  - assert (Hnull : existsb (fun kv => nullish_leaf (snd kv)) params = false).
    { induction params as [|[k v] params IH]; simpl in *; [reflexivity|].
      apply andb_prop in Hall. destruct Hall as [Hkv Hrest].
      apply andb_prop in Hkv. destruct Hkv as [_ Hv].
      now rewrite (scalar_tree_not_nullish v Hv), (IH Hrest). }
    pose proof (addParams_nullish params "" []) as Hrun.
    rewrite Hnull in Hrun. destruct Hrun as [sp Hsp].
    unfold Parser.setSearchParams. rewrite Hsp.
    now rewrite (addParams_writes _ _ _ _ Hsp).
Qed.

Lemma form_and_query_flatten_alike_witness :
  jsonToFormData
    [("page", JNum 2); ("filter", JObj [("name", JStr "x"); ("on", JBool true)])]
    [] ""
  = [("page", FVString "2"); ("filter[name]", FVString "x");
     ("filter[on]", FVString "true")]
  /\ Parser.setSearchParams
       [("page", JNum 2); ("filter", JObj [("name", JStr "x"); ("on", JBool true)])]
       ""
     = Ok [("page", "2"); ("filter[name]", "x"); ("filter[on]", "true")].
Proof.
  destruct (form_and_query_flatten_alike
              [("page", JNum 2);
               ("filter", JObj [("name", JStr "x"); ("on", JBool true)])]
              eq_refl) as [Hform Hquery].
  split; [rewrite Hform | rewrite Hquery]; reflexivity.
Defined.

(** ** The query encoders *)

Lemma addParam_flat (k : string) (v : JsValue) (sp : URLSearchParams) :
  flat_value v = true ->
  Parser.addParam "" k v sp
  = match toString v with
    | Some s => Ok (URLSearchParamsOps.set sp k s)
    | None => Throw toString_TypeError
    end.
Proof. intros Hflat. destruct v; try discriminate Hflat; reflexivity. Qed.

Lemma addParams_flat (params : Props) :
  forallb (fun kv => flat_value (snd kv)) params = true ->
  forall sp : URLSearchParams,
    Parser.addParams "" params sp = NextClient.setEach params sp.
Proof.
  induction params as [|[k v] params IH]; intros Hall sp; simpl in *.
  - reflexivity.
  - apply andb_prop in Hall. destruct Hall as [Hv Hrest].
    rewrite (addParam_flat k v sp Hv).
    destruct (toString v) as [s|]; simpl; [now apply IH | reflexivity].
Qed.

(** X6.  On a mapping without nested objects, files and null values (its
    values being booleans, numbers, strings, arrays or undefined), the query
    encoder of index.ts and the one of request.js give the same result, the
    same pairs or the same TypeError. *)
Theorem query_encoders_agree_on_flat_mappings :
  forall params : Props,
    forallb (fun kv => flat_value (snd kv)) params = true ->
    Parser.setSearchParams params "" = NextClient.setSearchParams params.
Proof.
  intros params Hall. now apply addParams_flat.
Qed.

Lemma query_encoders_agree_on_flat_mappings_witness :
  Parser.setSearchParams [("limit", JNum 10); ("ids", JArr [JNum 1; JNum 2])] ""
  = Ok [("limit", "10"); ("ids", "1,2")]
  /\ NextClient.setSearchParams [("limit", JNum 10); ("ids", JArr [JNum 1; JNum 2])]
     = Ok [("limit", "10"); ("ids", "1,2")].
Proof.
  pose proof (query_encoders_agree_on_flat_mappings
                [("limit", JNum 10); ("ids", JArr [JNum 1; JNum 2])] eq_refl)
    as Hagree.
  split; [rewrite Hagree|]; reflexivity.
Defined.

Lemma set_fresh (sp : URLSearchParams) (n v : string) :
  ~ In n (map fst sp) -> URLSearchParamsOps.set sp n v = sp ++ [(n, v)].
Proof.
  induction sp as [|[n' v'] rest IH]; simpl; intros Hfresh; [reflexivity|].
  destruct (String.eqb_spec n' n) as [->|Hne]; [tauto|].
  rewrite IH by tauto. reflexivity.
Qed.

Lemma setEach_distinct (params : Props) :
  forall sp : URLSearchParams,
    List.NoDup (map fst sp ++ map fst params) ->
    existsb (fun kv => is_nullish (snd kv)) params = false ->
    NextClient.setEach params sp
    = Ok (sp ++ map (fun kv => (fst kv, value_text (snd kv))) params).
Proof.
  induction params as [|[k v] params IH]; intros sp Hnd Hnull; simpl in *.
  - now rewrite app_nil_r.
  - apply orb_false_elim in Hnull. destruct Hnull as [Hv Hrest].
    pose proof (toString_nullish v) as Ht. rewrite Hv in Ht.
    destruct Ht as [s Hs]. rewrite Hs.
    assert (Hfresh : ~ In k (map fst sp)).
    { intros Hin. apply List.NoDup_remove_2 in Hnd. apply Hnd.
      apply List.in_or_app. now left. }
    rewrite (set_fresh sp k s Hfresh), IH.
    + unfold value_text. rewrite Hs. now rewrite <- List.app_assoc.
    + rewrite List.map_app. simpl. now rewrite <- List.app_assoc.
    + exact Hrest.
Qed.

(** X7.  For a mapping with distinct keys and no null or undefined value,
    the query encoder of request.js returns one pair per key, in the order of
    the keys, each holding the text of the value; the encoder of index.ts
    does the same when, moreover, no value is an object or a File. *)
Theorem query_pairs_are_the_entries :
  forall params : Props,
    List.NoDup (map fst params) ->
    existsb (fun kv => is_nullish (snd kv)) params = false ->
    NextClient.setSearchParams params
    = Ok (map (fun kv => (fst kv, value_text (snd kv))) params)
    /\ (forallb (fun kv => flat_value (snd kv)) params = true ->
        Parser.setSearchParams params ""
        = Ok (map (fun kv => (fst kv, value_text (snd kv))) params)).
Proof.
  intros params Hnd Hnull.
  assert (Hflat : NextClient.setSearchParams params
                  = Ok (map (fun kv => (fst kv, value_text (snd kv))) params))
    by (apply (setEach_distinct params []); assumption).
  split; [exact Hflat|].
  intros Hall. unfold Parser.setSearchParams.
  rewrite (addParams_flat params Hall []). exact Hflat.
Qed.

Lemma query_pairs_are_the_entries_witness :
  NextClient.setSearchParams
    [("term", JStr "example"); ("limit", JNum 5); ("f", JObj [("a", JNum 1)])]
  = Ok [("term", "example"); ("limit", "5"); ("f", "[object Object]")].
Proof.
  assert (Hnd : List.NoDup (map fst [("term", JStr "example"); ("limit", JNum 5);
                                     ("f", JObj [("a", JNum 1)])])).
  { repeat constructor; simpl; intuition discriminate. }
  destruct (query_pairs_are_the_entries _ Hnd eq_refl) as [Hpairs _].
  rewrite Hpairs. reflexivity.
Defined.

(** ** Sending and decoding (form.ts, json.ts) *)

Lemma form_completed_outcome {platform : Platform} (this : FormRequestObj)
  (formData : FormData) (headers : option Headers) (init : option RequestInit)
  (response : Response) :
  form_completed this formData headers init response ->
  outcome (FormRequest.send this formData headers init)
  = decode_response response.
Proof. intros [Hurl Hfetch]. now apply FormRequest_send_completed. Qed.

Lemma json_completed_outcome {platform : Platform} (this : JsonRequestObj)
  (headers : option Headers) (response : Response) :
  json_completed this headers response ->
  outcome (JsonRequest.send this headers) = JsonRequest.decode response.
Proof. intros [Hurl Hfetch]. now apply JsonRequest_send_completed. Qed.

Lemma decode_throw_kind {platform : Platform} (response : Response) (e : Thrown) :
  decode_response response = Throw e ->
  isNextClientError e = negb (ok response).
Proof.
  unfold decode_response. destruct (ok response); simpl.
  - destruct (includes _ "application/json").
    + unfold Response_json. destruct (JSON_parse _); simpl; [discriminate|].
      now intros [= <-].
    + destruct (includes _ "text/" || String.eqb _ ""); [discriminate|].
      now intros [= <-].
  - now intros [= <-].
Qed.

Lemma decode_ok_result {platform : Platform} (response : Response)
  (result : Normalized) :
  decode_response response = Ok result ->
  ok response = true
  /\ statusCode result = status response
  /\ (data result = JStr (body_text response)
      \/ JSON_parse (body_text response) = Some (data result)).
Proof.
  unfold decode_response. destruct (ok response); simpl; [|discriminate].
  destruct (includes _ "application/json").
  - unfold Response_json. destruct (JSON_parse _) as [v|] eqn:Hparse; simpl;
      [|discriminate].
    intros [= <-]. simpl. auto.
  - destruct (includes _ "text/" || String.eqb _ ""); [|discriminate].
    intros [= <-]. simpl. auto.
Qed.

(** [decode_response] throws no instance of the class of ./error. *)
Lemma decode_throw_class {platform : Platform} (response : Response) (e : Thrown) :
  decode_response response = Throw e ->
  instanceof_HttpError_error e = false.
Proof.
  unfold decode_response. destruct (ok response); simpl.
  - destruct (includes _ "application/json").
    + unfold Response_json. destruct (JSON_parse _); simpl; [discriminate|].
      now intros [= <-].
    + destruct (includes _ "text/" || String.eqb _ ""); [discriminate|].
      now intros [= <-].
  - now intros [= <-].
Qed.

(** The decoding of json.ts resolves as [decode_response] does. *)
Lemma JsonRequest_decode_ok {platform : Platform} (response : Response)
  (result : Normalized) :
  JsonRequest.decode response = Ok result <->
  decode_response response = Ok result.
Proof.
  unfold JsonRequest.decode.
  destruct (decode_response response) as [r|e]; [reflexivity|].
  split; [|discriminate]. now destruct e.
Qed.

(** What the decoding of json.ts throws is an [HttpError] of ./error exactly
    when the status is not ok, and never one of ./errror. *)
Lemma JsonRequest_decode_throw_kind {platform : Platform} (response : Response)
  (e : Thrown) :
  JsonRequest.decode response = Throw e ->
  instanceof_HttpError_error e = negb (ok response)
  /\ isNextClientError e = false.
Proof.
  unfold JsonRequest.decode.
  destruct (decode_response response) as [r|e'] eqn:Hdecode; [discriminate|].
  pose proof (decode_throw_kind _ _ Hdecode) as Hkind.
  pose proof (decode_throw_class _ _ Hdecode) as Hclass.
  destruct e'; simpl in Hkind, Hclass; intros [= <-]; simpl;
    (split; [assumption || congruence | reflexivity]).
Qed.

(** What [decode_response] throws that is no [HttpError], the decoding of
    json.ts throws too. *)
Lemma JsonRequest_decode_other {platform : Platform} (response : Response)
  (e : Thrown) :
  isNextClientError e = false ->
  decode_response response = Throw e ->
  JsonRequest.decode response = Throw e.
Proof.
  intros Hkind Hdecode. unfold JsonRequest.decode. rewrite Hdecode.
  destruct e; [discriminate Hkind | reflexivity ..].
Qed.

(** X8.  When the transport completes, a rejection of [send] is an
    [HttpError] exactly when the status is outside 200-299: no failure on a
    response with an ok status (unsupported content type, malformed JSON) is
    classified as an HTTP error.  For form.ts the [HttpError] is the class of
    ./errror, the one [isNextClientError] tests; for json.ts it is the class
    of ./error, and [isNextClientError] is false of every rejection of its
    [send], whatever the status. *)
Theorem rejection_is_HttpError_iff_status_not_ok :
  forall (platform : Platform) (response : Response) (e : Thrown),
    (forall (this : FormRequestObj) (formData : FormData)
            (headers : option Headers) (init : option RequestInit),
        form_completed this formData headers init response ->
        outcome (FormRequest.send this formData headers init) = Throw e ->
        isNextClientError e = negb (ok response))
    /\ (forall (this : JsonRequestObj) (headers : option Headers),
           json_completed this headers response ->
           outcome (JsonRequest.send this headers) = Throw e ->
           instanceof_HttpError_error e = negb (ok response)
           /\ isNextClientError e = false).
Proof.
  intros platform response e. split.
  - intros this formData headers init Hdone Hout.
    rewrite (form_completed_outcome _ _ _ _ _ Hdone) in Hout.
    now apply decode_throw_kind.
  - intros this headers Hdone Hout.
    rewrite (json_completed_outcome _ _ _ Hdone) in Hout.
    now apply JsonRequest_decode_throw_kind.
Qed.

Lemma rejection_is_HttpError_iff_status_not_ok_witness :
  isNextClientError (EPlatform (SyntaxError "Unexpected token in JSON")) = false
  /\ instanceof_HttpError_error (EHttpError_error 404 (JStr "Not Found")) = true
  /\ isNextClientError (EHttpError_error 404 (JStr "Not Found")) = false.
Proof.
  split.
  - destruct (rejection_is_HttpError_iff_status_not_ok
                (answering ok_json_broken) ok_json_broken
                (EPlatform (SyntaxError "Unexpected token in JSON")))
      as [Hform _].
    apply (Hform post_form_request [] None None); [split|]; reflexivity.
  - destruct (rejection_is_HttpError_iff_status_not_ok
                (answering not_found_text) not_found_text
                (EHttpError_error 404 (JStr "Not Found")))
      as [_ Hjson].
    apply (Hjson post_json_request None); [split|]; reflexivity.
Defined.

(** X9.  [send] resolves only for a status in 200-299, and what it resolves
    with carries that status and, as data, either the body text or its JSON
    parse. *)
Theorem send_resolves_only_for_ok_status :
  forall (platform : Platform) (response : Response) (result : Normalized),
    (forall (this : FormRequestObj) (formData : FormData)
            (headers : option Headers) (init : option RequestInit),
        form_completed this formData headers init response ->
        outcome (FormRequest.send this formData headers init) = Ok result ->
        ok response = true
        /\ statusCode result = status response
        /\ (data result = JStr (body_text response)
            \/ JSON_parse (body_text response) = Some (data result)))
    /\ (forall (this : JsonRequestObj) (headers : option Headers),
           json_completed this headers response ->
           outcome (JsonRequest.send this headers) = Ok result ->
           ok response = true
           /\ statusCode result = status response
           /\ (data result = JStr (body_text response)
               \/ JSON_parse (body_text response) = Some (data result))).
Proof.
  intros platform response result. split.
  - intros this formData headers init Hdone Hout.
    rewrite (form_completed_outcome _ _ _ _ _ Hdone) in Hout.
    now apply decode_ok_result.
  - intros this headers Hdone Hout.
    rewrite (json_completed_outcome _ _ _ Hdone) in Hout.
    apply JsonRequest_decode_ok in Hout. now apply decode_ok_result.
Qed.

Lemma send_resolves_only_for_ok_status_witness :
  ok ok_no_header = true
  /\ statusCode {| statusCode := 201; data := JStr "created" |}
     = status ok_no_header.
Proof.
  destruct (send_resolves_only_for_ok_status
              (answering ok_no_header) ok_no_header
              {| statusCode := 201; data := JStr "created" |})
    as [Hform _].
  destruct (Hform post_form_request [] None None) as (Hok & Hcode & _);
    [split; reflexivity | reflexivity |].
  split; [exact Hok | exact Hcode].
Defined.

Lemma decode_no_content_type {platform : Platform} (response : Response) :
  ok response = true ->
  (contentType_header response = None \/ contentType_header response = Some "") ->
  decode_response response
  = Ok {| statusCode := status response; data := JStr (body_text response) |}.
Proof.
  intros Hok Hheader. unfold decode_response. rewrite Hok. simpl.
  now destruct Hheader as [-> | ->].
Qed.

Lemma decode_broken_json {platform : Platform} (response : Response)
  (contentType : string) :
  ok response = true ->
  contentType_header response = Some contentType ->
  includes contentType "application/json" = true ->
  JSON_parse (body_text response) = None ->
  decode_response response
  = Throw (EPlatform (SyntaxError "Unexpected token in JSON")).
Proof.
  intros Hok Hheader Hjson Hparse. unfold decode_response.
  rewrite Hok, Hheader. simpl.
  assert (Hct : (if truthy_string contentType then contentType else "")
                = contentType) by now destruct contentType.
  rewrite Hct, Hjson. unfold Response_json. now rewrite Hparse.
Qed.

(** X10.  On a response with an ok status: without a Content-Type header,
    or with an empty one, [send] resolves with the body as text; with a
    Content-Type containing [application/json] and a body that is not JSON,
    it rejects with the SyntaxError of the parse, without falling back to
    the text as it does for an error response. *)
Theorem ok_response_without_type_or_with_broken_json :
  forall (platform : Platform) (response : Response),
    ok response = true ->
    (forall (this : FormRequestObj) (formData : FormData)
            (headers : option Headers) (init : option RequestInit),
        form_completed this formData headers init response ->
        ((contentType_header response = None
          \/ contentType_header response = Some "") ->
         outcome (FormRequest.send this formData headers init)
         = Ok {| statusCode := status response;
                 data := JStr (body_text response) |})
        /\ (forall contentType : string,
               contentType_header response = Some contentType ->
               includes contentType "application/json" = true ->
               JSON_parse (body_text response) = None ->
               outcome (FormRequest.send this formData headers init)
               = Throw (EPlatform (SyntaxError "Unexpected token in JSON"))))
    /\ (forall (this : JsonRequestObj) (headers : option Headers),
           json_completed this headers response ->
           ((contentType_header response = None
             \/ contentType_header response = Some "") ->
            outcome (JsonRequest.send this headers)
            = Ok {| statusCode := status response;
                    data := JStr (body_text response) |})
           /\ (forall contentType : string,
                  contentType_header response = Some contentType ->
                  includes contentType "application/json" = true ->
                  JSON_parse (body_text response) = None ->
                  outcome (JsonRequest.send this headers)
                  = Throw (EPlatform (SyntaxError "Unexpected token in JSON")))).
Proof.
  intros platform response Hok. split.
  - intros this formData headers init Hdone.
    rewrite (form_completed_outcome _ _ _ _ _ Hdone). split.
    + now apply decode_no_content_type.
    + intros contentType. now apply decode_broken_json.
  - intros this headers Hdone.
    rewrite (json_completed_outcome _ _ _ Hdone). split.
    + intros Hheader. apply JsonRequest_decode_ok.
      now apply decode_no_content_type.
    + intros contentType Hheader Hjson Hparse.
      apply JsonRequest_decode_other; [reflexivity|].
      now apply (decode_broken_json _ contentType).
Qed.

Lemma ok_response_without_type_or_with_broken_json_witness :
  outcome (@FormRequest.send (answering ok_no_header) post_form_request
             [] None None)
  = Ok {| statusCode := 201; data := JStr "created" |}
  /\ outcome (@JsonRequest.send (answering ok_json_broken)
                post_json_request None)
     = Throw (EPlatform (SyntaxError "Unexpected token in JSON")).
Proof.
  split.
  - destruct (ok_response_without_type_or_with_broken_json
                (answering ok_no_header) ok_no_header eq_refl) as [Hform _].
    destruct (Hform post_form_request [] None None) as [Htext _];
      [split; reflexivity|].
    apply Htext. now left.
  - destruct (ok_response_without_type_or_with_broken_json
                (answering ok_json_broken) ok_json_broken eq_refl)
      as [_ Hjson].
    destruct (Hjson post_json_request None) as [_ Hbroken];
      [split; reflexivity|].
    apply (Hbroken "application/json"); reflexivity.
Defined.

Lemma FormRequest_send_outcome_any_config {platform : Platform}
  (this : FormRequestObj) (config : option NextClientConfig)
  (formData : FormData) (headers : option Headers) (init : option RequestInit) :
  transport_call (FormRequest.send (with_config this config) formData headers init)
  = transport_call (FormRequest.send this formData headers init)
  /\ outcome (FormRequest.send (with_config this config) formData headers init)
     = outcome (FormRequest.send this formData headers init).
Proof.
  unfold FormRequest.send, make_url. simpl.
  destruct (URL_valid (fr_path this) (fr_host this)) eqn:Hurl; simpl.
  - split; [reflexivity|].
    change (FormRequest.fetch_init (with_config this config) formData headers init)
      with (FormRequest.fetch_init this formData headers init).
    destruct (let* response := await_fetch _ in decode_response response)
      as [result|error]; [reflexivity|].
    unfold FormRequest.on_error, make_url. simpl. rewrite Hurl.
    destruct (debug_on config), (debug_on (fr_config this)), error; reflexivity.
  - split; [reflexivity|].
    unfold FormRequest.on_error. cbn [with_config fr_config].
    destruct (debug_on config), (debug_on (fr_config this)); reflexivity.
Qed.

Lemma JsonRequest_send_outcome_any_config {platform : Platform}
  (this : JsonRequestObj) (config : option NextClientConfig)
  (headers : option Headers) :
  transport_call (JsonRequest.send (with_json_config this config) headers)
  = transport_call (JsonRequest.send this headers)
  /\ outcome (JsonRequest.send (with_json_config this config) headers)
     = outcome (JsonRequest.send this headers).
Proof.
  unfold JsonRequest.send, make_url. simpl.
  destruct (URL_valid (jr_path this) (jr_host this)) eqn:Hurl; simpl.
  - split; [reflexivity|].
    change (JsonRequest.fetch_init (with_json_config this config) headers)
      with (JsonRequest.fetch_init this headers).
    destruct (let* response := await_fetch _ in JsonRequest.decode response)
      as [result|error]; [reflexivity|].
    unfold JsonRequest.on_error, make_url. simpl. rewrite Hurl.
    destruct (debug_on config), (debug_on (jr_config this)), error; reflexivity.
  - split; [reflexivity|].
    unfold JsonRequest.on_error. cbn [with_json_config jr_config].
    destruct (debug_on config), (debug_on (jr_config this)); reflexivity.
Qed.

Lemma FormRequest_console {platform : Platform} (this : FormRequestObj)
  (formData : FormData) (headers : option Headers) (init : option RequestInit) :
  console (FormRequest.send this formData headers init) = []
  <-> (debug_on (fr_config this) = false
       \/ exists result : Normalized,
            outcome (FormRequest.send this formData headers init) = Ok result).
Proof.
  unfold FormRequest.send, make_url.
  destruct (URL_valid (fr_path this) (fr_host this)) eqn:Hurl; simpl.
  - destruct (let* response := await_fetch _ in decode_response response)
      as [result|error]; simpl.
    + split; [intros _; right; now exists result | reflexivity].
    + unfold FormRequest.on_error, make_url. rewrite Hurl.
      destruct (debug_on (fr_config this)).
      * split.
        -- destruct error; discriminate.
        -- intros [H | [result H]]; [discriminate H|]. destruct error; discriminate H.
      * split; [now left | reflexivity].
  - unfold FormRequest.on_error. destruct (debug_on (fr_config this)); simpl.
    + split; [discriminate|]. intros [H | [result H]]; discriminate H.
    + split; [now left | reflexivity].
Qed.

(** X11.  The debug flag changes the console output only: with any other
    config the same request makes the same call to the transport and settles
    the same way (form.ts and json.ts).  [send] of form.ts writes to the
    console exactly when debug is on and the request is rejected. *)
Theorem debug_changes_the_console_only :
  forall (platform : Platform),
    (forall (this : FormRequestObj) (config : option NextClientConfig)
            (formData : FormData) (headers : option Headers)
            (init : option RequestInit),
        transport_call
          (FormRequest.send (with_config this config) formData headers init)
        = transport_call (FormRequest.send this formData headers init)
        /\ outcome
             (FormRequest.send (with_config this config) formData headers init)
           = outcome (FormRequest.send this formData headers init))
    /\ (forall (this : JsonRequestObj) (config : option NextClientConfig)
               (headers : option Headers),
           transport_call (JsonRequest.send (with_json_config this config) headers)
           = transport_call (JsonRequest.send this headers)
           /\ outcome (JsonRequest.send (with_json_config this config) headers)
              = outcome (JsonRequest.send this headers))
    /\ (forall (this : FormRequestObj) (formData : FormData)
               (headers : option Headers) (init : option RequestInit),
           console (FormRequest.send this formData headers init) = []
           <-> (debug_on (fr_config this) = false
                \/ exists result : Normalized,
                     outcome (FormRequest.send this formData headers init)
                     = Ok result)).
Proof.
  intros platform. split; [|split].
  - intros. apply FormRequest_send_outcome_any_config.
  - intros. apply JsonRequest_send_outcome_any_config.
  - intros. apply FormRequest_console.
Qed.

Lemma debug_changes_the_console_only_witness :
  console (@FormRequest.send (answering not_found_text)
             (with_config post_form_request None) [] None None)
  = [].
Proof.
  destruct (debug_changes_the_console_only (answering not_found_text))
    as (_ & _ & Hconsole).
  apply Hconsole. left. reflexivity.
Defined.

Lemma obj_get_absent {V : Type} (o : list (string * V)) (k : string) :
  obj_has o k = false -> obj_get o k = None.
Proof.
  induction o as [|[k0 v0] rest IH]; simpl; [reflexivity|].
  destruct (String.eqb k0 k); [discriminate | exact IH].
Qed.

Lemma obj_get_replace {V : Type} (o : list (string * V)) (k k' : string) (v : V) :
  obj_has o k = true ->
  obj_get (obj_replace o k v) k'
  = if String.eqb k k' then Some v else obj_get o k'.
Proof.
  induction o as [|[k0 v0] rest IH]; simpl; [discriminate|].
  destruct (String.eqb_spec k0 k) as [->|Hne]; simpl.
  - intros _. now destruct (String.eqb k k').
  - intros Hhas. rewrite (IH Hhas).
    destruct (String.eqb_spec k0 k') as [->|Hne']; [|reflexivity].
    apply String.eqb_neq in Hne. rewrite String.eqb_sym in Hne.
    now rewrite Hne.
Qed.

Lemma obj_get_insert_index {V : Type} (o : list (string * V)) (n : N)
  (k k' : string) (v : V) :
  obj_has o k = false ->
  obj_get (obj_insert_index o n k v) k'
  = if String.eqb k k' then Some v else obj_get o k'.
Proof.
  induction o as [|[k0 v0] rest IH]; simpl; [reflexivity|].
  destruct (String.eqb_spec k0 k) as [->|Hne]; simpl; [discriminate|].
  intros Hhas.
  destruct (array_index k0) as [m|]; [destruct (m <? n)%N|]; simpl;
    try reflexivity.
  rewrite (IH Hhas).
  destruct (String.eqb_spec k0 k') as [->|Hne']; [|reflexivity].
  apply String.eqb_neq in Hne. rewrite String.eqb_sym in Hne.
  now rewrite Hne.
Qed.

Lemma obj_get_last {V : Type} (o : list (string * V)) (k k' : string) (v : V) :
  obj_has o k = false ->
  obj_get (o ++ [(k, v)]) k'
  = if String.eqb k k' then Some v else obj_get o k'.
Proof.
  induction o as [|[k0 v0] rest IH]; simpl; [reflexivity|].
  destruct (String.eqb_spec k0 k) as [->|Hne]; simpl; [discriminate|].
  intros Hhas. rewrite (IH Hhas).
  destruct (String.eqb_spec k0 k') as [->|Hne']; [|reflexivity].
  apply String.eqb_neq in Hne. rewrite String.eqb_sym in Hne.
  now rewrite Hne.
Qed.

Lemma obj_get_set {V : Type} (o : list (string * V)) (k k' : string) (v : V) :
  obj_get (obj_set o k v) k'
  = if String.eqb k k' then Some v else obj_get o k'.
Proof.
  unfold obj_set. destruct (obj_has o k) eqn:Hhas.
  - now apply obj_get_replace.
  - destruct (array_index k) as [n|].
    + now apply obj_get_insert_index.
    + now apply obj_get_last.
Qed.



(** ** index.ts: the executer *)

Lemma obj_get_delete {V : Type} (o : list (string * V)) (k k' : string) :
  obj_get (obj_delete o k) k'
  = if String.eqb k k' then None else obj_get o k'.
Proof.
  unfold obj_delete.
  induction o as [|[k0 v0] rest IH]; simpl.
  - now destruct (String.eqb k k').
  - destruct (String.eqb_spec k0 k) as [->|Hne]; simpl.
    + rewrite IH. now destruct (String.eqb k k').
    + rewrite IH. destruct (String.eqb_spec k0 k') as [->|Hne'].
      * apply String.eqb_neq in Hne. rewrite String.eqb_sym in Hne.
        now rewrite Hne.
      * reflexivity.
Qed.

Lemma not_GET (m : TMethads) : m <> GET -> TMethads_eqb m GET = false.
Proof. destruct m; [congruence | reflexivity ..]. Qed.

Lemma body_and_headers_json (config : NextClientExecuterConfig) :
  e_method config <> GET ->
  (e_isForm config = false \/ e_formData config = None) ->
  Executer.body_and_headers config
  = if truthy (e_data config)
    then (option_map BodyString (JSON_stringify (e_data config)),
          obj_set (headers_or_empty (e_headers config)) "Content-Type"
            (Executer.or_default
               (obj_get (headers_or_empty (e_headers config)) "Content-Type")
               "application/json"))
    else (None, headers_or_empty (e_headers config)).
Proof.
  intros Hm Hmode. unfold Executer.body_and_headers.
  rewrite (not_GET _ Hm). cbn [negb].
  destruct Hmode as [H | H]; rewrite H; [| destruct (e_isForm config)];
    destruct (truthy (e_data config));
    destruct (JSON_stringify (e_data config)); reflexivity.
Qed.

(** X13.  [fetcher] on a method other than GET.  In form mode the body is
    the FormData and the [Content-Type] header is removed, the other headers
    being kept.  Otherwise, with a truthy payload, the body is its JSON text
    and [Content-Type] is the caller's when it is set and not empty, else
    [application/json].  With a falsy payload (undefined, null, [0], the
    empty string, [false]) nothing is sent as body and the headers are left
    as they are. *)
Theorem fetcher_body_and_content_type :
  forall config : NextClientExecuterConfig,
    e_method config <> GET ->
    (forall formData : FormData,
        e_isForm config = true ->
        e_formData config = Some formData ->
        fst (Executer.body_and_headers config) = Some (BodyFormData formData)
        /\ forall k : string,
             obj_get (snd (Executer.body_and_headers config)) k
             = if String.eqb "Content-Type" k then None
               else obj_get (headers_or_empty (e_headers config)) k)
    /\ ((e_isForm config = false \/ e_formData config = None) ->
        truthy (e_data config) = true ->
        fst (Executer.body_and_headers config)
        = option_map BodyString (JSON_stringify (e_data config))
        /\ forall k : string,
             obj_get (snd (Executer.body_and_headers config)) k
             = if String.eqb "Content-Type" k
               then Some (Executer.or_default
                            (obj_get (headers_or_empty (e_headers config))
                               "Content-Type")
                            "application/json")
               else obj_get (headers_or_empty (e_headers config)) k)
    /\ ((e_isForm config = false \/ e_formData config = None) ->
        truthy (e_data config) = false ->
        Executer.body_and_headers config
        = (None, headers_or_empty (e_headers config))).
Proof.
  intros config Hm. split; [|split].
  - intros formData Hform Hfd. unfold Executer.body_and_headers.
    rewrite (not_GET _ Hm), Hform, Hfd. simpl.
    split; [reflexivity|]. intros k. apply obj_get_delete.
  - intros Hmode Htruthy.
    rewrite (body_and_headers_json config Hm Hmode), Htruthy. simpl.
    split; [reflexivity|]. intros k. apply obj_get_set.
  - intros Hmode Hfalsy.
    now rewrite (body_and_headers_json config Hm Hmode), Hfalsy.
Qed.

Lemma fetcher_body_and_content_type_witness :
  fst (Executer.body_and_headers post_form_config)
  = Some (BodyFormData [("title", FVString "New Product")])
  /\ obj_get (snd (Executer.body_and_headers post_form_config)) "Content-Type"
     = None
  /\ obj_get (snd (Executer.body_and_headers post_json_config)) "Content-Type"
     = Some "application/json".
Proof.
  assert (Hform : e_method post_form_config <> GET) by discriminate.
  assert (Hjson : e_method post_json_config <> GET) by discriminate.
  destruct (fetcher_body_and_content_type post_form_config Hform)
    as (Hf & _ & _).
  destruct (fetcher_body_and_content_type post_json_config Hjson)
    as (_ & Hj & _).
  destruct (Hf [("title", FVString "New Product")] eq_refl eq_refl)
    as [Hbody Hheaders].
  destruct (Hj (or_introl eq_refl) eq_refl) as [_ Hheaders'].
  split; [exact Hbody|]. split.
  - now rewrite (Hheaders "Content-Type").
  - now rewrite (Hheaders' "Content-Type").
Defined.

(** X14.  [send(params)] of index.ts does not pass its [params] on: the
    Executer is built without them.  Whatever the [params], the request is
    executed as with none: the call has no signal, credentials
    [same-origin], mode [cors], referrer policy [no-referrer] and cache
    [no-store], and the [params] are never logged. *)
Theorem send_params_are_dropped :
  forall (platform : Platform)
         (fetch_response : FetchCall -> PlatformError + FetchedResponse)
         (config : ParserConfig) (params : option ParamsSend),
    NextBodyAppend_send fetch_response config params
    = NextBodyAppend_send fetch_response config None
    /\ forall x : Executed,
         NextBodyAppend_send fetch_response config params = Ok x ->
         init_signal (call_init (x_call x)) = None
         /\ init_credentials (call_init (x_call x)) = Some "same-origin"
         /\ init_mode (call_init (x_call x)) = Some "cors"
         /\ init_referrerPolicy (call_init (x_call x)) = Some "no-referrer"
         /\ init_cache (call_init (x_call x)) = Some "no-store"
         /\ forall p : ParamsSend, ~ In (LogParams p) (x_console x).
Proof.
  intros platform fetch_response config params.
  unfold NextBodyAppend_send, Parser_new.
  destruct (Parser_generateUrl config) as [url|e]; simpl.
  - split; [reflexivity|]. intros x [= <-].
    unfold Parser_exec, Executer_exec, Executer.fetcher_call. simpl.
    destruct (Executer.body_and_headers _) as [body finalHeaders]. simpl.
    repeat split.
    intros p. destruct (debug_flag (pc_debug config)); simpl;
      [intros [H | []]; discriminate H | tauto].
  - split; [reflexivity | discriminate].
Qed.

Lemma send_params_are_dropped_witness :
  init_signal
    (call_init
       (x_call (@Parser_exec (answering ok_no_header) (replying text_ok)
                  sample_parser)))
  = None
  /\ init_credentials
       (call_init
          (x_call (@Parser_exec (answering ok_no_header) (replying text_ok)
                     sample_parser)))
     = Some "same-origin".
Proof.
  destruct (send_params_are_dropped (answering ok_no_header) (replying text_ok)
              sample_parser_config (Some sample_params)) as [_ Hdefaults].
  destruct (Hdefaults
              (@Parser_exec (answering ok_no_header) (replying text_ok)
                 sample_parser) eq_refl)
    as (Hsignal & Hcredentials & _).
  split; assumption.
Defined.

Lemma read_headers_alloc (h : Store) (c : Cell) (headers : option loc)
  (hs : option Headers) :
  read_headers h headers = Some hs -> read_headers (h ++ [c]) headers = Some hs.
Proof.
  unfold read_headers. destruct headers as [l|]; [|trivial].
  destruct (h !! l) as [cell|] eqn:Hl; [|discriminate].
  now rewrite (lookup_app_l_Some _ _ _ _ Hl).
Qed.

(** X15.  A request sent right after [get], [post], [put], [patch] or
    [delete] of the client of index.ts, without [form] or [json]: it has the
    method of the verb; with GET it has no body; with any other method its
    body is an empty FormData and no [Content-Type] header is sent, the
    client's own being removed. *)
Theorem send_without_payload :
  forall (platform : Platform)
         (fetch_response : FetchCall -> PlatformError + FetchedResponse)
         (h : Store) (config : IndexClientConfig) (method : TMethads)
         (path : string) (query : option Props) (params : option ParamsSend)
         (x : Executed),
    NextClientBody_send_at fetch_response
      (fst (createRequest h config method path query))
      (snd (createRequest h config method path query)) params
    = Some (Ok x) ->
    init_method (call_init (x_call x)) = Some method
    /\ init_body (call_init (x_call x))
       = (if TMethads_eqb method GET then None else Some (BodyFormData []))
    /\ (method <> GET ->
        obj_get (headers_or_empty (init_headers (call_init (x_call x))))
          "Content-Type" = None).
Proof.
  intros platform fetch_response h config method path query params x.
  unfold createRequest, alloc, NextClientBody_send_at. simpl.
  rewrite alloc_new. simpl.
  destruct (read_headers _ (ic_headers config)) as [headers|]; [|discriminate].
  unfold NextBodyAppend_send, Parser_new.
  destruct (Parser_generateUrl _) as [url|e]; simpl; [|discriminate].
  intros [= <-].
  unfold Parser_exec, Executer_exec, Executer.fetcher_call,
    Executer.body_and_headers. simpl.
  destruct (TMethads_eqb method GET) eqn:Hm; simpl.
  - repeat split. intros Hne. now rewrite (not_GET _ Hne) in Hm.
  - repeat split. intros _. rewrite obj_get_delete. reflexivity.
Qed.

Lemma send_without_payload_witness :
  init_body
    (call_init
       (x_call (@Parser_exec (answering ok_no_header) (replying text_ok)
                  delete_parser)))
  = Some (BodyFormData [])
  /\ obj_get
       (headers_or_empty
          (init_headers
             (call_init
                (x_call (@Parser_exec (answering ok_no_header)
                           (replying text_ok) delete_parser)))))
       "Content-Type"
     = None.
Proof.
  destruct (send_without_payload (answering ok_no_header) (replying text_ok)
              client_store index_client DELETE "/products/1" None None
              (@Parser_exec (answering ok_no_header) (replying text_ok)
                 delete_parser) eq_refl)
    as (_ & Hbody & Hheader).
  split; [exact Hbody | apply Hheader; discriminate].
Defined.

Lemma settle_not_ok {platform : Platform} (config : NextClientExecuterConfig)
  (response : FetchedResponse) :
  ok (fetched response) = false ->
  Executer_settle config response
  = Rejected
      (ENextApiError
         {| nae_message :=
              "HTTP Error: " +:+ num_toString (status (fetched response))
                +:+ " " +:+ statusText response;
            nae_status := status (fetched response);
            nae_statusText := statusText response;
            nae_url := e_url config;
            nae_data :=
              match JSON_parse (body_text (as_read response)) with
              | Some parsed => parsed
              | None => if has_body response then JUndefined else JStr ""
              end |}).
Proof.
  intros Hok. unfold Executer_settle, read_json, read_text, consume, as_read.
  rewrite Hok. simpl.
  destruct (has_body response); simpl;
    now destruct (JSON_parse _).
Qed.

Lemma settle_ok {platform : Platform} (config : NextClientExecuterConfig)
  (response : FetchedResponse) :
  ok (fetched response) = true ->
  Executer_settle config response
  = match JSON_parse (body_text (as_read response)) with
    | Some parsed =>
        Resolved {| r_data := parsed;
                    r_status := status (fetched response);
                    r_statusText := statusText response;
                    r_url := e_url config |}
    | None =>
        if has_body response
        then Rejected (EOther (EPlatform (TypeError "body stream already read")))
        else Resolved {| r_data := JStr "";
                         r_status := status (fetched response);
                         r_statusText := statusText response;
                         r_url := e_url config |}
    end.
Proof.
  intros Hok. unfold Executer_settle, read_json, read_text, consume, as_read.
  rewrite Hok. simpl.
  destruct (has_body response); simpl;
    now destruct (JSON_parse _).
Qed.

(** X16.  [exec] on a response with a status outside 200-299 rejects with
    a [NextApiError] carrying the status, the status text and the url.  Its
    data is the JSON parse of the body; when the body is not JSON the data is
    undefined, not the text: the body stream was read by the parse, so the
    fallback to [response.text()] fails and is silenced.  Only a response
    without a body gives the (empty) text. *)
Theorem exec_error_data :
  forall (platform : Platform)
         (fetch_response : FetchCall -> PlatformError + FetchedResponse)
         (debug : option bool) (config : NextClientExecuterConfig)
         (params : option ParamsSend) (response : FetchedResponse),
    fetch_response (Executer.fetcher_call config params) = inr response ->
    ok (fetched response) = false ->
    x_settled (Executer_exec fetch_response debug config params)
    = Rejected
        (ENextApiError
           {| nae_message :=
                "HTTP Error: " +:+ num_toString (status (fetched response))
                  +:+ " " +:+ statusText response;
              nae_status := status (fetched response);
              nae_statusText := statusText response;
              nae_url := e_url config;
              nae_data :=
                match JSON_parse (body_text (as_read response)) with
                | Some parsed => parsed
                | None => if has_body response then JUndefined else JStr ""
                end |}).
Proof.
  intros platform fetch_response debug config params response Hfetch Hok.
  unfold Executer_exec. simpl. rewrite Hfetch. now apply settle_not_ok.
Qed.

Lemma exec_error_data_witness :
  x_settled
    (@Executer_exec (answering ok_no_header) (replying html_error) None
       post_json_config None)
  = Rejected
      (ENextApiError
         {| nae_message := "HTTP Error: 502 Bad Gateway";
            nae_status := 502;
            nae_statusText := "Bad Gateway";
            nae_url := sample_url;
            nae_data := JUndefined |}).
Proof.
  apply (exec_error_data (answering ok_no_header) (replying html_error) None
           post_json_config None html_error); reflexivity.
Defined.

(** X17.  [exec] on a response with a status in 200-299 resolves with the
    JSON parse of the body.  When the body is not JSON, the fallback to
    [response.text()] reads a stream the parse has consumed: [exec] rejects
    with a TypeError, and resolves with text only for a response without a
    body, whose text is empty. *)
Theorem exec_text_fallback :
  forall (platform : Platform)
         (fetch_response : FetchCall -> PlatformError + FetchedResponse)
         (debug : option bool) (config : NextClientExecuterConfig)
         (params : option ParamsSend) (response : FetchedResponse),
    fetch_response (Executer.fetcher_call config params) = inr response ->
    ok (fetched response) = true ->
    x_settled (Executer_exec fetch_response debug config params)
    = match JSON_parse (body_text (as_read response)) with
      | Some parsed =>
          Resolved {| r_data := parsed;
                      r_status := status (fetched response);
                      r_statusText := statusText response;
                      r_url := e_url config |}
      | None =>
          if has_body response
          then Rejected
                 (EOther (EPlatform (TypeError "body stream already read")))
          else Resolved {| r_data := JStr "";
                           r_status := status (fetched response);
                           r_statusText := statusText response;
                           r_url := e_url config |}
      end.
Proof.
  intros platform fetch_response debug config params response Hfetch Hok.
  unfold Executer_exec. simpl. rewrite Hfetch. now apply settle_ok.
Qed.

Lemma exec_text_fallback_witness :
  x_settled
    (@Executer_exec (answering ok_no_header) (replying text_ok) None
       post_json_config None)
  = Rejected (EOther (EPlatform (TypeError "body stream already read"))).
Proof.
  apply (exec_text_fallback (answering ok_no_header) (replying text_ok) None
           post_json_config None text_ok); reflexivity.
Defined.

(** X18.  [handleNextError] on what [exec] rejects with.  For a response
    with a status outside 200-299 the callback is called, with the status
    text, the url and the message of the error, and with the parsed JSON body
    as data when it is truthy; otherwise (a body that is not JSON, or the
    JSON [null], [false], [0] or empty string) the data is an empty object.
    For a failure of the transport the callback is not called: [pass] is,
    when it is given. *)
Theorem handleNextError_after_exec :
  forall (platform : Platform)
         (fetch_response : FetchCall -> PlatformError + FetchedResponse)
         (debug : option bool) (config : NextClientExecuterConfig)
         (params : option ParamsSend) (pass : bool),
    (forall response : FetchedResponse,
        fetch_response (Executer.fetcher_call config params) = inr response ->
        ok (fetched response) = false ->
        exists e : ExecThrown,
          x_settled (Executer_exec fetch_response debug config params)
          = Rejected e
          /\ handleNextError e pass
             = CallbackCalled
                 (match JSON_parse (body_text (as_read response)) with
                  | Some parsed => if truthy parsed then parsed else JObj []
                  | None => JObj []
                  end)
                 (statusText response) (e_url config)
                 ("HTTP Error: " +:+ num_toString (status (fetched response))
                    +:+ " " +:+ statusText response))
    /\ (forall failure : PlatformError,
           fetch_response (Executer.fetcher_call config params) = inl failure ->
           exists e : ExecThrown,
             x_settled (Executer_exec fetch_response debug config params)
             = Rejected e
             /\ handleNextError e pass
                = if pass then PassCalled else NothingCalled).
Proof.
  intros platform fetch_response debug config params pass. split.
  - intros response Hfetch Hok. eexists. split.
    + unfold Executer_exec. simpl. rewrite Hfetch. now apply settle_not_ok.
    + simpl. destruct (JSON_parse _) as [parsed|]; [reflexivity|].
      now destruct (has_body response).
  - intros failure Hfetch. eexists. split.
    + unfold Executer_exec. simpl. rewrite Hfetch. reflexivity.
    + reflexivity.
Qed.

Lemma handleNextError_after_exec_witness :
  exists e : ExecThrown,
    x_settled
      (@Executer_exec (answering ok_no_header) (replying html_error) None
         post_json_config None)
    = Rejected e
    /\ handleNextError e true
       = CallbackCalled (JObj []) "Bad Gateway" sample_url
           "HTTP Error: 502 Bad Gateway".
Proof.
  destruct (handleNextError_after_exec (answering ok_no_header)
              (replying html_error) None post_json_config None true)
    as [Hresponse _].
  destruct (Hresponse html_error eq_refl eq_refl) as (e & Hsettled & Hhandled).
  exists e. split; [exact Hsettled | exact Hhandled].
Defined.

(** ** index.ts: the builder chain *)

Lemma NextClientBody_step (isForm : bool) (h h1 : Store) (b data r : loc) :
  (if isForm then NextClientBody.form h b data else NextClientBody.json h b data)
  = Some (h1, r) ->
  exists config : NextClientBodyConfig,
    h !! b = Some (CNextClientBody config)
    /\ h1 = h ++ [CNextBodyAppend
                    {| a_config := config; a_data := data; a_isForm := isForm |}]
    /\ r = length h.
Proof.
  unfold NextClientBody.form, NextClientBody.json, alloc.
  destruct (h !! b) as [[| | | | | |config|]|]; destruct isForm;
    try discriminate; intros [= <- <-]; now exists config.
Qed.

Lemma send_at_body (platform : Platform)
  (fetch_response : FetchCall -> PlatformError + FetchedResponse)
  (h : Store) (this : loc) (config : NextBodyAppendConfig) (props : Props)
  (params : option ParamsSend) (x : Executed) :
  h !! this = Some (CNextBodyAppend config) ->
  h !! a_data config = Some (CObject props) ->
  c_method (a_config config) <> GET ->
  NextBodyAppend_send_at fetch_response h this params = Some (Ok x) ->
  init_body (call_init (x_call x))
  = if a_isForm config
    then Some (BodyFormData (jsonToFormData props [] ""))
    else option_map BodyString (JSON_stringify (JObj props)).
Proof.
  intros Hthis Hdata Hm. unfold NextBodyAppend_send_at.
  rewrite Hthis, Hdata.
  destruct (read_headers h _) as [headers|]; [|discriminate].
  unfold NextBodyAppend_send, Parser_new.
  destruct (Parser_generateUrl _) as [url|e]; simpl; [|discriminate].
  intros [= <-].
  unfold Parser_exec, Executer_exec, Executer.fetcher_call,
    Executer.body_and_headers.
  cbn [x_call e_method e_isForm e_formData e_data e_headers p_config p_url
         p_formData pc_method pc_isForm pc_data pc_headers pc_debug].
  rewrite (not_GET _ Hm). cbn [negb].
  destruct (a_isForm config); [reflexivity|].
  reflexivity.
Qed.

(** X19.  The payload of a chain reaches the transport: after [json(data)]
    (or [form(data)]) and [set(key, value)], [send] on a method other than
    GET carries as body the JSON text (or the form encoding) of the data
    with the key set, the properties in the order in which the object
    enumerates them: a new key that is an array index among the array
    indices, any other new key last. *)
Theorem chain_payload_reaches_the_transport :
  forall (platform : Platform)
         (fetch_response : FetchCall -> PlatformError + FetchedResponse)
         (isForm : bool) (h h1 h2 : Store) (b data r r' : loc)
         (config : NextClientBodyConfig) (props : Props) (key : string)
         (value : JsValue) (params : option ParamsSend) (x : Executed),
    h !! b = Some (CNextClientBody config) ->
    c_method config <> GET ->
    h !! data = Some (CObject props) ->
    (if isForm then NextClientBody.form h b data else NextClientBody.json h b data)
    = Some (h1, r) ->
    NextBodyAppend.set h1 r key value = Some (h2, r') ->
    NextBodyAppend_send_at fetch_response h2 r' params = Some (Ok x) ->
    init_body (call_init (x_call x))
    = if isForm
      then Some (BodyFormData (jsonToFormData (obj_set props key value) [] ""))
      else option_map BodyString
             (JSON_stringify (JObj (obj_set props key value))).
Proof.
  intros platform fetch_response isForm h h1 h2 b data r r' config props key
    value params x Hb Hm Hdata Hstep Hset Hsend.
  destruct (NextClientBody_step _ _ _ _ _ _ Hstep) as (config' & Hb' & -> & ->).
  rewrite Hb in Hb'. injection Hb' as <-.
  destruct (NextBodyAppend_set_spec _ _ _ _ _ _ Hset)
    as (-> & cfg & props' & Hthis & Hdata' & Hthis' & Hcopy & _).
  rewrite alloc_new in Hthis. injection Hthis as <-. simpl in Hdata'.
  rewrite (lookup_app_l_Some _ _ _ _ Hdata) in Hdata'. injection Hdata' as <-.
  apply (send_at_body platform fetch_response _ _ _ _ params x Hthis' Hcopy Hm Hsend).
Qed.

Lemma chain_payload_reaches_the_transport_witness :
  init_body
    (call_init
       (x_call (@Parser_exec (answering ok_no_header) (replying text_ok)
                  chain_parser)))
  = option_map BodyString
      (JSON_stringify (JObj (obj_set [("a", JNum 1)] "k" (JStr "v"))))
  /\ init_body
       (call_init
          (x_call (@Parser_exec (answering ok_no_header) (replying text_ok)
                     index_chain_parser)))
     = option_map BodyString
         (JSON_stringify (JObj (obj_set [("a", JNum 1)] "0" (JStr "v"))))
  /\ obj_set [("a", JNum 1)] "k" (JStr "v") = [("a", JNum 1); ("k", JStr "v")]
  /\ obj_set [("a", JNum 1)] "0" (JStr "v") = [("0", JStr "v"); ("a", JNum 1)].
Proof.
  assert (Hm : c_method sample_config <> GET) by discriminate.
  split; [|split; [|split; reflexivity]].
  - apply (chain_payload_reaches_the_transport
             (answering ok_no_header) (replying text_ok) false
             body_store _ _ 2 0 _ _ sample_config [("a", JNum 1)] "k" (JStr "v")
             None
             (@Parser_exec (answering ok_no_header) (replying text_ok)
                chain_parser)
             eq_refl Hm eq_refl eq_refl eq_refl eq_refl).
  - apply (chain_payload_reaches_the_transport
             (answering ok_no_header) (replying text_ok) false
             body_store _ _ 2 0 _ _ sample_config [("a", JNum 1)] "0" (JStr "v")
             None
             (@Parser_exec (answering ok_no_header) (replying text_ok)
                index_chain_parser)
             eq_refl Hm eq_refl eq_refl eq_refl eq_refl).
Defined.

(** X20.  Two builders made from one payload object share it.  [delete]
    through one of them removes the key from that object: the other builder
    and the caller see it gone.  [set] through one of them leaves the object,
    and so the other builder, as they were: only the builder it was called on
    captures the key. *)
Theorem delete_is_shared_and_set_is_not :
  forall (h h1 h2 : Store) (b data r1 r2 : loc) (props : Props),
    h !! data = Some (CObject props) ->
    NextClientBody.json h b data = Some (h1, r1) ->
    NextClientBody.form h1 b data = Some (h2, r2) ->
    (forall (key : string) (h3 : Store) (r3 : loc),
        NextBodyAppend.delete h2 r1 key = Some (h3, r3) ->
        payload_of h3 r1 = Some (obj_delete props key)
        /\ payload_of h3 r2 = Some (obj_delete props key)
        /\ h3 !! data = Some (CObject (obj_delete props key)))
    /\ (forall (key : string) (value : JsValue) (h3 : Store) (r3 : loc),
           NextBodyAppend.set h2 r1 key value = Some (h3, r3) ->
           payload_of h3 r1 = Some (obj_set props key value)
           /\ payload_of h3 r2 = Some props
           /\ h3 !! data = Some (CObject props)).
Proof.
  intros h h1 h2 b data r1 r2 props Hdata Hjson Hform.
  destruct (NextClientBody_step false _ _ _ _ _ Hjson) as (c1 & Hb & -> & ->).
  destruct (NextClientBody_step true _ _ _ _ _ Hform) as (c2 & Hb2 & -> & ->).
  pose proof (lookup_lt_Some _ _ _ Hdata) as Hlt.
  set (B1 := CNextBodyAppend {| a_config := c1; a_data := data; a_isForm := false |}).
  set (B2 := CNextBodyAppend {| a_config := c2; a_data := data; a_isForm := true |}).
  assert (H1 : ((h ++ [B1]) ++ [B2]) !! length h = Some B1).
  { apply lookup_app_l_Some. apply alloc_new. }
  assert (H2 : ((h ++ [B1]) ++ [B2]) !! length (h ++ [B1]) = Some B2)
    by apply alloc_new.
  assert (Hd : ((h ++ [B1]) ++ [B2]) !! data = Some (CObject props)).
  { apply lookup_app_l_Some. now apply lookup_app_l_Some. }
  assert (Hlen : length (h ++ [B1]) = S (length h))
    by (rewrite length_app; simpl; lia).
  split.
  - intros key h3 r3 Hdel.
    destruct (NextBodyAppend_delete_spec _ _ _ _ _ Hdel)
      as (_ & cfg & props' & Hthis & Hdata' & Hthis' & Hmut & Hothers).
    rewrite H1 in Hthis. injection Hthis as <-. simpl in *.
    rewrite Hd in Hdata'. injection Hdata' as <-.
    assert (H2' : h3 !! length (h ++ [B1]) = Some B2).
    { apply Hothers; [rewrite Hlen; lia | exact H2]. }
    unfold payload_of. rewrite Hthis', H2'. simpl. now rewrite Hmut.
  - intros key value h3 r3 Hset.
    destruct (NextBodyAppend_set_spec _ _ _ _ _ _ Hset)
      as (_ & cfg & props' & Hthis & Hdata' & Hthis' & Hcopy & Hothers).
    rewrite H1 in Hthis. injection Hthis as <-. simpl in *.
    rewrite Hd in Hdata'. injection Hdata' as <-.
    assert (H2' : h3 !! length (h ++ [B1]) = Some B2).
    { apply Hothers; [rewrite Hlen; lia | exact H2]. }
    assert (Hd' : h3 !! data = Some (CObject props)).
    { apply Hothers; [lia | exact Hd]. }
    unfold payload_of. rewrite Hthis', H2'. subst B1 B2. cbn [a_data].
    now rewrite Hcopy, Hd'.
Qed.

Lemma delete_is_shared_and_set_is_not_witness :
  payload_of
    (<[0 := CObject []]>
       ((body_store
           ++ [CNextBodyAppend
                 {| a_config := sample_config; a_data := 0; a_isForm := false |}])
          ++ [CNextBodyAppend
                {| a_config := sample_config; a_data := 0; a_isForm := true |}]))
    4
  = Some [].
Proof.
  destruct (delete_is_shared_and_set_is_not body_store _ _ 2 0 _ _
              [("a", JNum 1)] eq_refl eq_refl eq_refl) as [Hdelete _].
  destruct (Hdelete "a" _ 3 eq_refl) as (_ & Hother & _).
  exact Hother.
Defined.

(** ** request.js with to.ts: from the verb to the transport *)



(** ** form.js *)

Lemma legacy_fold (obj : Props) :
  forall fd : FormData,
    fold_left (fun acc kv => append_value acc (fst kv) (snd kv)) obj fd
    = fd ++ map legacy_field obj.
Proof.
  induction obj as [|[k v] obj IH]; intros fd; simpl.
  - now rewrite app_nil_r.
  - rewrite IH. unfold append_value, FormDataOps.append, legacy_field. simpl.
    rewrite <- List.app_assoc. simpl. now destruct v.
Qed.

Lemma entry_plain (k : string) (v : JsValue) :
  plain_value v = true ->
  jsonToFormData_entry "" k v [] = [legacy_field (k, v)].
Proof.
  intros Hplain. destruct v; try discriminate Hplain; simpl;
    unfold FormDataOps.append, legacy_field, js_String; simpl.
  - now rewrite (toString_or_empty_text (JBool b) _ eq_refl).
  - now rewrite (toString_or_empty_text (JNum z) _ eq_refl).
  - now rewrite (toString_or_empty_text (JStr s) _ eq_refl).
  - reflexivity.
Qed.

(** X22.  The encoder of form.js gives exactly one field per key, named by
    the key and in the order of the keys.  On a payload whose values are
    booleans, numbers, strings and files it gives the same form as the
    current encoder; the encoders differ, for one, on null, which the one of
    form.js writes as the text [null] and the current one as the empty
    string. *)
Theorem legacy_encoder_one_field_per_key :
  (forall obj : Props, map fst (legacy_jsonToFormData obj) = map fst obj)
  /\ (forall obj : Props,
         forallb (fun kv => plain_value (snd kv)) obj = true ->
         legacy_jsonToFormData obj = jsonToFormData obj [] "")
  /\ (forall k : string,
         legacy_jsonToFormData [(k, JNull)] = [(k, FVString "null")]
         /\ jsonToFormData [(k, JNull)] [] "" = [(k, FVString "")]).
Proof.
  split; [|split].
  - intros obj. unfold legacy_jsonToFormData. rewrite legacy_fold. simpl.
    rewrite List.map_map. reflexivity.
  - intros obj Hall. unfold legacy_jsonToFormData.
    rewrite legacy_fold, jsonToFormData_flat_map. simpl.
    induction obj as [|[k v] obj IH]; simpl in *; [reflexivity|].
    apply andb_prop in Hall. destruct Hall as [Hv Hrest].
    rewrite (entry_plain k v Hv), (IH Hrest). reflexivity.
  - intros k. split; reflexivity.
Qed.

Lemma legacy_encoder_one_field_per_key_witness :
  legacy_jsonToFormData
    [("name", JStr "example.txt"); ("age", JNum 30); ("file", JFile sample_file)]
  = [("name", FVString "example.txt"); ("age", FVString "30");
     ("file", FVFile sample_file)].
Proof.
  destruct legacy_encoder_one_field_per_key as (_ & Hagree & _).
  rewrite (Hagree [("name", JStr "example.txt"); ("age", JNum 30);
                   ("file", JFile sample_file)] eq_refl).
  reflexivity.
Defined.

(** X23.  [send] of form.js on a response with a status outside 200-299
    reads the error body with [response.json().catch(() => response.text())]
    on the one response: when the body is not JSON, the text is read from a
    stream the parse has consumed, and [send] rejects with a TypeError where
    an [HttpError] was meant.  It rejects with an [HttpError] when the body is
    JSON, or when the response has no body. *)
Theorem legacy_send_error_body :
  forall (platform : Platform)
         (fetch_response : FetchCall -> PlatformError + FetchedResponse)
         (this : FormRequestObj) (formData : FormData)
         (headers : option Headers) (init : option RequestInit)
         (response : FetchedResponse),
    URL_valid (fr_path this) (fr_host this) = true ->
    fetch_response
      {| call_url := {| url_path := fr_path this; url_host := fr_host this;
                        url_search := fr_searchParams this |};
         call_init := FormRequest.fetch_init this formData headers init |}
    = inr response ->
    ok (fetched response) = false ->
    legacy_send fetch_response this formData headers init
    = match JSON_parse (body_text (as_read response)) with
      | Some parsed => Throw (EHttpError (status (fetched response)) parsed)
      | None =>
          if has_body response
          then Throw (EPlatform (TypeError "body stream already read"))
          else Throw (EHttpError (status (fetched response)) (JStr ""))
      end.
Proof.
  intros platform fetch_response this formData headers init response
    Hurl Hfetch Hok.
  unfold legacy_send, make_url. rewrite Hurl. simpl. rewrite Hfetch.
  unfold legacy_settle, read_json, read_text, consume, as_read.
  rewrite Hok. simpl.
  destruct (has_body response); simpl; now destruct (JSON_parse _).
Qed.

Lemma legacy_send_error_body_witness :
  @legacy_send (answering ok_no_header) (replying html_error)
    post_form_request [] None None
  = Throw (EPlatform (TypeError "body stream already read")).
Proof.
  apply (legacy_send_error_body (answering ok_no_header) (replying html_error)
           post_form_request [] None None html_error); reflexivity.
Defined.

(** ** form.ts, json.ts: the body streams *)

(** X24.  Decoding in form.ts and json.ts reads no stream twice: with the
    reads made on the streams (the clone for the JSON parse of an error body,
    the response itself for everything else), the result is the one of
    [decode_response] on the body as read, so that no read fails on a
    consumed stream.  (The statements of json.ts differ from these in the
    class of the [HttpError] only.) *)
Theorem decode_reads_each_stream_once :
  forall (platform : Platform) (response : FetchedResponse),
    decode_response_streams response false = decode_response (as_read response).
Proof.
  intros platform response.
  unfold decode_response_streams, decode_response, error_body, Response_json,
    read_json, read_text, consume, as_read, ok. simpl.
  rewrite andb_false_r. simpl.
  destruct (negb _); simpl.
  - destruct (has_body response); simpl; now destruct (JSON_parse _).
  - destruct (includes _ "application/json").
    + destruct (has_body response); simpl; now destruct (JSON_parse _).
    + destruct (includes _ "text/" || String.eqb _ ""); [|reflexivity].
      now destruct (has_body response).
Qed.

(** ** Further compositions *)

(** X25.  A query with a null or undefined leaf makes [send] of index.ts
    throw a TypeError from the call itself: the URL is built when the Parser
    is constructed, so no promise is returned, nothing is logged and the
    transport is not reached.  With a valid URL and a query without such a
    leaf, [send] returns its promise and the call goes to the base URL and
    the path, preceded by the prefix and a slash when there is one, with the
    query written pair by pair. *)
Theorem send_query_errors_are_thrown_by_the_call :
  forall (platform : Platform)
         (fetch_response : FetchCall -> PlatformError + FetchedResponse)
         (config : ParserConfig) (params : option ParamsSend) (query : Props),
    pc_query config = Some query ->
    (existsb (fun kv => nullish_leaf (snd kv)) query = true ->
     throws_TypeError (NextBodyAppend_send fetch_response config params))
    /\ (existsb (fun kv => nullish_leaf (snd kv)) query = false ->
        URL_valid
          (match pc_prefix config with
           | Some prefix =>
               if truthy_string prefix then prefix +:+ "/" +:+ pc_path config
               else pc_path config
           | None => pc_path config
           end) (pc_baseUrl config) = true ->
        exists x : Executed,
          NextBodyAppend_send fetch_response config params = Ok x
          /\ url_host (call_url (x_call x)) = pc_baseUrl config
          /\ url_path (call_url (x_call x))
             = match pc_prefix config with
               | Some prefix =>
                   if truthy_string prefix
                   then prefix +:+ "/" +:+ pc_path config
                   else pc_path config
               | None => pc_path config
               end
          /\ url_search (call_url (x_call x)) = set_all (writes "" query) []).
Proof.
  intros platform fetch_response config params query Hq.
  unfold NextBodyAppend_send, Parser_new, Parser_generateUrl. rewrite Hq.
  pose proof (addParams_nullish query "" []) as Hrun. split.
  - intros Hnull. rewrite Hnull in Hrun. destruct Hrun as [message Hrun].
    destruct (URL_valid _ _); simpl.
    + unfold Parser.setSearchParams. rewrite Hrun. now exists message.
    + now exists "Invalid URL".
  - intros Hnull Hurl. rewrite Hnull in Hrun. destruct Hrun as [sp Hrun].
    rewrite Hurl. unfold Parser.setSearchParams. rewrite Hrun. simpl.
    eexists. split; [reflexivity|].
    unfold Parser_exec, Executer_exec, Executer.fetcher_call. simpl.
    destruct (Executer.body_and_headers _) as [body finalHeaders]. simpl.
    repeat split. now apply addParams_writes.
Qed.

Lemma send_query_errors_are_thrown_by_the_call_witness :
  throws_TypeError
    (@NextBodyAppend_send (answering ok_no_header) (replying text_ok)
       null_query_config None).
Proof.
  destruct (send_query_errors_are_thrown_by_the_call
              (answering ok_no_header) (replying text_ok) null_query_config
              None [("limit", JNum 5); ("sort", JNull)] eq_refl)
    as [Hthrow _].
  apply Hthrow. reflexivity.
Defined.

Lemma obj_delete_set {V : Type} (o : list (string * V)) (k : string) (v : V) :
  obj_delete (obj_set o k v) k = obj_delete o k.
Proof.
  unfold obj_set, obj_delete. destruct (obj_has o k) eqn:Hhas.
  - clear Hhas. induction o as [|[k0 v0] rest IH]; simpl; [reflexivity|].
    destruct (String.eqb_spec k0 k) as [->|Hne]; simpl.
    + now rewrite String.eqb_refl.
    + apply String.eqb_neq in Hne. rewrite Hne. simpl. now rewrite IH.
  - clear Hhas. destruct (array_index k) as [n|].
    + induction o as [|[k0 v0] rest IH]; simpl.
      * now rewrite String.eqb_refl.
      * destruct (array_index k0) as [m|]; [destruct (m <? n)%N|]; simpl;
          rewrite ?String.eqb_refl; simpl; try reflexivity.
        now rewrite IH.
    + rewrite List.filter_app. simpl. rewrite String.eqb_refl. simpl.
      now rewrite app_nil_r.
Qed.

(** X26.  After [set], the builder works on its own copy of the payload:
    a [delete] that follows removes the key from that copy, and every object
    that existed before the two steps, the caller's payload object included,
    is unchanged but for the builder itself.  Deleting the key just set
    gives the payload without that key. *)
Theorem delete_after_set_is_private :
  forall (h h1 h2 : Store) (this r1 r2 : loc) (key key' : string)
         (value : JsValue) (props : Props),
    payload_of h this = Some props ->
    NextBodyAppend.set h this key value = Some (h1, r1) ->
    NextBodyAppend.delete h1 r1 key' = Some (h2, r2) ->
    r2 = this
    /\ payload_of h2 this = Some (obj_delete (obj_set props key value) key')
    /\ (forall (l : loc) (c : Cell),
           l <> this -> h !! l = Some c -> h2 !! l = Some c)
    /\ obj_delete (obj_set props key value) key = obj_delete props key.
Proof.
  intros h h1 h2 this r1 r2 key key' value props Hpayload Hset Hdel.
  destruct (NextBodyAppend_set_spec _ _ _ _ _ _ Hset)
    as (-> & cfg & props0 & Hthis & Hdata & Hthis1 & Hcopy & Hothers).
  unfold payload_of in Hpayload. rewrite Hthis, Hdata in Hpayload.
  injection Hpayload as ->.
  destruct (NextBodyAppend_delete_spec _ _ _ _ _ Hdel)
    as (-> & cfg' & props' & Hthis' & Hdata' & Hthis2 & Hmut & Hothers').
  rewrite Hthis1 in Hthis'. injection Hthis' as <-. cbn [a_data] in *.
  rewrite Hcopy in Hdata'. injection Hdata' as <-.
  split; [reflexivity|]. split; [|split].
  - unfold payload_of. rewrite Hthis2. cbn [a_data]. now rewrite Hmut.
  - intros l c Hne Hl. apply Hothers'.
    + apply lookup_lt_Some in Hl. lia.
    + now apply Hothers.
  - apply obj_delete_set.
Qed.

Lemma delete_after_set_is_private_witness :
  payload_of
    (<[3 := CObject [("a", JNum 1)]]>
       (<[2 := CNextBodyAppend
                 {| a_config := sample_config; a_data := 3; a_isForm := false |}]>
          (builder_store ++ [CObject [("a", JNum 1); ("k", JStr "v")]])))
    2
  = Some [("a", JNum 1)].
Proof.
  destruct (delete_after_set_is_private builder_store _ _ 2 2 2 "k" "k"
              (JStr "v") [("a", JNum 1)] eq_refl eq_refl eq_refl)
    as (_ & Hpayload & _).
  exact Hpayload.
Defined.

(** X27.  [form(data)] of to.ts encodes the data when it is called, into a
    FormData of its own, and [append(key, file)] adds one entry to it: the
    request [form(data).append(key, file)] captures the fields of the data
    followed by the entry, and [send] on a method other than GET passes them
    as body. *)
Theorem form_then_append_body :
  forall (h h1 h2 : Store) (this r r' : loc) (data : option Props)
         (key : string) (file : FormDataEntryValue),
    ToPath.form h this data = Some (h1, r) ->
    FormRequest.append h1 r key file = Some (h2, r') ->
    fields_of h2 r'
    = Some (jsonToFormData (query_of data) [] "" ++ [(key, file)])
    /\ forall (platform : Platform) (headers : option Headers)
              (init : option RequestInit),
       exists (o : ToPathObj) (sent : Sent),
         h !! this = Some (CToPath o)
         /\ FormRequest.send_at h2 r' headers init = Some sent
         /\ (URL_valid (tp_path o) (tp_host o) = true ->
             body_sent sent
             = Some (if TMethads_eqb (tp_method o) GET then None
                     else Some (BodyFormData
                                  (jsonToFormData (query_of data) [] ""
                                     ++ [(key, file)])))).
Proof.
  intros h h1 h2 this r r' data key file Hform Happend.
  unfold ToPath.form, alloc in Hform.
  destruct (h !! this) as [[| | |o| | | |]|] eqn:Hthis; try discriminate.
  injection Hform as <- <-.
  assert (Hencoded : match data with
                     | Some jsonObject => jsonToFormData jsonObject [] ""
                     | None => []
                     end = jsonToFormData (query_of data) [] "")
    by now destruct data.
  rewrite Hencoded in Happend.
  destruct (FormRequest_append_spec _ _ _ _ _ _ Happend)
    as (o' & formData & Hr & Hfd & -> & Hr1 & Hfd1 & Hr').
  rewrite alloc_new in Hr. injection Hr as <-. cbn [fr_formData] in *.
  rewrite (lookup_app_l_Some _ _ _ _ (alloc_new h (CFormData _))) in Hfd.
  injection Hfd as <-.
  split.
  - unfold fields_of. rewrite Hr'. cbn [fr_formData]. now rewrite Hfd1.
  - intros platform headers init. eexists o, _. split; [reflexivity|]. split.
    + unfold FormRequest.send_at. rewrite Hr'. cbn [fr_formData].
      rewrite Hfd1. reflexivity.
    + intros Hurl. unfold body_sent, FormRequest.send, make_url. simpl.
      rewrite Hurl. reflexivity.
Qed.

Lemma form_then_append_body_witness :
  fields_of
    (<[1 := CFormData [("file", FVFile sample_file)]]>
       ((upload_store ++ [CFormData []])
          ++ [CFormRequest
                {| fr_formData := 1; fr_path := "/upload";
                   fr_host := "https://api.example.com";
                   fr_init := cl_init sample_client; fr_method := POST;
                   fr_searchParams := [];
                   fr_config := Some {| debug := Some true |} |}])
       ++ [CFormRequest
             {| fr_formData := 1; fr_path := "/upload";
                fr_host := "https://api.example.com";
                fr_init := cl_init sample_client; fr_method := POST;
                fr_searchParams := []; fr_config := None |}])
    3
  = Some [("file", FVFile sample_file)].
Proof.
  destruct (form_then_append_body upload_store _ _ 0 2 3 (Some [])
              "file" (FVFile sample_file) eq_refl eq_refl)
    as [Hfields _].
  exact Hfields.
Defined.
